(** * bqgame: the authoritative server of a two-player projectile duel

    A shallow embedding of [src/server.js]: the room registry, the request
    handlers ([/api/join], [/api/state], [/api/fire], [/api/restart]) and the
    60 Hz [setInterval] callback, followed by the properties the specification
    states about them.

    Conventions of the embedding.
    - JavaScript numbers are IEEE-754 doubles.  Positions, velocities, power
      and angle are kept as primitive binary64 floats, with the operations
      and the rounding of the source.  Timestamps ([Date.now()], an integral
      number of milliseconds), hit points and slots are integers far below
      2^53, where double arithmetic is exact; they are kept in [Z] and [nat].
    - A handler runs to completion on the event loop; every [Date.now()] read
      while one handler runs is the [now] that handler is given.
    - A JavaScript object used as a dictionary ([room.players]) and the [Map]
      [rooms] are lists in key order (insertion order: the keys are UUIDs
      and room ids, never integer-like).  What a key that [room.players]
      does not own finds on [Object.prototype] is modelled beside them.
    - The fields of a request body are JSON values; [playerId] is kept as the
      value it is, since the code stores it as [ownerId] unconverted.  The
      [roomId] and [playerId] of a query string are strings; a missing
      [playerId] reads as the key ["null"], and a request without [roomId]
      finds no room and is answered 404 with no effect.  A request the
      handler answers 500 before it has changed anything (a body that is
      JSON [null], a conversion that throws) has no effect either.
    - [Math.cos], [Math.sin], the string-to-number and the number-to-string
      conversions are left to the engine by ECMAScript; the development is
      parametric in them. *)

From Stdlib Require Import ZArith List String Ascii Bool Lia Floats DecimalString DecimalPos DecimalZ.
Import ListNotations.
Local Open Scope Z_scope.
Set Warnings "-inexact-float".

(** ** Constants *)

Definition GRAVITY : float := 900%float.
Definition PLAYER_RADIUS : float := 28%float.
Definition PROJECTILE_RADIUS : float := 8%float.
Definition PROJECTILE_LIFETIME_MS : Z := 6000.
Definition ARENA_WIDTH : float := 1000%float.
Definition ARENA_HEIGHT : float := 560%float.
Definition HIT_COOLDOWN_MS : Z := 900.
Definition FIRE_COOLDOWN_MS : Z := 1500.
Definition START_HP : Z := 5.

(** [Math.PI], the double nearest to pi. *)
Definition Math_PI : float := 0x1.921fb54442d18p+1%float.

(** ** JavaScript dictionaries in key order

    Every entry of [room.players] is stored under its own [id]
    ([room.players[playerId] = { id: playerId, ... }]) and every room of
    [rooms] under its own ([rooms.set(id, makeRoom(id))]), so a dictionary is
    the list of its values in key order, looked up by the value's id. *)

Section Dict.
Context {V : Type} (key : V -> string).

Fixpoint dict_get (k : string) (d : list V) : option V :=
  match d with
  | [] => None
  | v :: rest => if String.eqb k (key v) then Some v else dict_get k rest
  end.

(** [d[key v] = v]: an existing key keeps its place, a new key goes last. *)
Fixpoint dict_set (v : V) (d : list V) : list V :=
  match d with
  | [] => [v]
  | v' :: rest =>
      if String.eqb (key v) (key v') then v :: rest else v' :: dict_set v rest
  end.

Definition dict_keys (d : list V) : list string := map key d.
End Dict.


(** ** JSON values

    A field of a parsed request body.  An object or array carries the string
    its [ToPrimitive] yields, or nothing when [ToPrimitive] throws a
    [TypeError] (it owns a [toString], which parsed JSON cannot make
    callable). *)
Inductive jsval :=
| JUndefined
| JNull
| JBool (b : bool)
| JNumber (f : float)
| JString (s : string)
| JObject (prim : option string).

(** What ECMAScript leaves to the engine. *)
Class Engine := {
  Math_cos : float -> float;
  Math_sin : float -> float;
  StringToNumber : string -> float;
  NumberToString : float -> string
}.

(** [ToBoolean] *)
Definition truthy (v : jsval) : bool :=
  match v with
  | JUndefined | JNull => false
  | JBool b => b
  | JNumber f => negb (is_nan f || is_zero f)
  | JString s => match s with EmptyString => false | String _ _ => true end
  | JObject _ => true
  end.

(** ** Data model *)

Module Player.
Record t := mk {
  id : string;
  slot : nat;
  hp : Z;
  cooldownUntil : Z;
  x : float;
  y : float;
  color : string;
  facing : Z;
  lastSeenAt : Z
}.

Definition set_hp (v : Z) (p : t) : t :=
  mk (id p) (slot p) v (cooldownUntil p) (x p) (y p) (color p) (facing p) (lastSeenAt p).
Definition set_cooldownUntil (v : Z) (p : t) : t :=
  mk (id p) (slot p) (hp p) v (x p) (y p) (color p) (facing p) (lastSeenAt p).
Definition set_lastSeenAt (v : Z) (p : t) : t :=
  mk (id p) (slot p) (hp p) (cooldownUntil p) (x p) (y p) (color p) (facing p) v.
End Player.

Module Projectile.
(** [ownerId] is the [playerId] of the request as it came; [x] is
    [undefined] when the shooter had no [x]. *)
Record t := mk {
  id : string;
  ownerId : jsval;
  x : option float;
  y : float;
  vx : float;
  vy : float;
  bornAt : Z
}.

(** [ToNumber] of [x], as arithmetic and comparisons read it. *)
Definition xnum (p : t) : float :=
  match x p with Some f => f | None => nan end.
End Projectile.

Module Room.
Record t := mk {
  id : string;
  players : list Player.t;
  projectiles : list Projectile.t;
  lastHitAt : Z;
  started : bool;
  winner : option jsval
}.

Definition set_players (v : list Player.t) (r : t) : t :=
  mk (id r) v (projectiles r) (lastHitAt r) (started r) (winner r).
Definition set_projectiles (v : list Projectile.t) (r : t) : t :=
  mk (id r) (players r) v (lastHitAt r) (started r) (winner r).
Definition set_lastHitAt (v : Z) (r : t) : t :=
  mk (id r) (players r) (projectiles r) v (started r) (winner r).
Definition set_started (v : bool) (r : t) : t :=
  mk (id r) (players r) (projectiles r) (lastHitAt r) v (winner r).
Definition set_winner (v : option jsval) (r : t) : t :=
  mk (id r) (players r) (projectiles r) (lastHitAt r) (started r) v.
End Room.

(** The registry [rooms], a [Map] from room id to room. *)
Definition Rooms := list Room.t.

(** [rooms.get(roomId)] for a body field: the keys are strings, and [Map]
    compares by [SameValueZero]. *)
Definition rooms_lookup (roomId : jsval) (rooms : Rooms) : option Room.t :=
  match roomId with
  | JString s => dict_get Room.id s rooms
  | _ => None
  end.

Definition rooms_get := dict_get Room.id.
Definition rooms_set := dict_set Room.id.
Definition players_get := dict_get Player.id.
Definition players_set := dict_set Player.id.

(** Decimal rendering of an integer inside a template literal. *)
Definition Z_to_string (z : Z) : string := NilZero.string_of_int (Z.to_int z).


(** ** Room and session construction *)

Definition makeRoom (id : string) : Room.t :=
  Room.mk id [] [] 0 false None.

(** [{ id, ...playerStartState(slot) }]: the start state, under the [id] its
    callers spread it into; [now] is its [Date.now()]. *)
Definition playerStartState (id : string) (slot : nat) (now : Z) : Player.t :=
  let left := Nat.eqb slot 0 in
  Player.mk id slot START_HP 0
    (if left then 120%float else (ARENA_WIDTH - 120)%float)
    (ARENA_HEIGHT - 80)%float
    (if left then "#4c9dff"%string else "#ff5b8a"%string)
    (if left then 1 else -1)
    now.

(** [!room.winner] *)
Definition no_winner (r : Room.t) : bool :=
  match Room.winner r with None => true | Some w => negb (truthy w) end.

(** [Object.keys(room.players).length] *)
Definition occupants (r : Room.t) : nat := List.length (Room.players r).

Definition joinable (r : Room.t) : bool :=
  Nat.ltb (occupants r) 2 && no_winner r.

(** The id of a fresh room; [rnd] is [Math.floor(Math.random() * 1000)]. *)
Definition freshRoomId (now rnd : Z) : string :=
  ("room-" ++ Z_to_string now ++ "-" ++ Z_to_string rnd)%string.

(** Returns the room and the registry after the call. *)
Definition findOrCreateRoom (now rnd : Z) (rooms : Rooms) : Room.t * Rooms :=
  match find joinable rooms with
  | Some room => (room, rooms)
  | None =>
      let room := makeRoom (freshRoomId now rnd) in
      (room, rooms_set room rooms)
  end.

(** [Math.min] and [Math.max] on two doubles: NaN is contagious and -0 is
    below +0. *)
Definition Math_min (a b : float) : float :=
  if is_nan a || is_nan b then nan
  else if (b <? a)%float then b
  else if (a <? b)%float then a
  else if get_sign a then a else b.

Definition Math_max (a b : float) : float :=
  if is_nan a || is_nan b then nan
  else if (a <? b)%float then b
  else if (b <? a)%float then a
  else if get_sign a then b else a.

Definition clamp (v min max : float) : float :=
  Math_max min (Math_min max v).

Definition resetRoom (now : Z) (room : Room.t) : Room.t :=
  Room.mk (Room.id room)
    (map (fun p => playerStartState (Player.id p) (Player.slot p) now) (Room.players room))
    [] 0 (Room.started room) None.

(** ** What [room.players] inherits

    [room.players] is a plain object: a key it does not own is looked up on
    [Object.prototype].  There ["__proto__"] reads [Object.prototype]
    itself, the names of its methods read those functions, and any other key
    reads what the handlers have stored on [Object.prototype] before.  The
    handlers write [cooldownUntil] and [lastSeenAt] on what they have looked
    up, so these properties of [Object.prototype] and of its methods are
    state of the process, shared by all rooms. *)

Record Inherited := mkInherited {
  protoCooldownUntil : option Z;          (* Object.prototype.cooldownUntil *)
  protoLastSeenAt : option Z;             (* Object.prototype.lastSeenAt *)
  fnCooldownUntil : list (string * Z);    (* cooldownUntil of its methods, by name *)
  fnLastSeenAt : list (string * Z)        (* lastSeenAt of its methods, by name *)
}.

(** Nothing is stored when the process starts. *)
Definition noInherited : Inherited := mkInherited None None [] [].

(** The methods of [Object.prototype]. *)
Definition prototypeMethods : list string :=
  ["constructor"; "__defineGetter__"; "__defineSetter__"; "hasOwnProperty";
   "__lookupGetter__"; "__lookupSetter__"; "isPrototypeOf"; "propertyIsEnumerable";
   "toString"; "valueOf"; "toLocaleString"]%string.

(** The latest value written under a name. *)
Fixpoint assoc_get (k : string) (l : list (string * Z)) : option Z :=
  match l with
  | [] => None
  | (k', v) :: rest => if String.eqb k k' then Some v else assoc_get k rest
  end.

(** What [room.players[key]] evaluates to when it is not [undefined]. *)
Inductive playerRef :=
| Session (p : Player.t)            (* an entry of room.players *)
| ObjectPrototype                   (* Object.prototype *)
| PrototypeMethod (name : string)   (* Object.prototype[name] *)
| InheritedNumber (n : Z).          (* a number stored on Object.prototype *)

(** [room.players[key]] *)
Definition lookupPlayer (inh : Inherited) (players : list Player.t) (key : string)
    : option playerRef :=
  match players_get key players with
  | Some p => Some (Session p)
  | None =>
      if String.eqb key "__proto__" then Some ObjectPrototype
      else if existsb (String.eqb key) prototypeMethods then Some (PrototypeMethod key)
      else if String.eqb key "cooldownUntil"
      then option_map InheritedNumber (protoCooldownUntil inh)
      else if String.eqb key "lastSeenAt"
      then option_map InheritedNumber (protoLastSeenAt inh)
      else None
  end.

(** [!player] is false: every object is truthy, and a number unless it is 0. *)
Definition refTruthy (r : playerRef) : bool :=
  match r with
  | InheritedNumber n => negb (n =? 0)
  | _ => true
  end.

(** [player.cooldownUntil]: the session's own, else the method's own, else
    what [Object.prototype] holds; [None] is [undefined]. *)
Definition refCooldownUntil (inh : Inherited) (r : playerRef) : option Z :=
  match r with
  | Session p => Some (Player.cooldownUntil p)
  | PrototypeMethod name =>
      match assoc_get name (fnCooldownUntil inh) with
      | Some c => Some c
      | None => protoCooldownUntil inh
      end
  | ObjectPrototype | InheritedNumber _ => protoCooldownUntil inh
  end.

(** [player.cooldownUntil = v]: on a session it rewrites the entry of the
    room, on [Object.prototype] or one of its methods the inherited state,
    and on a number it does nothing (the script is not in strict mode). *)
Definition setCooldownUntil (v : Z) (player : playerRef) (inh : Inherited) (room : Room.t)
    : Inherited * Room.t :=
  match player with
  | Session p =>
      (inh, Room.set_players (players_set (Player.set_cooldownUntil v p) (Room.players room)) room)
  | ObjectPrototype =>
      (mkInherited (Some v) (protoLastSeenAt inh) (fnCooldownUntil inh) (fnLastSeenAt inh), room)
  | PrototypeMethod name =>
      (mkInherited (protoCooldownUntil inh) (protoLastSeenAt inh)
         ((name, v) :: fnCooldownUntil inh) (fnLastSeenAt inh), room)
  | InheritedNumber _ => (inh, room)
  end.

(** [player.lastSeenAt = v] *)
Definition setLastSeenAt (v : Z) (player : playerRef) (inh : Inherited) (room : Room.t)
    : Inherited * Room.t :=
  match player with
  | Session p =>
      (inh, Room.set_players (players_set (Player.set_lastSeenAt v p) (Room.players room)) room)
  | ObjectPrototype =>
      (mkInherited (protoCooldownUntil inh) (Some v) (fnCooldownUntil inh) (fnLastSeenAt inh), room)
  | PrototypeMethod name =>
      (mkInherited (protoCooldownUntil inh) (protoLastSeenAt inh)
         (fnCooldownUntil inh) ((name, v) :: fnLastSeenAt inh), room)
  | InheritedNumber _ => (inh, room)
  end.

(** The state of the process: what [Object.prototype] has been given, and
    the registry. *)
Definition World : Type := (Inherited * Rooms)%type.

(** ** Responses *)

Inductive response :=
| Joined (roomId playerId : string) (slot : nat)   (* 200 {roomId, playerId, slot} *)
| View (room : Room.t)                               (* 200 getRoomView(room) *)
| StateNotFound                                      (* 404 {error} *)
| FireRejected                                       (* 400 {ok: false} *)
| FireCooling (cooldownUntil : Z)                    (* 200 {ok: false, cooldownUntil} *)
| FireOk                                             (* 200 {ok: true} *)
| RestartNotFound                                    (* 404 {ok: false} *)
| RestartOk                                          (* 200 {ok: true} *)
| InternalError.                                     (* 500 {error, detail} *)

(** ** The request handlers *)

(** [POST /api/join]; [uuid] is [crypto.randomUUID()]. *)
Definition handleJoin (now rnd : Z) (uuid : string) (rooms : Rooms) : Rooms * response :=
  let '(room, rooms) := findOrCreateRoom now rnd rooms in
  let playerId := uuid in
  let slot := occupants room in
  let room := Room.set_players (players_set (playerStartState playerId slot now) (Room.players room)) room in
  let room := Room.set_started (Nat.eqb (occupants room) 2) room in
  (rooms_set room rooms, Joined (Room.id room) playerId slot).

(** [GET /api/state] *)
Definition handleState (now : Z) (roomId playerId : string) (inh : Inherited) (rooms : Rooms)
    : World * response :=
  match rooms_get roomId rooms with
  | None => ((inh, rooms), StateNotFound)
  | Some room =>
      match lookupPlayer inh (Room.players room) playerId with
      | None => ((inh, rooms), StateNotFound)
      | Some player =>
          if negb (refTruthy player) then ((inh, rooms), StateNotFound)
          else
            let '(inh, room) := setLastSeenAt now player inh room in
            ((inh, rooms_set room rooms), View room)
      end
  end.

Section Fire.
Context {E : Engine}.

(** [Number(v)]; [None] when it throws. *)
Definition Number (v : jsval) : option float :=
  match v with
  | JUndefined => Some nan
  | JNull => Some 0%float
  | JBool b => Some (if b then 1%float else 0%float)
  | JNumber f => Some f
  | JString s => Some (StringToNumber s)
  | JObject prim => option_map StringToNumber prim
  end.

(** The property key of a value, which is also its text in a template
    literal; [None] when the conversion throws. *)
Definition ToPropertyKey (v : jsval) : option string :=
  match v with
  | JUndefined => Some "undefined"%string
  | JNull => Some "null"%string
  | JBool b => Some (if b then "true" else "false")%string
  | JNumber f =>
      Some (if is_nan f then "NaN"%string
            else if is_zero f then "0"%string
            else NumberToString f)
  | JString s => Some s
  | JObject prim => prim
  end.

(** [f || 0]: NaN, +0 and -0 are the falsy numbers. *)
Definition orZero (f : float) : float :=
  if is_nan f || is_zero f then 0%float else f.

Definition ANGLE_MIN : float := (- Math_PI + 0.15)%float.
Definition ANGLE_MAX : float := (- 0.15)%float.

(** [clamp(Number(power) || 0, 150, 900)], from the value of
    [Number(power)]. *)
Definition clampedPower (power : float) : float :=
  clamp (orZero power) 150 900.
Definition clampedAngle (angle : float) : float :=
  clamp (orZero angle) ANGLE_MIN ANGLE_MAX.

(** [player.facing === 1 ? clampedAngle : Math.PI - clampedAngle]; only a
    session has a [facing]. *)
Definition baseAngle (player : playerRef) (angle : float) : float :=
  match player with
  | Session p =>
      if Player.facing p =? 1 then clampedAngle angle
      else (Math_PI - clampedAngle angle)%float
  | _ => (Math_PI - clampedAngle angle)%float
  end.

(** The projectile an accepted fire request pushes; [key] is the text of
    [playerId], [power] and [angle] are the values of [Number(...)].  Only a
    session has an [x] and a [y]: elsewhere [player.x] is [undefined] and
    [player.y - PLAYER_RADIUS] is NaN. *)
Definition spawnProjectile (now : Z) (player : playerRef) (playerId : jsval) (key : string)
    (power angle : float) : Projectile.t :=
  Projectile.mk
    (key ++ "-" ++ Z_to_string now)%string
    playerId
    (match player with Session p => Some (Player.x p) | _ => None end)
    (match player with Session p => (Player.y p - PLAYER_RADIUS)%float | _ => nan end)
    (Math_cos (baseAngle player angle) * clampedPower power)%float
    (Math_sin (baseAngle player angle) * clampedPower power)%float
    now.

(** [player.cooldownUntil > now]: the deadline when the comparison holds;
    [undefined] compares false. *)
Definition cooling (now : Z) (cooldownUntil : option Z) : option Z :=
  match cooldownUntil with
  | Some c => if c >? now then Some c else None
  | None => None
  end.

(** [POST /api/fire] *)
Definition handleFire (now : Z) (roomId playerId power angle : jsval)
    (inh : Inherited) (rooms : Rooms) : World * response :=
  match rooms_lookup roomId rooms with
  | None => ((inh, rooms), FireRejected)
  | Some room =>
      match ToPropertyKey playerId with
      | None => ((inh, rooms), InternalError)
      | Some key =>
          match lookupPlayer inh (Room.players room) key with
          | None => ((inh, rooms), FireRejected)
          | Some player =>
              if negb (refTruthy player) || negb (no_winner room)
              then ((inh, rooms), FireRejected)
              else
                match cooling now (refCooldownUntil inh player) with
                | Some cooldownUntil => ((inh, rooms), FireCooling cooldownUntil)
                | None =>
                    match Number power with
                    | None => ((inh, rooms), InternalError)
                    | Some power =>
                        match Number angle with
                        | None => ((inh, rooms), InternalError)
                        | Some angle =>
                            let room := Room.set_projectiles
                                          (Room.projectiles room
                                           ++ [spawnProjectile now player playerId key power angle])
                                          room in
                            let '(inh, room) :=
                              setCooldownUntil (now + FIRE_COOLDOWN_MS) player inh room in
                            ((inh, rooms_set room rooms), FireOk)
                        end
                    end
                end
          end
      end
  end.
End Fire.

(** [POST /api/restart] *)
Definition handleRestart (now : Z) (roomId : jsval) (rooms : Rooms) : Rooms * response :=
  match rooms_lookup roomId rooms with
  | None => (rooms, RestartNotFound)
  | Some room =>
      let room := resetRoom now room in
      let room := Room.set_started (Nat.eqb (occupants room) 2) room in
      (rooms_set room rooms, RestartOk)
  end.

(** ** The scheduler tick ([setInterval] callback) *)

(** [now - p.lastSeenAt > 30000] *)
Definition stale (now : Z) (p : Player.t) : bool :=
  now - Player.lastSeenAt p >? 30000.

(** The liveness loop: every stale session is deleted. *)
Definition sweep (now : Z) (players : list Player.t) : list Player.t :=
  filter (fun p => negb (stale now p)) players.

(** [ids.forEach((id, index) => ...)]: each session is rebuilt from its index
    in key order, keeping its [hp] and [lastSeenAt]. *)
Fixpoint rebuildFrom (now : Z) (index : nat) (players : list Player.t) : list Player.t :=
  match players with
  | [] => []
  | p :: rest =>
      Player.set_lastSeenAt (Player.lastSeenAt p)
        (Player.set_hp (Player.hp p) (playerStartState (Player.id p) index now))
      :: rebuildFrom now (S index) rest
  end.

Definition rebuild (now : Z) (players : list Player.t) : list Player.t :=
  rebuildFrom now 0 players.

Definition dt : float := (1 / 60)%float.

(** Gravity on the velocity, then the position from the new velocity; an
    [undefined] [x] becomes NaN. *)
Definition integrate (proj : Projectile.t) : Projectile.t :=
  let vy := (Projectile.vy proj + GRAVITY * dt)%float in
  let x := (Projectile.xnum proj + Projectile.vx proj * dt)%float in
  let y := (Projectile.y proj + vy * dt)%float in
  Projectile.mk (Projectile.id proj) (Projectile.ownerId proj) (Some x) y
    (Projectile.vx proj) vy (Projectile.bornAt proj).

Definition expired (now : Z) (proj : Projectile.t) : bool :=
  now - Projectile.bornAt proj >? PROJECTILE_LIFETIME_MS.

Definition outOfBounds (proj : Projectile.t) : bool :=
  (Projectile.xnum proj <? -100)%float
  || (ARENA_WIDTH + 100 <? Projectile.xnum proj)%float
  || (ARENA_HEIGHT + 100 <? Projectile.y proj)%float.

Definition collides (target : Player.t) (proj : Projectile.t) : bool :=
  let dx := (Player.x target - Projectile.xnum proj)%float in
  let dy := (Player.y target - PLAYER_RADIUS / 2 - Projectile.y proj)%float in
  let radius := (PLAYER_RADIUS + PROJECTILE_RADIUS)%float in
  (dx * dx + dy * dy <=? radius * radius)%float.

(** [target.id === proj.ownerId]: strict equality of a string with the
    stored value holds only for that very string. *)
Definition ownedBy (target : Player.t) (proj : Projectile.t) : bool :=
  match Projectile.ownerId proj with
  | JString s => String.eqb (Player.id target) s
  | _ => false
  end.

(** The [for (const target of Object.values(room.players))] loop: [Some] with
    the decremented target and the sessions after the hit, [None] when the
    loop runs out. *)
Fixpoint hitScan (now lastHitAt : Z) (proj : Projectile.t) (targets : list Player.t)
    : option (Player.t * list Player.t) :=
  match targets with
  | [] => None
  | target :: rest =>
      if ownedBy target proj || (Player.hp target <=? 0)
      then option_map (fun '(t, ps) => (t, target :: ps)) (hitScan now lastHitAt proj rest)
      else if collides target proj && (now - lastHitAt >? HIT_COOLDOWN_MS)
      then let target := Player.set_hp (Player.hp target - 1) target in
           Some (target, target :: rest)
      else option_map (fun '(t, ps) => (t, target :: ps)) (hitScan now lastHitAt proj rest)
  end.

(** The [filter] callback: the room after it and the projectile when it is
    kept. *)
Definition filterCallback (now : Z) (room : Room.t) (proj : Projectile.t)
    : Room.t * option Projectile.t :=
  let proj := integrate proj in
  if expired now proj then (room, None)
  else if outOfBounds proj then (room, None)
  else
    match hitScan now (Room.lastHitAt room) proj (Room.players room) with
    | Some (target, players) =>
        let room := Room.set_players players room in
        let room := Room.set_lastHitAt now room in
        let room := if Player.hp target <=? 0
                    then Room.set_winner (Some (Projectile.ownerId proj)) room
                    else room in
        (room, None)
    | None => (room, Some proj)
    end.

Fixpoint filterProjectiles (now : Z) (room : Room.t) (projs : list Projectile.t)
    : Room.t * list Projectile.t :=
  match projs with
  | [] => (room, [])
  | proj :: rest =>
      let '(room, kept) := filterCallback now room proj in
      let '(room, keptRest) := filterProjectiles now room rest in
      (room, match kept with Some q => q :: keptRest | None => keptRest end)
  end.

(** The part of the loop body before the physics: [None] when the room is
    deleted from the registry. *)
Definition prepareRoom (now : Z) (room : Room.t) : option Room.t :=
  let room := Room.set_players (sweep now (Room.players room)) room in
  let ids := dict_keys Player.id (Room.players room) in
  if Nat.eqb (List.length ids) 0 then None
  else
    let room := Room.set_players (rebuild now (Room.players room)) room in
    Some (Room.set_started (Nat.eqb (List.length ids) 2) room).

(** The physics and collision step of one room. *)
Definition physics (now : Z) (room : Room.t) : Room.t :=
  if negb (Room.started room) || negb (no_winner room) then room
  else
    let '(room, kept) := filterProjectiles now room (Room.projectiles room) in
    Room.set_projectiles kept room.

Definition tickRoom (now : Z) (room : Room.t) : option Room.t :=
  option_map (physics now) (prepareRoom now room).

(** One tick over the registry; [rooms.delete(room.id)] drops the room being
    visited. *)
Fixpoint tick (now : Z) (rooms : Rooms) : Rooms :=
  match rooms with
  | [] => []
  | room :: rest =>
      match tickRoom now room with
      | None => tick now rest
      | Some room => room :: tick now rest
      end
  end.

(** ** The server as a transition system *)

Inductive event :=
| Join (now rnd : Z) (uuid : string)
| GetState (now : Z) (roomId playerId : string)
| Fire (now : Z) (roomId playerId power angle : jsval)
| Restart (now : Z) (roomId : jsval)
| Tick (now : Z).

(** A lower-case hexadecimal digit. *)
Definition isHex (c : ascii) : bool :=
  let n := nat_of_ascii c in
  ((48 <=? n) && (n <=? 57) || (97 <=? n) && (n <=? 102))%nat.

(** The text of a version-4 UUID from position [i] on:
    [xxxxxxxx-xxxx-4xxx-yxxx-xxxxxxxxxxxx] with [y] one of 8, 9, a, b. *)
Fixpoint uuidFrom (i : nat) (s : string) : bool :=
  match s with
  | EmptyString => Nat.eqb i 36
  | String c rest =>
      (if Nat.eqb i 8 || Nat.eqb i 13 || Nat.eqb i 18 || Nat.eqb i 23 then Ascii.eqb c "-"
       else if Nat.eqb i 14 then Ascii.eqb c "4"
       else if Nat.eqb i 19 then existsb (Ascii.eqb c) ["8"; "9"; "a"; "b"]%char
       else isHex c)
      && uuidFrom (S i) rest
  end.

(** What [crypto.randomUUID()] returns. *)
Definition isUUID (s : string) : bool := uuidFrom 0 s.

(** An event the process can see: the id a join draws is a UUID; what a
    client sends is arbitrary. *)
Definition genuine (ev : event) : Prop :=
  match ev with
  | Join _ _ uuid => isUUID uuid = true
  | _ => True
  end.

Section Server.
Context {E : Engine}.

Definition step (w : World) (ev : event) : World :=
  let '(inh, rooms) := w in
  match ev with
  | Join now rnd uuid => (inh, fst (handleJoin now rnd uuid rooms))
  | GetState now roomId playerId => fst (handleState now roomId playerId inh rooms)
  | Fire now roomId playerId power angle =>
      fst (handleFire now roomId playerId power angle inh rooms)
  | Restart now roomId => (inh, fst (handleRestart now roomId rooms))
  | Tick now => (inh, tick now rooms)
  end.

Definition run (evs : list event) (w : World) : World :=
  fold_left step evs w.

(** When the process starts the registry is empty and [Object.prototype] is
    as the engine made it. *)
Definition start : World := (noInherited, []).

(** The registry after a run from the start. *)
Definition registry (evs : list event) : Rooms := snd (run evs start).

Definition reachable (rooms : Rooms) : Prop :=
  exists evs, Forall genuine evs /\ registry evs = rooms.
End Server.

(** A reference engine for running scenarios: cosine and sine by their
    Taylor series; the scenarios convert no string to a number and no number
    to a string. *)
Fixpoint series (n : nat) (k : float) (term x2 acc : float) : float :=
  match n with
  | O => acc
  | S n =>
      let term := (- term * x2 / ((k + 1) * (k + 2)))%float in
      series n (k + 2)%float term x2 (acc + term)%float
  end.

Definition cos_series (a : float) : float := series 40 0 1 (a * a) 1.
Definition sin_series (a : float) : float := series 40 1 a (a * a) a.

Definition refEngine : Engine :=
  {| Math_cos := cos_series; Math_sin := sin_series;
     StringToNumber := fun _ => nan; NumberToString := fun _ => "NaN"%string |}.

(** ** Specification-level notions and scenarios *)

(** Session ids as [crypto.randomUUID()] can draw them. *)
Definition alice : string := "a11ce000-0000-4000-8000-00000000000a".
Definition bob : string := "b0b00000-0000-4000-9000-00000000000b".
Definition carol : string := "ca401000-0000-4000-a000-00000000000c".
Definition dave : string := "da7e0000-0000-4000-b000-00000000000d".

Definition fireScenario : Rooms :=
  @registry refEngine [Join 1000 7 alice; Join 1000 8 bob].



(** The hit test against the hurtbox centre [(x, y - 14)] with radius
    [28 + 8]. *)
Definition spec_collides (target : Player.t) (q : Projectile.t) : bool :=
  let dx := (Player.x target - Projectile.xnum q)%float in
  let dy := (Player.y target - 14 - Projectile.y q)%float in
  (dx * dx + dy * dy <=? (28 + 8) * (28 + 8))%float.



(** Two sessions that differ at most in [hp]. *)
Definition same_but_hp (p p' : Player.t) : Prop :=
  p' = Player.set_hp (Player.hp p') p.

Definition hpTotal (players : list Player.t) : Z :=
  fold_right (fun p acc => Player.hp p + acc) 0 players.

(** Every session with [hp <= 0] is covered by a winner. *)
Definition losers_have_winner (room : Room.t) : Prop :=
  forall p, In p (Room.players room) -> Player.hp p <= 0 -> Room.winner room <> None.

Definition tickDecrements (now : Z) (room : Room.t) : Z :=
  match prepareRoom now room with
  | None => 0
  | Some r => hpTotal (Room.players r) - hpTotal (Room.players (physics now r))
  end.

(** The hp decrements of the room registered under [roomId] over a run of
    the server that fall at a tick time in the window [[w, w + 900]],
    whatever requests are served between the ticks. *)
Fixpoint decrementsInRun {E : Engine} (w : Z) (roomId : string) (evs : list event)
    (world : World) : Z :=
  match evs with
  | [] => 0
  | ev :: rest =>
      match ev, rooms_get roomId (snd world) with
      | Tick now, Some room =>
          if (w <=? now) && (now <=? w + HIT_COOLDOWN_MS)
          then tickDecrements now room else 0
      | _, _ => 0
      end
      + decrementsInRun w roomId rest (step world ev)
  end.

(** An event that leaves the room under [roomId] its hit clock: any but a
    restart of that room, and a join that opens a fresh room under that very
    id. *)
Definition undisturbed (roomId : string) (ev : event) : bool :=
  match ev with
  | Restart _ (JString s) => negb (String.eqb s roomId)
  | Join now rnd _ => negb (String.eqb (freshRoomId now rnd) roomId)
  | _ => true
  end.

(** The session the tick writes for the [index]-th surviving key. *)
Definition respawned (index : nat) (p : Player.t) : Player.t :=
  Player.mk (Player.id p) index (Player.hp p) 0
    (if Nat.eqb index 0 then 120 else 880)%float 480%float
    (if Nat.eqb index 0 then "#4c9dff" else "#ff5b8a")%string
    (if Nat.eqb index 0 then 1 else -1)
    (Player.lastSeenAt p).

Definition room_ok (room : Room.t) : Prop :=
  Room.started room = Nat.eqb (occupants room) 2 /\ losers_have_winner room.

(** A set winner comes with a session at [hp <= 0] in the same room state. *)
Definition winner_has_loser (room : Room.t) : Prop :=
  Room.winner room <> None ->
  exists p, In p (Room.players room) /\ Player.hp p <= 0.

(** The duel used as a running scenario: Alice and Bob join, Alice lands
    five shots one second apart, then only Alice keeps polling and Bob is
    swept. *)
Definition volley (t : Z) : list event :=
  Fire t (JString "room-1000-7") (JString alice) (JNumber 900) (JNumber (-0.4767))
  :: map (fun k => Tick (t + 17 * Z.of_nat k)) (seq 1 56).

Definition duel : list event :=
  [Join 1000 7 alice; Join 1000 8 bob]
  ++ flat_map volley [2000; 3000; 4000; 5000; 6000].

Definition duelThenSweep : list event :=
  duel ++ [GetState 30000 "room-1000-7" alice; Tick 31001].

(** A rematch: Alice lands a shot, the room is restarted a millisecond
    later, and she lands another one; the ticks are 16 ms apart. *)
Definition shot (t : Z) : list event :=
  Fire t (JString "room-1000-7") (JString alice) (JNumber 900) (JNumber (-0.4767))
  :: map (fun k => Tick (t + 16 * Z.of_nat k)) (seq 1 56).

Definition rematch : list event :=
  [Join 1000 7 alice; Join 1000 8 bob]
  ++ shot 2000 ++ [Restart 2881 (JString "room-1000-7")] ++ shot 2881.

(** The room the duel ends in. *)
Definition duelRoom : Room.t :=
  Room.mk "room-1000-7"
    [respawned 0 (playerStartState alice 0 1000);
     Player.set_hp 0 (respawned 1 (playerStartState bob 1 1000))]
    [] 6935 true (Some (JString alice)).

(** ** The client's side of a shot ([mouseup] handler and [canFire])

    The drag gives [rawPower = Math.hypot(dx, dy) * 5] and
    [angle = Math.atan2(...)]; the client clamps both before it posts them. *)

Definition clientPower (rawPower : float) : float :=
  Math_max 150 (Math_min 900 rawPower).

Definition clientAngle (angle : float) : float :=
  Math_min (- 0.15) (Math_max (- Math_PI + 0.15) angle).

(** A number through [JSON.stringify] and [JSON.parse]: NaN and the
    infinities become [null], -0 becomes 0, every other double comes back as
    it was. *)
Definition JSON_number (f : float) : jsval :=
  if is_nan f || is_infinity f then JNull
  else if is_zero f then JNumber 0
  else JNumber f.

(** [canFire()] on the snapshot [roomState] for the session [me] (room id
    and player id of the join response). *)
Definition canFire (roomState : option Room.t) (me : option (string * string)) (now : Z)
    : bool :=
  match roomState, me with
  | Some roomState, Some (_, playerId) =>
      if negb (Room.started roomState) || negb (no_winner roomState) then false
      else
        match players_get playerId (Room.players roomState) with
        | Some self => Player.cooldownUntil self <=? now
        | None => false
        end
  | _, _ => false
  end.

(** ** Well-formed sessions and rooms *)

(** A session with hp in range that sits at its slot's spawn point. *)
Definition session_ok (p : Player.t) : Prop :=
  0 <= Player.hp p <= 5 /\
  (Player.slot p <= 1)%nat /\
  Player.x p = (if Nat.eqb (Player.slot p) 0 then 120 else 880)%float /\
  Player.y p = 480%float /\
  Player.facing p = (if Nat.eqb (Player.slot p) 0 then 1 else -1) /\
  Player.color p = (if Nat.eqb (Player.slot p) 0 then "#4c9dff" else "#ff5b8a")%string.

Definition room_wf (room : Room.t) : Prop :=
  (occupants room <= 2)%nat /\ Forall session_ok (Room.players room).

(** Ids are keys: no two rooms, and no two sessions of a room, share one. *)
Definition keys_ok (rooms : Rooms) : Prop :=
  NoDup (dict_keys Room.id rooms) /\
  Forall (fun room => NoDup (dict_keys Player.id (Room.players room))) rooms.

(** Every session id is a UUID, and the owner of every projectile and the
    winner, when there is one, are truthy values. *)
Definition owners_ok (room : Room.t) : Prop :=
  Forall (fun p => isUUID (Player.id p) = true) (Room.players room) /\
  Forall (fun q => truthy (Projectile.ownerId q) = true) (Room.projectiles room) /\
  (forall w, Room.winner room = Some w -> truthy w = true).

(** No session at [hp <= 0] has the recorded winner as its id. *)
Definition winner_alive (room : Room.t) : Prop :=
  forall w p, Room.winner room = Some (JString w) -> In p (Room.players room) ->
              Player.hp p <= 0 -> Player.id p <> w.

(** Sessions pairwise with the same id and no more hp than before. *)
Definition not_healed (p p' : Player.t) : Prop :=
  Player.id p' = Player.id p /\ Player.hp p' <= Player.hp p.

(** What a request other than a join or a restart can do to a room: leave
    its sessions alone, or rewrite one of them under its id without a change
    to its hp, slot, place, facing or colour. *)
Definition touched (room room' : Room.t) : Prop :=
  Room.id room' = Room.id room /\
  Room.lastHitAt room' = Room.lastHitAt room /\
  Room.started room' = Room.started room /\
  Room.winner room' = Room.winner room /\
  (Room.players room' = Room.players room \/
   exists p p',
     players_get (Player.id p) (Room.players room) = Some p /\
     Room.players room' = players_set p' (Room.players room) /\
     Player.id p' = Player.id p /\ Player.hp p' = Player.hp p /\
     Player.slot p' = Player.slot p /\ Player.x p' = Player.x p /\
     Player.y p' = Player.y p /\ Player.facing p' = Player.facing p /\
     Player.color p' = Player.color p).

(** Whether a string contains the separator of a room id. *)
Fixpoint has_dash (s : string) : bool :=
  match s with
  | EmptyString => false
  | String c rest => Ascii.eqb c "-" || has_dash rest
  end.

(** * Properties *)

(** ** Dictionaries *)

Section DictFacts.
Context {V : Type} (key : V -> string).

Lemma dict_get_key k (d : list V) v : dict_get key k d = Some v -> key v = k.
Proof.
  induction d as [|v' d IH]; simpl; [discriminate|].
  destruct (String.eqb k (key v')) eqn:Hk; [|exact IH].
  intros [= <-]. symmetry. now apply String.eqb_eq.
Qed.

Lemma dict_get_In k (d : list V) v : dict_get key k d = Some v -> In v d.
Proof.
  induction d as [|v' d IH]; simpl; [discriminate|].
  destruct (String.eqb k (key v')); [intros [= <-]; now left | right; auto].
Qed.

Lemma dict_get_set v (d : list V) : dict_get key (key v) (dict_set key v d) = Some v.
Proof.
  induction d as [|v' d IH]; simpl.
  - now rewrite String.eqb_refl.
  - destruct (String.eqb (key v) (key v')) eqn:Hk; simpl.
    + now rewrite String.eqb_refl.
    + now rewrite Hk.
Qed.

Lemma dict_set_In v (d : list V) w :
  In w (dict_set key v d) -> w = v \/ In w d.
Proof.
  induction d as [|v' d IH]; simpl.
  - intros [<-|[]]; now left.
  - destruct (String.eqb (key v) (key v')); simpl.
    + intros [<-|H]; [now left | right; now right].
    + intros [<-|H]; [right; now left|]. destruct (IH H); [now left | right; now right].
Qed.

(** Overwriting an existing key keeps the number of entries. *)
Lemma dict_set_length_present v (d : list V) w :
  dict_get key (key v) d = Some w -> List.length (dict_set key v d) = List.length d.
Proof.
  induction d as [|v' d IH]; simpl; [discriminate|].
  destruct (String.eqb (key v) (key v')); simpl; [reflexivity|].
  intros H. now rewrite IH.
Qed.
End DictFacts.

(** ** The order of doubles *)

Lemma SFcompare_antisym x y :
  SpecFloat.SFcompare y x = option_map CompOpp (SpecFloat.SFcompare x y).
Proof.
  destruct x as [sx| sx| |sx mx ex], y as [sy| sy| |sy my ey]; simpl; try reflexivity;
    try (destruct sx; reflexivity); try (destruct sy; reflexivity);
    try (destruct sx, sy; reflexivity).
  destruct sx, sy; simpl; try reflexivity; rewrite (Z.compare_antisym ex ey);
    destruct (ex ?= ey); simpl; try reflexivity;
    rewrite Pos.compare_cont_antisym, ?CompOpp_involutive; reflexivity.
Qed.

Lemma SFcompare_refl x : x <> SpecFloat.S754_nan -> SpecFloat.SFcompare x x = Some Eq.
Proof.
  destruct x as [s| s| |s m e]; simpl; intros H; try reflexivity; try congruence.
  - now destruct s.
  - destruct s; rewrite Z.compare_refl; fold (Pos.compare m m); now rewrite Pos.compare_refl.
Qed.

Lemma SFcompare_total x y :
  x <> SpecFloat.S754_nan -> y <> SpecFloat.S754_nan ->
  exists c, SpecFloat.SFcompare x y = Some c.
Proof.
  destruct x, y; simpl; intros Hx Hy; try congruence; eauto.
Qed.

Lemma not_nan_SF x : is_nan x = false -> Prim2SF x <> SpecFloat.S754_nan.
Proof.
  unfold is_nan. rewrite eqb_spec. intros H Hn. rewrite Hn in H. discriminate.
Qed.

Lemma float_le_refl x : is_nan x = false -> (x <=? x)%float = true.
Proof.
  intros H. rewrite leb_spec. unfold SpecFloat.SFleb.
  now rewrite SFcompare_refl by now apply not_nan_SF.
Qed.

Lemma float_lt_le x y : (x <? y)%float = true -> (x <=? y)%float = true.
Proof.
  rewrite ltb_spec, leb_spec. unfold SpecFloat.SFltb, SpecFloat.SFleb.
  now destruct (SpecFloat.SFcompare _ _) as [[]|].
Qed.

Lemma float_nlt_le x y :
  is_nan x = false -> is_nan y = false -> (y <? x)%float = false -> (x <=? y)%float = true.
Proof.
  intros Hx Hy. rewrite ltb_spec, leb_spec. unfold SpecFloat.SFltb, SpecFloat.SFleb.
  rewrite (SFcompare_antisym (Prim2SF x) (Prim2SF y)).
  destruct (SFcompare_total _ _ (not_nan_SF _ Hx) (not_nan_SF _ Hy)) as [c ->].
  now destruct c.
Qed.

Lemma Math_min_cases a b :
  is_nan a = false -> is_nan b = false ->
  (Math_min a b = b /\ (b <=? a)%float = true) \/ (Math_min a b = a /\ (a <=? b)%float = true).
Proof.
  intros Ha Hb. unfold Math_min. rewrite Ha, Hb. simpl.
  destruct (b <? a)%float eqn:H1; [left; split; auto using float_lt_le|].
  destruct (a <? b)%float eqn:H2; [right; split; auto using float_lt_le|].
  destruct (get_sign a); [right | left]; split; auto using float_nlt_le.
Qed.

Lemma Math_max_cases a b :
  is_nan a = false -> is_nan b = false ->
  (Math_max a b = b /\ (a <=? b)%float = true) \/ (Math_max a b = a /\ (b <=? a)%float = true).
Proof.
  intros Ha Hb. unfold Math_max. rewrite Ha, Hb. simpl.
  destruct (a <? b)%float eqn:H1; [left; split; auto using float_lt_le|].
  destruct (b <? a)%float eqn:H2; [right; split; auto using float_lt_le|].
  destruct (get_sign a); [left | right]; split; auto using float_nlt_le.
Qed.

(** [clamp] lands in the interval whenever its argument is a number. *)
Lemma clamp_bounds v lo hi :
  is_nan v = false -> is_nan lo = false -> is_nan hi = false ->
  (lo <=? hi)%float = true ->
  (lo <=? clamp v lo hi)%float = true /\ (clamp v lo hi <=? hi)%float = true.
Proof.
  intros Hv Hlo Hhi Hle. unfold clamp.
  destruct (Math_min_cases hi v Hhi Hv) as [[-> Hm]|[-> Hm]].
  - destruct (Math_max_cases lo v Hlo Hv) as [[-> Hx]|[-> Hx]]; auto using float_le_refl.
  - destruct (Math_max_cases lo hi Hlo Hhi) as [[-> Hx]|[-> Hx]]; auto using float_le_refl.
Qed.

Lemma orZero_not_nan f : is_nan (orZero f) = false.
Proof.
  unfold orZero. destruct (is_nan f) eqn:H; simpl; [reflexivity|].
  destruct (is_zero f); [reflexivity | exact H].
Qed.

Lemma orZero_nan f : is_nan f = true -> orZero f = 0%float.
Proof. unfold orZero. now intros ->. Qed.

(** ** More on the order of doubles *)

Lemma Prim2SF_zero : Prim2SF zero = SpecFloat.S754_zero false.
Proof. reflexivity. Qed.

Lemma Prim2SF_infinity : Prim2SF infinity = SpecFloat.S754_infinity false.
Proof. reflexivity. Qed.

Lemma SF_is_nan x : Prim2SF x <> SpecFloat.S754_nan -> is_nan x = false.
Proof.
  intros H. unfold is_nan. rewrite eqb_spec. unfold SpecFloat.SFeqb.
  now rewrite SFcompare_refl.
Qed.

Lemma float_le_not_nan x y :
  (x <=? y)%float = true -> is_nan x = false /\ is_nan y = false.
Proof.
  rewrite leb_spec. unfold SpecFloat.SFleb. intros H.
  split; apply SF_is_nan; intros Hn; rewrite Hn in H; simpl in H;
    [|destruct (Prim2SF x)]; discriminate.
Qed.

Lemma float_le_nlt x y : (x <=? y)%float = true -> (y <? x)%float = false.
Proof.
  rewrite leb_spec, ltb_spec. unfold SpecFloat.SFleb, SpecFloat.SFltb.
  rewrite (SFcompare_antisym (Prim2SF x) (Prim2SF y)).
  now destruct (SpecFloat.SFcompare _ _) as [[]|].
Qed.

Lemma SFcompare_Eq a b :
  SpecFloat.SFcompare a b = Some Eq ->
  a = b \/ exists s s', a = SpecFloat.S754_zero s /\ b = SpecFloat.S754_zero s'.
Proof.
  destruct a as [sa| sa| |sa ma ea], b as [sb| sb| |sb mb eb]; simpl; try discriminate;
    try (destruct sa; discriminate); try (destruct sb; discriminate).
  - right. eauto.
  - destruct sa, sb; try discriminate; now left.
  - destruct sa, sb; try discriminate; destruct (Z.compare_spec ea eb); try discriminate;
      subst; fold (Pos.compare ma mb); intros [= H]; left;
      [apply CompOpp_iff in H; simpl in H|]; apply Pos.compare_eq in H; now subst.
Qed.

Lemma float_cmp_eq x y :
  is_nan x = false -> is_nan y = false -> is_zero x = false ->
  (x <? y)%float = false -> (y <? x)%float = false -> x = y.
Proof.
  intros Hx Hy Hz. unfold is_zero in Hz. rewrite eqb_spec, Prim2SF_zero in Hz.
  rewrite !ltb_spec. unfold SpecFloat.SFltb.
  rewrite (SFcompare_antisym (Prim2SF x) (Prim2SF y)).
  destruct (SFcompare_total _ _ (not_nan_SF _ Hx) (not_nan_SF _ Hy)) as [c Hc].
  rewrite Hc. destruct c; simpl; try discriminate. intros _ _.
  apply SFcompare_Eq in Hc as [Hc|(s & s' & Hs & _)].
  - now apply Prim2SF_inj.
  - rewrite Hs in Hz. discriminate.
Qed.

Lemma Math_min_nan a b : is_nan (Math_min a b) = is_nan a || is_nan b.
Proof.
  destruct (is_nan a) eqn:Ha; [unfold Math_min; now rewrite Ha|].
  destruct (is_nan b) eqn:Hb; [unfold Math_min; now rewrite Ha, Hb|].
  destruct (Math_min_cases a b Ha Hb) as [[-> _]|[-> _]]; assumption.
Qed.

Lemma Math_max_nan a b : is_nan (Math_max a b) = is_nan a || is_nan b.
Proof.
  destruct (is_nan a) eqn:Ha; [unfold Math_max; now rewrite Ha|].
  destruct (is_nan b) eqn:Hb; [unfold Math_max; now rewrite Ha, Hb|].
  destruct (Math_max_cases a b Ha Hb) as [[-> _]|[-> _]]; assumption.
Qed.

Lemma Math_min_fix hi v :
  is_zero v = false -> (v <=? hi)%float = true -> Math_min hi v = v.
Proof.
  intros Hz Hle. destruct (float_le_not_nan _ _ Hle) as [Hv Hhi].
  unfold Math_min. rewrite Hhi, Hv. simpl.
  destruct (v <? hi)%float eqn:H1; [reflexivity|].
  rewrite (float_le_nlt _ _ Hle).
  rewrite (float_cmp_eq v hi Hv Hhi Hz H1 (float_le_nlt _ _ Hle)).
  now destruct (get_sign hi).
Qed.

Lemma Math_max_fix lo v :
  is_zero v = false -> (lo <=? v)%float = true -> Math_max lo v = v.
Proof.
  intros Hz Hle. destruct (float_le_not_nan _ _ Hle) as [Hlo Hv].
  unfold Math_max. rewrite Hlo, Hv. simpl.
  destruct (lo <? v)%float eqn:H1; [reflexivity|].
  rewrite (float_le_nlt _ _ Hle).
  rewrite <- (float_cmp_eq v lo Hv Hlo Hz (float_le_nlt _ _ Hle) H1).
  now destruct (get_sign v).
Qed.

Lemma float_above_zero lo v :
  (zero <? lo)%float = true -> (lo <=? v)%float = true -> is_zero v = false.
Proof.
  unfold is_zero. rewrite ltb_spec, leb_spec, eqb_spec, Prim2SF_zero.
  unfold SpecFloat.SFltb, SpecFloat.SFleb, SpecFloat.SFeqb.
  destruct (Prim2SF lo) as [[]|[]| |[] ? ?], (Prim2SF v) as [[]|[]| |[] ? ?]; simpl;
    congruence.
Qed.

Lemma float_below_zero hi v :
  (hi <? zero)%float = true -> (v <=? hi)%float = true -> is_zero v = false.
Proof.
  unfold is_zero. rewrite ltb_spec, leb_spec, eqb_spec, Prim2SF_zero.
  unfold SpecFloat.SFltb, SpecFloat.SFleb, SpecFloat.SFeqb.
  destruct (Prim2SF hi) as [[]|[]| |[] ? ?], (Prim2SF v) as [[]|[]| |[] ? ?]; simpl;
    congruence.
Qed.

Lemma float_between_finite lo hi v :
  is_infinity lo = false -> is_infinity hi = false ->
  (lo <=? v)%float = true -> (v <=? hi)%float = true -> is_infinity v = false.
Proof.
  unfold is_infinity. rewrite !leb_spec, !eqb_spec, !abs_spec, Prim2SF_infinity.
  unfold SpecFloat.SFleb, SpecFloat.SFeqb.
  destruct (Prim2SF lo) as [[]|[]| |[] ? ?], (Prim2SF v) as [[]|[]| |[] ? ?],
    (Prim2SF hi) as [[]|[]| |[] ? ?]; simpl; congruence.
Qed.

(** [clamp] is the identity on a non-zero number inside the interval. *)
Lemma clamp_fix v lo hi :
  is_zero v = false -> (lo <=? v)%float = true -> (v <=? hi)%float = true ->
  clamp v lo hi = v.
Proof.
  intros Hz Hlo Hhi. unfold clamp.
  rewrite (Math_min_fix hi v Hz Hhi). exact (Math_max_fix lo v Hz Hlo).
Qed.

Lemma JSON_number_plain v :
  is_nan v = false -> is_infinity v = false -> is_zero v = false ->
  JSON_number v = JNumber v.
Proof. unfold JSON_number. now intros -> -> ->. Qed.

Lemma orZero_plain v : is_nan v = false -> is_zero v = false -> orZero v = v.
Proof. unfold orZero. now intros -> ->. Qed.

(** The comparison of two finite doubles of one sign goes by exponent, then
    by mantissa. *)
Lemma magnitude_Lt (e1 e2 : Z) (m1 m2 : positive) :
  match e1 ?= e2 with Lt => Lt | Gt => Gt | Eq => Pos.compare_cont Eq m1 m2 end = Lt <->
  e1 < e2 \/ (e1 = e2 /\ (m1 < m2)%positive).
Proof.
  destruct (Z.compare_spec e1 e2); fold (Pos.compare m1 m2);
    rewrite ?Pos.compare_lt_iff; split; intros; try lia; try discriminate; auto.
Qed.

Lemma magnitude_Gt (e1 e2 : Z) (m1 m2 : positive) :
  match e1 ?= e2 with Lt => Lt | Gt => Gt | Eq => Pos.compare_cont Eq m1 m2 end = Gt <->
  e2 < e1 \/ (e1 = e2 /\ (m2 < m1)%positive).
Proof.
  destruct (Z.compare_spec e1 e2); fold (Pos.compare m1 m2);
    rewrite ?Pos.compare_gt_iff; split; intros; try lia; try discriminate; auto.
Qed.

Lemma magnitude_Eq (e1 e2 : Z) (m1 m2 : positive) :
  match e1 ?= e2 with Lt => Lt | Gt => Gt | Eq => Pos.compare_cont Eq m1 m2 end = Eq <->
  e1 = e2 /\ m1 = m2.
Proof.
  destruct (Z.compare_spec e1 e2); fold (Pos.compare m1 m2);
    rewrite ?Pos.compare_eq_iff; split; intros; try lia; try discriminate; auto;
    intuition congruence.
Qed.

Lemma SFcompare_finite s1 m1 e1 s2 m2 e2 :
  SpecFloat.SFcompare (SpecFloat.S754_finite s1 m1 e1) (SpecFloat.S754_finite s2 m2 e2) =
  Some (match s1, s2 with
        | true, false => Lt
        | false, true => Gt
        | false, false =>
            match e1 ?= e2 with Lt => Lt | Gt => Gt | Eq => Pos.compare_cont Eq m1 m2 end
        | true, true =>
            CompOpp (match e1 ?= e2 with
                     | Lt => Lt | Gt => Gt | Eq => Pos.compare_cont Eq m1 m2
                     end)
        end).
Proof. simpl. destruct s1, s2; try reflexivity; destruct (e1 ?= e2); reflexivity. Qed.

Ltac order_doubles :=
  repeat match goal with
         | H : CompOpp _ = _ |- _ => apply CompOpp_iff in H; simpl in H
         | |- CompOpp _ = _ => apply CompOpp_iff; simpl
         end;
  rewrite ?magnitude_Lt, ?magnitude_Gt, ?magnitude_Eq in *; lia.

Ltac order_specials sx sy sz :=
  simpl; intros;
  repeat match goal with H : _ \/ _ |- _ => destruct H end;
  try discriminate; try reflexivity;
  try (destruct sx; discriminate || reflexivity);
  try (destruct sy; discriminate || reflexivity);
  try (destruct sz; discriminate || reflexivity);
  try (destruct sx, sy; discriminate || reflexivity);
  try (destruct sx, sz; discriminate || reflexivity);
  try (destruct sy, sz; discriminate || reflexivity);
  try (destruct sx, sy, sz; discriminate || reflexivity).

Lemma SFcompare_lt_le_trans x y z :
  SpecFloat.SFcompare x y = Some Lt ->
  SpecFloat.SFcompare y z = Some Lt \/ SpecFloat.SFcompare y z = Some Eq ->
  SpecFloat.SFcompare x z = Some Lt.
Proof.
  destruct x as [sx|sx| |sx mx ex], y as [sy|sy| |sy my ey], z as [sz|sz| |sz mz ez];
    rewrite ?SFcompare_finite; try (order_specials sx sy sz; fail).
  intros H [H'|H']; injection H as H; injection H' as H'; f_equal;
    destruct sx, sy, sz; try discriminate; try reflexivity; order_doubles.
Qed.

Lemma SFcompare_le_lt_trans x y z :
  SpecFloat.SFcompare x y = Some Lt \/ SpecFloat.SFcompare x y = Some Eq ->
  SpecFloat.SFcompare y z = Some Lt ->
  SpecFloat.SFcompare x z = Some Lt.
Proof.
  destruct x as [sx|sx| |sx mx ex], y as [sy|sy| |sy my ey], z as [sz|sz| |sz mz ez];
    rewrite ?SFcompare_finite; try (order_specials sx sy sz; fail).
  intros [H|H] H'; injection H as H; injection H' as H'; f_equal;
    destruct sx, sy, sz; try discriminate; try reflexivity; order_doubles.
Qed.

Lemma float_lt_le_trans x y z :
  (x <? y)%float = true -> (y <=? z)%float = true -> (x <? z)%float = true.
Proof.
  rewrite !ltb_spec, leb_spec. unfold SpecFloat.SFltb, SpecFloat.SFleb. intros H H'.
  rewrite (SFcompare_lt_le_trans (Prim2SF x) (Prim2SF y) (Prim2SF z)); [reflexivity| |].
  - now destruct (SpecFloat.SFcompare (Prim2SF x) (Prim2SF y)) as [[]|].
  - destruct (SpecFloat.SFcompare (Prim2SF y) (Prim2SF z)) as [[]|]; auto; discriminate.
Qed.

Lemma float_le_lt_trans x y z :
  (x <=? y)%float = true -> (y <? z)%float = true -> (x <? z)%float = true.
Proof.
  rewrite !ltb_spec, leb_spec. unfold SpecFloat.SFltb, SpecFloat.SFleb. intros H H'.
  rewrite (SFcompare_le_lt_trans (Prim2SF x) (Prim2SF y) (Prim2SF z)); [reflexivity| |].
  - destruct (SpecFloat.SFcompare (Prim2SF x) (Prim2SF y)) as [[]|]; auto; discriminate.
  - now destruct (SpecFloat.SFcompare (Prim2SF y) (Prim2SF z)) as [[]|].
Qed.

Lemma float_lt_not_nan x y :
  (x <? y)%float = true -> is_nan x = false /\ is_nan y = false.
Proof. intros H. apply float_le_not_nan. now apply float_lt_le. Qed.

(** Below the interval [clamp] gives its lower end, above it the upper. *)
Lemma clamp_below v lo hi :
  (v <? lo)%float = true -> (lo <=? hi)%float = true -> clamp v lo hi = lo.
Proof.
  intros Hv Hle. destruct (float_lt_not_nan _ _ Hv) as [Hnv Hnlo].
  destruct (float_le_not_nan _ _ Hle) as [_ Hnhi].
  unfold clamp, Math_min, Math_max. rewrite Hnhi, Hnv. simpl.
  rewrite (float_lt_le_trans _ _ _ Hv Hle). rewrite Hnlo, Hnv. simpl.
  now rewrite (float_le_nlt _ _ (float_lt_le _ _ Hv)), Hv.
Qed.

Lemma clamp_above v lo hi :
  (hi <? v)%float = true -> (lo <? hi)%float = true -> clamp v lo hi = hi.
Proof.
  intros Hv Hlt. destruct (float_lt_not_nan _ _ Hv) as [Hnhi Hnv].
  destruct (float_lt_not_nan _ _ Hlt) as [Hnlo _].
  unfold clamp, Math_min, Math_max. rewrite Hnhi, Hnv. simpl.
  rewrite (float_le_nlt _ _ (float_lt_le _ _ Hv)), Hv. rewrite Hnlo, Hnhi. simpl.
  now rewrite Hlt.
Qed.

Lemma clientAngle_bounds a :
  is_nan a = false ->
  (- Math_PI + 0.15 <=? clientAngle a)%float = true /\
  (clientAngle a <=? - 0.15)%float = true.
Proof.
  intros Ha. unfold clientAngle.
  destruct (Math_max_cases (- Math_PI + 0.15) a eq_refl Ha) as [[-> Hm]|[-> Hm]].
  - destruct (Math_min_cases (- 0.15) a eq_refl Ha) as [[-> Hx]|[-> Hx]];
      auto using float_le_refl.
  - destruct (Math_min_cases (- 0.15) (- Math_PI + 0.15) eq_refl eq_refl) as [[-> Hx]|[-> Hx]];
      auto using float_le_refl.
Qed.

(** ** Runs of the server *)

Lemma run_snoc {E : Engine} evs ev w : run (evs ++ [ev]) w = step (run evs w) ev.
Proof. unfold run. now rewrite fold_left_app. Qed.

(** What an event does to the registry. *)
Lemma step_rooms {E : Engine} w ev :
  snd (step w ev) =
  match ev with
  | Join now rnd uuid => fst (handleJoin now rnd uuid (snd w))
  | GetState now roomId playerId =>
      snd (fst (handleState now roomId playerId (fst w) (snd w)))
  | Fire now roomId playerId power angle =>
      snd (fst (handleFire now roomId playerId power angle (fst w) (snd w)))
  | Restart now roomId => fst (handleRestart now roomId (snd w))
  | Tick now => tick now (snd w)
  end.
Proof. destruct w, ev; reflexivity. Qed.

(** Induction over the registries the server can reach. *)
Lemma reachable_induction {E : Engine} (P : Rooms -> Prop) :
  P [] ->
  (forall w ev, genuine ev -> P (snd w) -> P (snd (step w ev))) ->
  forall rooms, reachable rooms -> P rooms.
Proof.
  intros H0 Hstep rooms (evs & Hg & <-). unfold registry.
  induction evs as [|ev evs IH] using rev_ind; [exact H0|].
  apply Forall_app in Hg as [Hg Hev]. inversion Hev; subst.
  rewrite run_snoc. apply Hstep; auto.
Qed.

(** Whether a run is genuine can be computed. *)
Lemma genuine_check evs :
  forallb (fun ev => match ev with Join _ _ uuid => isUUID uuid | _ => true end) evs = true ->
  Forall genuine evs.
Proof.
  intros H. apply Forall_forall. intros ev Hev.
  apply (proj1 (forallb_forall _ _) H) in Hev. now destruct ev.
Qed.

(** ** Looking up rooms and players *)

Lemma rooms_lookup_string roomId rooms room :
  rooms_lookup roomId rooms = Some room ->
  exists s, roomId = JString s /\ rooms_get s rooms = Some room.
Proof. destruct roomId; simpl; try discriminate. eauto. Qed.

Lemma rooms_lookup_In roomId rooms room :
  rooms_lookup roomId rooms = Some room -> In room rooms.
Proof.
  intros H. apply rooms_lookup_string in H as (s & _ & H).
  exact (dict_get_In Room.id _ _ _ H).
Qed.

(** A session is found only under its own id. *)
Lemma lookupPlayer_session inh players key p :
  lookupPlayer inh players key = Some (Session p) ->
  players_get key players = Some p /\ Player.id p = key.
Proof.
  unfold lookupPlayer. destruct (players_get key players) as [q|] eqn:Hq.
  - intros [= <-]. split; [reflexivity|]. exact (dict_get_key Player.id _ _ _ Hq).
  - destruct (String.eqb key "__proto__"); [discriminate|].
    destruct (existsb _ _); [discriminate|].
    destruct (String.eqb key "cooldownUntil");
      [destruct (protoCooldownUntil inh); discriminate|].
    destruct (String.eqb key "lastSeenAt"); [destruct (protoLastSeenAt inh)|]; discriminate.
Qed.

Lemma lookupPlayer_own inh players key p :
  players_get key players = Some p -> lookupPlayer inh players key = Some (Session p).
Proof. unfold lookupPlayer. now intros ->. Qed.

Lemma touched_refl room : touched room room.
Proof. repeat split; auto. Qed.

(** Writing [cooldownUntil] or [lastSeenAt] through a looked-up player
    touches the room at most in that session. *)
Lemma setCooldownUntil_touched v inh room room1 key player :
  lookupPlayer inh (Room.players room) key = Some player ->
  Room.id room1 = Room.id room -> Room.players room1 = Room.players room ->
  Room.lastHitAt room1 = Room.lastHitAt room -> Room.started room1 = Room.started room ->
  Room.winner room1 = Room.winner room ->
  touched room (snd (setCooldownUntil v player inh room1)) /\
  Room.projectiles (snd (setCooldownUntil v player inh room1)) = Room.projectiles room1.
Proof.
  intros Hl Hid Hpl Hhit Hst Hw. unfold touched.
  destruct player as [p| |name|n]; simpl;
    (split; [|reflexivity]); do 4 (split; [assumption|]); try (now left).
  apply lookupPlayer_session in Hl as [Hget Hkey]. right.
  exists p, (Player.set_cooldownUntil v p). rewrite Hkey, Hpl. repeat split; auto.
Qed.

Lemma setLastSeenAt_touched v inh room key player :
  lookupPlayer inh (Room.players room) key = Some player ->
  touched room (snd (setLastSeenAt v player inh room)) /\
  Room.projectiles (snd (setLastSeenAt v player inh room)) = Room.projectiles room.
Proof.
  intros Hl. unfold touched.
  destruct player as [p| |name|n]; simpl;
    (split; [|reflexivity]); do 4 (split; [reflexivity|]); try (now left).
  apply lookupPlayer_session in Hl as [Hget Hkey]. right.
  exists p, (Player.set_lastSeenAt v p). rewrite Hkey. repeat split; auto.
Qed.

(** ** Firing *)

Lemma cooling_None now c : cooling now c = None <-> forall d, c = Some d -> d <= now.
Proof.
  unfold cooling. destruct c as [c|]; [|split; [intros _ d; discriminate | reflexivity]].
  destruct (Z.gtb_spec c now) as [Hc|Hc]; split; try discriminate; try reflexivity.
  - intros Hd. specialize (Hd c eq_refl). lia.
  - intros _ d [= <-]. assumption.
Qed.

Lemma cooling_Some now c d : cooling now c = Some d <-> c = Some d /\ now < d.
Proof.
  unfold cooling. destruct c as [c|]; [|split; [discriminate | intros [Hd _]; discriminate]].
  destruct (Z.gtb_spec c now) as [Hc|Hc]; split.
  - intros [= <-]. split; [reflexivity | lia].
  - intros [[= <-] _]. reflexivity.
  - discriminate.
  - intros [[= <-] Hd]. lia.
Qed.

(** What an accepted fire request found and did. *)
Lemma handleFire_ok_inv {E : Engine} now roomId playerId power angle inh rooms w' :
  handleFire now roomId playerId power angle inh rooms = (w', FireOk) ->
  exists room key player p a,
    rooms_lookup roomId rooms = Some room /\
    ToPropertyKey playerId = Some key /\
    lookupPlayer inh (Room.players room) key = Some player /\
    refTruthy player = true /\
    no_winner room = true /\
    cooling now (refCooldownUntil inh player) = None /\
    Number power = Some p /\ Number angle = Some a /\
    let fired := setCooldownUntil (now + FIRE_COOLDOWN_MS) player inh
                   (Room.set_projectiles
                      (Room.projectiles room ++ [spawnProjectile now player playerId key p a])
                      room) in
    w' = (fst fired, rooms_set (snd fired) rooms).
Proof.
  unfold handleFire.
  destruct (rooms_lookup roomId rooms) as [room|] eqn:Hr; [|discriminate].
  destruct (ToPropertyKey playerId) as [key|] eqn:Hk; [|discriminate].
  destruct (lookupPlayer inh (Room.players room) key) as [player|] eqn:Hp; [|discriminate].
  destruct (refTruthy player) eqn:Ht; [|discriminate].
  destruct (no_winner room) eqn:Hw; [|discriminate]. simpl.
  destruct (cooling now (refCooldownUntil inh player)) eqn:Hc; [discriminate|].
  destruct (Number power) as [p|] eqn:Hpow; [|discriminate].
  destruct (Number angle) as [a|] eqn:Hang; [|discriminate].
  destruct (setCooldownUntil _ _ _ _) as [inh' room'] eqn:Hset.
  intros [= <-]. exists room, key, player, p, a.
  do 8 (split; [reflexivity || assumption|]). cbv zeta. now rewrite Hset.
Qed.

(** A fire request that is not accepted changes nothing. *)
Lemma handleFire_refused {E : Engine} now roomId playerId power angle inh rooms :
  snd (handleFire now roomId playerId power angle inh rooms) <> FireOk ->
  fst (handleFire now roomId playerId power angle inh rooms) = (inh, rooms).
Proof.
  unfold handleFire.
  destruct (rooms_lookup roomId rooms) as [room|]; [|reflexivity].
  destruct (ToPropertyKey playerId) as [key|]; [|reflexivity].
  destruct (lookupPlayer inh (Room.players room) key) as [player|]; [|reflexivity].
  destruct (negb (refTruthy player) || negb (no_winner room)); [reflexivity|].
  destruct (cooling now (refCooldownUntil inh player)); [reflexivity|].
  destruct (Number power) as [p|]; [|reflexivity].
  destruct (Number angle) as [a|]; [|reflexivity].
  destruct (setCooldownUntil _ _ _ _). simpl. congruence.
Qed.

(** A fire request leaves the registry alone or rewrites the room it names:
    one more projectile, and at most one session touched. *)
Lemma handleFire_effect {E : Engine} now roomId playerId power angle inh rooms :
  snd (fst (handleFire now roomId playerId power angle inh rooms)) = rooms \/
  exists room room' key player p a,
    rooms_lookup roomId rooms = Some room /\
    ToPropertyKey playerId = Some key /\
    lookupPlayer inh (Room.players room) key = Some player /\
    refTruthy player = true /\
    snd (fst (handleFire now roomId playerId power angle inh rooms)) = rooms_set room' rooms /\
    touched room room' /\
    Room.projectiles room' =
      Room.projectiles room ++ [spawnProjectile now player playerId key p a].
Proof.
  destruct (handleFire now roomId playerId power angle inh rooms) as [w' resp] eqn:H.
  destruct resp;
    try (left; pose proof (handleFire_refused now roomId playerId power angle inh rooms) as Hn;
         rewrite H in Hn; simpl in *; now rewrite Hn).
  apply handleFire_ok_inv in H as (room & key & player & p & a & Hr & Hk & Hp & Ht & _ & _ & _ & _ & ->).
  right. exists room. eexists. exists key, player, p, a.
  do 4 (split; [assumption|]). split; [reflexivity|].
  exact (setCooldownUntil_touched (now + FIRE_COOLDOWN_MS) inh room
           (Room.set_projectiles
              (Room.projectiles room ++ [spawnProjectile now player playerId key p a]) room)
           key player Hp eq_refl eq_refl eq_refl eq_refl eq_refl).
Qed.

(** A state request leaves the registry alone or rewrites the room it
    names, touching at most one session. *)
Lemma handleState_effect now roomId playerId inh rooms :
  (handleState now roomId playerId inh rooms = ((inh, rooms), StateNotFound)) \/
  exists room player,
    rooms_get roomId rooms = Some room /\
    lookupPlayer inh (Room.players room) playerId = Some player /\
    refTruthy player = true /\
    let polled := setLastSeenAt now player inh room in
    handleState now roomId playerId inh rooms
      = ((fst polled, rooms_set (snd polled) rooms), View (snd polled)) /\
    touched room (snd polled) /\
    Room.projectiles (snd polled) = Room.projectiles room.
Proof.
  unfold handleState.
  destruct (rooms_get roomId rooms) as [room|] eqn:Hr; [|now left].
  destruct (lookupPlayer inh (Room.players room) playerId) as [player|] eqn:Hp; [|now left].
  destruct (refTruthy player) eqn:Ht; [|now left]. simpl.
  right. exists room, player. do 3 (split; [reflexivity || assumption|]).
  destruct (setLastSeenAt now player inh room) as [inh' room'] eqn:Hs.
  split; [reflexivity|].
  pose proof (setLastSeenAt_touched now inh room playerId player Hp) as H.
  now rewrite Hs in H.
Qed.

(** The power of a shot, by the place of [Number(power)]: 150 for NaN and
    below 150, 900 above 900, the number itself in between. *)
Lemma clampedPower_cases v :
  (is_nan v = true -> clampedPower v = 150%float) /\
  ((v <? 150)%float = true -> clampedPower v = 150%float) /\
  ((900 <? v)%float = true -> clampedPower v = 900%float) /\
  ((150 <=? v)%float = true -> (v <=? 900)%float = true -> clampedPower v = v).
Proof.
  unfold clampedPower, orZero. destruct (is_nan v) eqn:Hn; simpl.
  { split; [reflexivity|]. split; [|split]; intros H; exfalso.
    - apply float_lt_not_nan in H as [H _]. congruence.
    - apply float_lt_not_nan in H as [_ H]. congruence.
    - apply float_le_not_nan in H as [_ H]. congruence. }
  split; [discriminate|]. destruct (is_zero v) eqn:Hz.
  - split; [reflexivity|]. split; [|intros H _]; [intros H|]; exfalso.
    + pose proof (float_above_zero 900 v eq_refl (float_lt_le _ _ H)). congruence.
    + pose proof (float_above_zero 150 v eq_refl H). congruence.
  - split; [|split].
    + intros H. now apply clamp_below.
    + intros H. now apply clamp_above.
    + intros H1 H2. now apply clamp_fix.
Qed.

(** The angle of a shot, by the place of [Number(angle)]: [-0.15] for NaN
    and above [-0.15], [-pi + 0.15] below that, the number itself in
    between. *)
Lemma clampedAngle_cases v :
  (is_nan v = true -> clampedAngle v = (- 0.15)%float) /\
  ((v <? - Math_PI + 0.15)%float = true -> clampedAngle v = (- Math_PI + 0.15)%float) /\
  ((- 0.15 <? v)%float = true -> clampedAngle v = (- 0.15)%float) /\
  ((- Math_PI + 0.15 <=? v)%float = true -> (v <=? - 0.15)%float = true ->
   clampedAngle v = v).
Proof.
  unfold clampedAngle, orZero, ANGLE_MIN, ANGLE_MAX. destruct (is_nan v) eqn:Hn; simpl.
  { split; [reflexivity|]. split; [|split]; intros H; exfalso.
    - apply float_lt_not_nan in H as [H _]. congruence.
    - apply float_lt_not_nan in H as [_ H]. congruence.
    - apply float_le_not_nan in H as [_ H]. congruence. }
  split; [discriminate|]. destruct (is_zero v) eqn:Hz.
  - split; [|split; [reflexivity|intros _ H]]; [intros H|]; exfalso.
    + pose proof (float_below_zero (- Math_PI + 0.15) v eq_refl (float_lt_le _ _ H)).
      congruence.
    + pose proof (float_below_zero (- 0.15) v eq_refl H). congruence.
  - split; [|split].
    + intros H. now apply clamp_below.
    + intros H. now apply clamp_above.
    + intros H1 H2. now apply clamp_fix.
Qed.

Lemma rooms_lookup_written roomId rooms room room' :
  rooms_lookup roomId rooms = Some room -> Room.id room' = Room.id room ->
  rooms_lookup roomId (rooms_set room' rooms) = Some room'.
Proof.
  intros Hr Hid. apply rooms_lookup_string in Hr as (s & -> & Hr). simpl.
  pose proof (dict_get_key Room.id _ _ _ Hr) as Hk.
  rewrite <- Hk, <- Hid. exact (dict_get_set Room.id room' rooms).
Qed.

(** X19: a fire request that a session of the room gets accepted appends
    one projectile, spawned at the session's [(x, y - 28)] with velocity
    [(cos eff * p, sin eff * p)] and the request's [playerId] as owner; [p]
    is [Number(power)] brought into [150, 900] (150 for NaN), [a] is
    [Number(angle)] brought into [-pi + 0.15, -0.15] ([-0.15] for NaN), and
    [eff] is [a] for a session facing right and [pi - a] for one facing
    left. *)
Theorem fire_spawns_clamped_projectile :
  forall (E : Engine) now roomId playerId power angle inh rooms w' room key player,
    handleFire now roomId playerId power angle inh rooms = (w', FireOk) ->
    rooms_lookup roomId rooms = Some room ->
    ToPropertyKey playerId = Some key ->
    players_get key (Room.players room) = Some player ->
    exists v u p a room',
      Number power = Some v /\ Number angle = Some u /\
      rooms_lookup roomId (snd w') = Some room' /\
      Room.projectiles room' =
        Room.projectiles room ++
          [Projectile.mk (key ++ "-" ++ Z_to_string now) playerId
             (Some (Player.x player)) (Player.y player - 28)%float
             (Math_cos (if (Player.facing player =? 1)%Z then a else Math_PI - a) * p)%float
             (Math_sin (if (Player.facing player =? 1)%Z then a else Math_PI - a) * p)%float
             now] /\
      (is_nan v = true -> p = 150%float) /\
      ((v <? 150)%float = true -> p = 150%float) /\
      ((900 <? v)%float = true -> p = 900%float) /\
      ((150 <=? v)%float = true -> (v <=? 900)%float = true -> p = v) /\
      (is_nan u = true -> a = (- 0.15)%float) /\
      ((u <? - Math_PI + 0.15)%float = true -> a = (- Math_PI + 0.15)%float) /\
      ((- 0.15 <? u)%float = true -> a = (- 0.15)%float) /\
      ((- Math_PI + 0.15 <=? u)%float = true -> (u <=? - 0.15)%float = true -> a = u).
Proof.
  intros E now roomId playerId power angle inh rooms w' room key player H Hr Hk Hp.
  apply handleFire_ok_inv in H
    as (room0 & key0 & player0 & v & u & Hr0 & Hk0 & Hp0 & _ & _ & _ & Hv & Hu & ->).
  rewrite Hr in Hr0. injection Hr0 as <-. rewrite Hk in Hk0. injection Hk0 as <-.
  rewrite (lookupPlayer_own inh _ _ _ Hp) in Hp0. injection Hp0 as <-.
  exists v, u, (clampedPower v), (clampedAngle u). eexists.
  split; [exact Hv|]. split; [exact Hu|]. split.
  { simpl. apply (rooms_lookup_written roomId rooms room); [exact Hr | reflexivity]. }
  split; [reflexivity|].
  destruct (clampedPower_cases v) as (P1 & P2 & P3 & P4).
  destruct (clampedAngle_cases u) as (A1 & A2 & A3 & A4).
  repeat split; assumption.
Qed.

Lemma fire_spawns_clamped_projectile_witness :
  exists w' room',
    @handleFire refEngine 1001 (JString "room-1000-7") (JString bob) JUndefined (JNumber 7)
      noInherited fireScenario = (w', FireOk) /\
    rooms_get "room-1000-7" (snd w') = Some room' /\
    Room.projectiles room' =
      [Projectile.mk (bob ++ "-1001") (JString bob) (Some 880%float) 452
         (cos_series (Math_PI - (- 0.15)) * 150)%float
         (sin_series (Math_PI - (- 0.15)) * 150)%float 1001].
Proof.
  eexists.
  destruct (fire_spawns_clamped_projectile refEngine 1001 (JString "room-1000-7") (JString bob)
              JUndefined (JNumber 7) noInherited fireScenario _
              (Room.mk "room-1000-7"
                 [playerStartState alice 0 1000; playerStartState bob 1 1000] [] 0 true None)
              bob (playerStartState bob 1 1000) eq_refl eq_refl eq_refl eq_refl)
    as (v & u & p & a & room' & Hv & Hu & Hr' & Hproj & Hnan & _ & _ & _ & _ & _ & Hup & _).
  exists room'. split; [reflexivity|]. split; [exact Hr'|].
  injection Hv as <-. injection Hu as <-.
  rewrite Hproj, (Hnan eq_refl), (Hup eq_refl). reflexivity.
Defined.

(** C4 does not hold of the code: the handler takes whatever
    [room.players[playerId]] finds for a session.  A fire request with
    [playerId] ["constructor"], in a room whose only session is Alice's,
    finds the inherited [Object] function, is accepted, and pushes a
    projectile that spawns at no session's position: its [x] is [undefined]
    and its [y] NaN, and its angle is mirrored although nobody faces left.
    The cooldown is stored on the function. *)
Theorem fire_without_session_is_accepted :
  let rooms := @registry refEngine [Join 1000 7 alice] in
  let fired := @handleFire refEngine 2000 (JString "room-1000-7") (JString "constructor")
                 (JNumber 900) (JNumber (-1)) noInherited rooms in
  option_map (fun r => map Player.id (Room.players r)) (rooms_get "room-1000-7" rooms)
    = Some [alice] /\
  snd fired = FireOk /\
  option_map Room.projectiles (rooms_get "room-1000-7" (snd (fst fired)))
    = Some [Projectile.mk "constructor-2000" (JString "constructor") None nan
              (cos_series (Math_PI - (-1)) * 900)%float
              (sin_series (Math_PI - (-1)) * 900)%float 2000] /\
  option_map (fun r => map Player.cooldownUntil (Room.players r))
    (rooms_get "room-1000-7" (snd (fst fired))) = Some [0] /\
  fnCooldownUntil (fst (fst fired)) = [("constructor"%string, 3500)].
Proof. vm_compute. repeat split; reflexivity. Qed.

(** ** Physics and collision *)



Lemma collides_spec t q : collides t q = spec_collides t q.
Proof. reflexivity. Qed.

(** The owner test holds for the session whose id is the stored owner, and
    for no session when the stored owner is not a string. *)
Lemma ownedBy_spec target proj :
  ownedBy target proj = true <-> Projectile.ownerId proj = JString (Player.id target).
Proof.
  unfold ownedBy. destruct (Projectile.ownerId proj); try (split; discriminate).
  rewrite String.eqb_eq. split; [now intros -> | now intros [= ->]].
Qed.






(** C6 does not hold of the code: the loop skips the owner by
    [target.id === proj.ownerId], and [ownerId] is the request's [playerId]
    as it came.  Alice fires with her id wrapped in an array: the property
    lookup finds her session and the fire is accepted, but the stored owner
    is the array, which no id is strictly equal to; the projectile spawns 14
    units from her own hurtbox centre and the next tick takes a hit point
    from her.  With her id as a string the same tick hits nobody. *)
Theorem shooter_hit_by_own_projectile :
  let w := @run refEngine [Join 1000 7 alice; Join 1000 8 bob] start in
  let fire playerId :=
    @handleFire refEngine 2000 (JString "room-1000-7") playerId (JNumber 900) (JNumber (-1))
      (fst w) (snd w) in
  let sessions rooms :=
    option_map (fun r => map (fun p => (Player.id p, Player.hp p)) (Room.players r))
      (rooms_get "room-1000-7" rooms) in
  snd (fire (JObject (Some alice))) = FireOk /\
  option_map (fun r => map Projectile.ownerId (Room.projectiles r))
    (rooms_get "room-1000-7" (snd (fst (fire (JObject (Some alice))))))
    = Some [JObject (Some alice)] /\
  sessions (tick 2017 (snd (fst (fire (JObject (Some alice)))))) = Some [(alice, 4); (bob, 5)] /\
  snd (fire (JString alice)) = FireOk /\
  sessions (tick 2017 (snd (fst (fire (JString alice))))) = Some [(alice, 5); (bob, 5)].
Proof. vm_compute. repeat split; reflexivity. Qed.

(** ** Restart *)

(** C7 does not hold of the code: a restart does not keep a session's
    last-seen timestamp.  [resetRoom] rebuilds a session from
    [playerStartState], which stamps [lastSeenAt] with the current time, and
    does not put the old value back, as the rebuild in the tick does.  Alice
    joins at 1000; a tick at 5000 leaves her [lastSeenAt] at 1000, a restart
    at 5000 makes it 5000. *)
Theorem restart_overwrites_last_seen :
  let rooms := @registry refEngine [Join 1000 7 alice] in
  let lastSeen rooms :=
    option_map (fun r => map Player.lastSeenAt (Room.players r))
      (rooms_get "room-1000-7" rooms) in
  lastSeen rooms = Some [1000] /\
  lastSeen (tick 5000 rooms) = Some [1000] /\
  snd (handleRestart 5000 (JString "room-1000-7") rooms) = RestartOk /\
  lastSeen (fst (handleRestart 5000 (JString "room-1000-7") rooms)) = Some [5000].
Proof. vm_compute. repeat split; reflexivity. Qed.

(** X21: a restart of a known room empties the projectile list, clears
    [winner] and [lastHitAt], and rebuilds every session from its slot (hp 5,
    the slot's spawn point, colour and facing, [cooldownUntil] 0), keeping
    its id and slot; [started] is set by the number of sessions.  The
    rebuilt sessions carry the time of the restart as [lastSeenAt]. *)
Theorem restart_resets_room :
  forall now roomId rooms room,
    rooms_lookup roomId rooms = Some room ->
    exists room',
      handleRestart now roomId rooms = (rooms_set room' rooms, RestartOk) /\
      rooms_lookup roomId (rooms_set room' rooms) = Some room' /\
      Room.projectiles room' = [] /\
      Room.winner room' = None /\
      Room.lastHitAt room' = 0 /\
      Room.started room' = Nat.eqb (List.length (Room.players room)) 2 /\
      Room.players room' =
        map (fun p =>
               Player.mk (Player.id p) (Player.slot p) 5 0
                 (if Nat.eqb (Player.slot p) 0 then 120 else 880)%float 480%float
                 (if Nat.eqb (Player.slot p) 0 then "#4c9dff" else "#ff5b8a")%string
                 (if Nat.eqb (Player.slot p) 0 then 1 else -1)
                 now)
            (Room.players room).
Proof.
  intros now roomId rooms room Hr. unfold handleRestart. rewrite Hr.
  eexists. split; [reflexivity|]. split.
  - apply (rooms_lookup_written roomId rooms room); [exact Hr | reflexivity].
  - simpl. repeat split.
    unfold occupants. simpl. now rewrite length_map.
Qed.

Lemma restart_resets_room_witness :
  let rooms := @registry refEngine [Join 1000 7 alice; Join 1002 3 bob] in
  exists room room',
    rooms_get "room-1000-7" rooms = Some room /\
    handleRestart 5000 (JString "room-1000-7") rooms = (rooms_set room' rooms, RestartOk) /\
    map Player.hp (Room.players room') = [5; 5] /\
    map Player.lastSeenAt (Room.players room') = [5000; 5000].
Proof.
  intros rooms.
  destruct (restart_resets_room 5000 (JString "room-1000-7") rooms
              (Room.mk "room-1000-7"
                 [playerStartState alice 0 1000; playerStartState bob 1 1002] [] 0 true None)
              eq_refl)
    as (room' & Hrun & _ & _ & _ & _ & _ & Hplayers).
  eexists _, room'. split; [reflexivity|]. split; [exact Hrun|].
  rewrite Hplayers. split; reflexivity.
Defined.

(** ** Matchmaking *)

Lemma dict_set_absent {V : Type} (key : V -> string) v (d : list V) :
  dict_get key (key v) d = None -> dict_set key v d = d ++ [v].
Proof.
  induction d as [|v' d IH]; simpl; [reflexivity|].
  destruct (String.eqb (key v) (key v')); [discriminate|].
  intros H. now rewrite IH.
Qed.

(** C8 does not hold of the code: the id of a fresh room need not be new.
    It is made of the millisecond and a draw below 1000.  Alice and Bob join
    in millisecond 5 and fill room-5-7; Carol joins in the same millisecond
    and draws 7 again: no room is joinable, the fresh room gets the id the
    full room is registered under, and [rooms.set] puts it in that room's
    place.  The registry then holds Carol's room only, and a poll by Alice is
    answered 404. *)
Theorem fresh_room_id_collides :
  let rooms := @registry refEngine [Join 5 7 alice; Join 5 7 bob] in
  let rooms' := fst (handleJoin 5 7 carol rooms) in
  find joinable rooms = None /\
  map (fun r => (Room.id r, map Player.id (Room.players r))) rooms
    = [("room-5-7"%string, [alice; bob])] /\
  Room.id (fst (findOrCreateRoom 5 7 rooms)) = "room-5-7"%string /\
  map (fun r => (Room.id r, map Player.id (Room.players r))) rooms'
    = [("room-5-7"%string, [carol])] /\
  snd (handleState 6 "room-5-7" alice noInherited rooms') = StateNotFound.
Proof. vm_compute. repeat split; reflexivity. Qed.

(** X22: [findOrCreateRoom] returns a room with fewer than two sessions and
    no winner: the first such room of the registry, or else a fresh empty
    room stored under the id made of the time and the draw (a new entry
    when that id is not yet registered).  A join takes the occupant count
    as slot, spawns the session at that slot's spawn point, and sets
    [started] exactly when the room then holds two sessions. *)
Theorem join_finds_room_and_assigns_slot :
  forall now rnd uuid rooms,
    let room := fst (findOrCreateRoom now rnd rooms) in
    let rooms' := snd (findOrCreateRoom now rnd rooms) in
    (occupants room < 2)%nat /\
    no_winner room = true /\
    match find joinable rooms with
    | Some r => room = r /\ rooms' = rooms /\ In r rooms
    | None =>
        room = makeRoom (freshRoomId now rnd) /\
        rooms_get (freshRoomId now rnd) rooms' = Some room /\
        (rooms_get (freshRoomId now rnd) rooms = None -> rooms' = rooms ++ [room])
    end /\
    exists joined,
      handleJoin now rnd uuid rooms =
        (rooms_set joined rooms', Joined (Room.id room) uuid (occupants room)) /\
      Room.players joined =
        players_set
          (Player.mk uuid (occupants room) 5 0
             (if Nat.eqb (occupants room) 0 then 120 else 880)%float 480%float
             (if Nat.eqb (occupants room) 0 then "#4c9dff" else "#ff5b8a")%string
             (if Nat.eqb (occupants room) 0 then 1 else -1)
             now)
          (Room.players room) /\
      (occupants room = 0 \/ occupants room = 1)%nat /\
      Room.started joined = Nat.eqb (occupants joined) 2.
Proof.
  intros now rnd uuid rooms room rooms'.
  assert (Hj : joinable room = true).
  { subst room. unfold findOrCreateRoom.
    destruct (find joinable rooms) as [r|] eqn:Hf; simpl; [|reflexivity].
    now apply find_some in Hf. }
  apply andb_prop in Hj as [Hocc Hw]. apply Nat.ltb_lt in Hocc.
  split; [exact Hocc|]. split; [exact Hw|].
  split.
  { subst room rooms'. unfold findOrCreateRoom.
    destruct (find joinable rooms) as [r|] eqn:Hf; simpl.
    - repeat split. now apply find_some in Hf.
    - split; [reflexivity|]. split.
      + exact (dict_get_set Room.id (makeRoom (freshRoomId now rnd)) rooms).
      + intros Hn. now apply (dict_set_absent Room.id).  }
  unfold handleJoin. fold room rooms'.
  destruct (findOrCreateRoom now rnd rooms) as [r rs] eqn:Hfr. simpl in room, rooms'.
  subst room rooms'. eexists. split; [reflexivity|]. simpl. split.
  - unfold playerStartState. now destruct (Nat.eqb (occupants r) 0).
  - split; [lia | reflexivity].
Qed.

(** ** What the physics step touches *)

Lemma same_but_hp_refl p : same_but_hp p p.
Proof. now destruct p. Qed.

Lemma same_but_hp_trans p q r : same_but_hp p q -> same_but_hp q r -> same_but_hp p r.
Proof. unfold same_but_hp. intros -> ->. reflexivity. Qed.

Lemma Forall2_same_but_hp_refl ps : Forall2 same_but_hp ps ps.
Proof. induction ps; constructor; auto using same_but_hp_refl. Qed.

Lemma Forall2_same_but_hp_trans ps qs rs :
  Forall2 same_but_hp ps qs -> Forall2 same_but_hp qs rs -> Forall2 same_but_hp ps rs.
Proof.
  intros H. revert rs. induction H; intros rs Hq; inversion Hq; subst; constructor;
    eauto using same_but_hp_trans.
Qed.

Lemma hitScan_Some now lastHitAt proj targets hit players :
  hitScan now lastHitAt proj targets = Some (hit, players) ->
  Forall2 same_but_hp targets players /\
  hpTotal players = hpTotal targets - 1 /\
  now - lastHitAt > HIT_COOLDOWN_MS /\
  In hit players /\
  (forall p, In p players -> p = hit \/ In p targets).
Proof.
  revert hit players. induction targets as [|t rest IH]; simpl; [discriminate|].
  intros hit players.
  assert (Hskip :
    option_map (fun '(t0, ps) => (t0, t :: ps)) (hitScan now lastHitAt proj rest)
      = Some (hit, players) ->
    Forall2 same_but_hp (t :: rest) players /\
    hpTotal players = Player.hp t + hpTotal rest - 1 /\
    now - lastHitAt > HIT_COOLDOWN_MS /\ In hit players /\
    (forall p, In p players -> p = hit \/ In p (t :: rest))).
  { destruct (hitScan now lastHitAt proj rest) as [[h ps]|]; simpl; [|discriminate].
    intros [= <- <-]. destruct (IH _ _ eq_refl) as (H1 & H2 & H3 & H4 & H5).
    repeat split; auto.
    - constructor; auto using same_but_hp_refl.
    - simpl. lia.
    - now right.
    - intros p [<-|Hp]; [right; now left|]. destruct (H5 p Hp); [now left | right; now right]. }
  destruct (ownedBy t proj || (Player.hp t <=? 0)); [exact Hskip|].
  destruct (collides t proj); simpl; [|exact Hskip].
  destruct (Z.gtb_spec (now - lastHitAt) HIT_COOLDOWN_MS) as [Hcd|Hcd]; [|exact Hskip].
  intros [= <- <-]. repeat split.
  - constructor; [reflexivity | apply Forall2_same_but_hp_refl].
  - simpl. lia.
  - lia.
  - now left.
  - intros p [<-|Hp]; [now left | right; now right].
Qed.

(** One callback either leaves the room alone or applies exactly one hit. *)
Lemma filterCallback_effect now room proj :
  let room' := fst (filterCallback now room proj) in
  Forall2 same_but_hp (Room.players room) (Room.players room') /\
  Room.id room' = Room.id room /\
  Room.projectiles room' = Room.projectiles room /\
  Room.started room' = Room.started room /\
  (losers_have_winner room -> losers_have_winner room') /\
  (Room.winner room <> None -> Room.winner room' <> None) /\
  ((room' = room) \/
   (hpTotal (Room.players room') = hpTotal (Room.players room) - 1 /\
    Room.lastHitAt room' = now /\
    now - Room.lastHitAt room > HIT_COOLDOWN_MS)).
Proof.
  unfold filterCallback.
  assert (Hsame : Forall2 same_but_hp (Room.players room) (Room.players room) /\
                  Room.id room = Room.id room /\
                  Room.projectiles room = Room.projectiles room /\
                  Room.started room = Room.started room /\
                  (losers_have_winner room -> losers_have_winner room) /\
                  (Room.winner room <> None -> Room.winner room <> None) /\
                  (room = room \/
                   hpTotal (Room.players room) = hpTotal (Room.players room) - 1 /\
                   Room.lastHitAt room = now /\
                   now - Room.lastHitAt room > HIT_COOLDOWN_MS))
    by (repeat split; auto using Forall2_same_but_hp_refl).
  destruct (expired now (integrate proj)); [exact Hsame|].
  destruct (outOfBounds (integrate proj)); [exact Hsame|].
  destruct (hitScan now (Room.lastHitAt room) (integrate proj) (Room.players room))
    as [[hit ps]|] eqn:Hs; [|exact Hsame].
  apply hitScan_Some in Hs as (H1 & H2 & H3 & H4 & H5). cbv zeta.
  destruct (Z.leb_spec (Player.hp hit) 0) as [Hhp|Hhp]; simpl;
    (split; [exact H1|]); repeat split; auto; try discriminate.
  intros Hl p Hp Hle. apply (Hl p); auto.
  destruct (H5 p Hp) as [->|]; [lia | assumption].
Qed.

Lemma filterProjectiles_effect now projs : forall room,
  let room' := fst (filterProjectiles now room projs) in
  Forall2 same_but_hp (Room.players room) (Room.players room') /\
  Room.id room' = Room.id room /\
  Room.projectiles room' = Room.projectiles room /\
  Room.started room' = Room.started room /\
  (losers_have_winner room -> losers_have_winner room') /\
  (Room.winner room <> None -> Room.winner room' <> None) /\
  ((hpTotal (Room.players room') = hpTotal (Room.players room) /\
    Room.lastHitAt room' = Room.lastHitAt room) \/
   (hpTotal (Room.players room') = hpTotal (Room.players room) - 1 /\
    Room.lastHitAt room' = now /\
    now - Room.lastHitAt room > HIT_COOLDOWN_MS)).
Proof.
  induction projs as [|proj rest IH]; intros room; simpl.
  - repeat split; auto using Forall2_same_but_hp_refl.
  - pose proof (filterCallback_effect now room proj) as Hc.
    destruct (filterCallback now room proj) as [r1 kept]. simpl in Hc.
    specialize (IH r1).
    destruct (filterProjectiles now r1 rest) as [r2 keptRest]. simpl in *.
    destruct Hc as (C1 & C2 & C3 & C4 & C5 & C6 & C7).
    destruct IH as (I1 & I2 & I3 & I4 & I5 & I6 & I7).
    split; [eauto using Forall2_same_but_hp_trans|].
    repeat (split; [congruence || auto|]).
    unfold HIT_COOLDOWN_MS in *.
    destruct C7 as [->|(Ha & Hb & Hc)]; [exact I7|].
    destruct I7 as [(Hd & He)|(Hd & He & Hf)]; [right; repeat split; lia|].
    lia.
Qed.

Lemma physics_effect now room :
  let room' := physics now room in
  Forall2 same_but_hp (Room.players room) (Room.players room') /\
  Room.id room' = Room.id room /\
  Room.started room' = Room.started room /\
  (losers_have_winner room -> losers_have_winner room') /\
  (no_winner room = false -> room' = room) /\
  ((hpTotal (Room.players room') = hpTotal (Room.players room) /\
    Room.lastHitAt room' = Room.lastHitAt room) \/
   (hpTotal (Room.players room') = hpTotal (Room.players room) - 1 /\
    Room.lastHitAt room' = now /\
    now - Room.lastHitAt room > HIT_COOLDOWN_MS)).
Proof.
  unfold physics.
  destruct (Room.started room) eqn:Hst; simpl.
  2:{ repeat split; auto using Forall2_same_but_hp_refl. }
  destruct (no_winner room) eqn:Hw; simpl.
  2:{ repeat split; auto using Forall2_same_but_hp_refl. }
  pose proof (filterProjectiles_effect now (Room.projectiles room) room) as H.
  destruct (filterProjectiles now room (Room.projectiles room)) as [r kept]. simpl in *.
  destruct H as (H1 & H2 & H3 & H4 & H5 & H6 & H7).
  repeat split; auto; congruence.
Qed.
(** ** Liveness sweep and session rebuild *)


Lemma rebuildFrom_length now players : forall index,
  List.length (rebuildFrom now index players) = List.length players.
Proof. induction players; intros; simpl; auto. Qed.

Lemma sweep_In now players p :
  In p (sweep now players) <-> In p players /\ now - Player.lastSeenAt p <= 30000.
Proof.
  unfold sweep, stale. rewrite filter_In.
  destruct (Z.gtb_spec (now - Player.lastSeenAt p) 30000); simpl; intuition (try lia; discriminate).
Qed.

Lemma prepareRoom_spec now room :
  prepareRoom now room =
  match sweep now (Room.players room) with
  | [] => None
  | survivors =>
      Some (Room.mk (Room.id room) (rebuild now survivors) (Room.projectiles room)
              (Room.lastHitAt room) (Nat.eqb (List.length survivors) 2) (Room.winner room))
  end.
Proof.
  unfold prepareRoom, dict_keys. simpl. rewrite length_map.
  now destruct (sweep now (Room.players room)).
Qed.

Lemma tick_In now rooms room' :
  In room' (tick now rooms) <-> exists room, In room rooms /\ tickRoom now room = Some room'.
Proof.
  induction rooms as [|r rest IH]; simpl.
  - split; [intros [] | intros (? & [] & _)].
  - destruct (tickRoom now r) as [r'|] eqn:Ht; simpl; rewrite IH; split.
    + intros [<-|(x & Hx & Hr)]; eauto.
    + intros (x & [<-|Hx] & Hr); [left; congruence | right; eauto].
    + intros (x & Hx & Hr); eauto.
    + intros (x & [<-|Hx] & Hr); [congruence | eauto].
Qed.

(** C9: a sweep removes from a room exactly the sessions last seen more than
    30 s ago; a room left without sessions is dropped from the registry, and
    no other; a single survivor is rewritten to slot 0 at the left spawn
    point, keeping its hp and last-seen timestamp. *)
Theorem sweep_drops_stale_sessions :
  forall now room rooms,
    (forall p, In p (sweep now (Room.players room)) <->
               In p (Room.players room) /\ now - Player.lastSeenAt p <= 30000) /\
    (tickRoom now room = None <-> sweep now (Room.players room) = []) /\
    (forall room', tickRoom now room = Some room' ->
       Room.id room' = Room.id room /\
       map Player.id (Room.players room') = map Player.id (sweep now (Room.players room))) /\
    (forall room', In room' (tick now rooms) <->
       exists r, In r rooms /\ tickRoom now r = Some room') /\
    (forall p, sweep now (Room.players room) = [p] ->
       exists room',
         tickRoom now room = Some room' /\
         Room.started room' = false /\
         Room.players room' =
           [Player.mk (Player.id p) 0 (Player.hp p) 0 120 480 "#4c9dff" 1
              (Player.lastSeenAt p)]).
Proof.
  intros now room rooms. split; [apply sweep_In|]. split; [|split; [|split]].
  - unfold tickRoom. rewrite prepareRoom_spec.
    destruct (sweep now (Room.players room)); simpl; split; congruence.
  - intros room'. unfold tickRoom. rewrite prepareRoom_spec.
    destruct (sweep now (Room.players room)) as [|p ps] eqn:Hs; simpl; [discriminate|].
    intros [= <-]. set (r := Room.mk _ _ _ _ _ _).
    destruct (physics_effect now r) as (H1 & H2 & _). split; [exact H2|].
    assert (Hids : forall qs qs', Forall2 same_but_hp qs qs' ->
                                  map Player.id qs' = map Player.id qs).
    { induction 1 as [|a b ? ? Hab]; simpl; [reflexivity|]. rewrite Hab. simpl. congruence. }
    rewrite (Hids _ _ H1). subst r. simpl.
    assert (Hr : forall qs index, map Player.id (rebuildFrom now index qs) = map Player.id qs).
    { induction qs; intros; simpl; congruence. }
    apply (Hr (p :: ps) 0%nat).
  - apply tick_In.
  - intros p Hp. unfold tickRoom. rewrite prepareRoom_spec, Hp. simpl.
    eexists. split; [reflexivity|]. split; reflexivity.
Qed.

Lemma sweep_drops_stale_sessions_witness :
  let room := Room.mk "r" [playerStartState "A" 0 1000; playerStartState "B" 1 40000]
                [] 0 true None in
  sweep 50000 (Room.players room) = [playerStartState "B" 1 40000] /\
  exists room',
    tickRoom 50000 room = Some room' /\
    Room.started room' = false /\
    Room.players room' = [Player.mk "B" 0 5 0 120 480 "#4c9dff" 1 40000].
Proof.
  intros room. split; [reflexivity|].
  exact (proj2 (proj2 (proj2 (proj2 (sweep_drops_stale_sessions 50000 room []))))
           (playerStartState "B" 1 40000) eq_refl).
Defined.


(** ** Ids are keys *)

Lemma dict_set_length_le {V : Type} (key : V -> string) v (d : list V) :
  (List.length (dict_set key v d) <= S (List.length d))%nat.
Proof.
  induction d as [|v' d IH]; simpl; [lia|].
  destruct (String.eqb (key v) (key v')); simpl; lia.
Qed.

Lemma Forall_dict_set {V : Type} (key : V -> string) (P : V -> Prop) v (d : list V) :
  P v -> Forall P d -> Forall P (dict_set key v d).
Proof.
  intros Hv Hd. apply Forall_forall. intros w Hw.
  apply dict_set_In in Hw as [->|Hw]; [assumption|].
  now apply (proj1 (Forall_forall _ _) Hd).
Qed.

Lemma Forall2_length_eq {A B} (R : A -> B -> Prop) l l' :
  Forall2 R l l' -> List.length l = List.length l'.
Proof. induction 1; simpl; congruence. Qed.

Section KeyFacts.
Context {V : Type} (key : V -> string).

Lemma dict_get_None k (d : list V) : dict_get key k d = None -> ~ In k (dict_keys key d).
Proof.
  induction d as [|v d IH]; simpl; [tauto|].
  destruct (String.eqb_spec k (key v)); [discriminate|].
  intros H [Hk|Hk]; [congruence | now apply IH].
Qed.

Lemma dict_set_keys v (d : list V) :
  dict_keys key (dict_set key v d) =
  match dict_get key (key v) d with
  | Some _ => dict_keys key d
  | None => dict_keys key d ++ [key v]
  end.
Proof.
  induction d as [|v' d IH]; simpl; [reflexivity|].
  destruct (String.eqb_spec (key v) (key v')) as [Hk|Hk]; simpl; [now rewrite Hk|].
  rewrite IH. now destruct (dict_get key (key v) d).
Qed.

Lemma dict_set_NoDup v (d : list V) :
  NoDup (dict_keys key d) -> NoDup (dict_keys key (dict_set key v d)).
Proof.
  intros Hd. rewrite dict_set_keys.
  destruct (dict_get key (key v) d) eqn:Hg; [assumption|].
  apply dict_get_None in Hg.
  apply NoDup_app; [assumption | constructor; [intros [] | constructor]|].
  intros x Hx [<-|[]]. contradiction.
Qed.

Lemma dict_get_stored (d : list V) v :
  NoDup (dict_keys key d) -> In v d -> dict_get key (key v) d = Some v.
Proof.
  induction d as [|v' d IH]; simpl; [intros _ []|].
  intros Hnd [->|Hin]; [now rewrite String.eqb_refl|].
  inversion Hnd as [|? ? Hnotin Hnd']; subst.
  destruct (String.eqb_spec (key v) (key v')) as [Hk|Hk]; [|auto].
  exfalso. apply Hnotin. rewrite <- Hk. now apply in_map.
Qed.

Lemma dict_get_set_other k v (d : list V) :
  k <> key v -> dict_get key k (dict_set key v d) = dict_get key k d.
Proof.
  intros Hk. induction d as [|v' d IH]; simpl.
  - destruct (String.eqb_spec k (key v)); [contradiction | reflexivity].
  - destruct (String.eqb_spec (key v) (key v')) as [He|He]; simpl.
    + destruct (String.eqb_spec k (key v)); [contradiction|].
      destruct (String.eqb_spec k (key v')); [congruence | reflexivity].
    + now rewrite IH.
Qed.

Lemma dict_set_In_self v (d : list V) : In v (dict_set key v d).
Proof.
  induction d as [|v' d IH]; simpl; [now left|].
  destruct (String.eqb (key v) (key v')); simpl; auto.
Qed.
End KeyFacts.

Lemma NoDup_map_filter {A B} (f : A -> B) (g : A -> bool) l :
  NoDup (map f l) -> NoDup (map f (filter g l)).
Proof.
  induction l as [|a l IH]; simpl; [auto|].
  intros Hnd. inversion Hnd as [|? ? Hnotin Hnd']; subst.
  destruct (g a); simpl; [|auto]. constructor; [|auto].
  intros Hin. apply Hnotin. apply in_map_iff in Hin as (x & Hx & Hin).
  apply filter_In in Hin as [Hin _]. rewrite <- Hx. now apply in_map.
Qed.

Lemma same_but_hp_ids ps ps' :
  Forall2 same_but_hp ps ps' -> map Player.id ps' = map Player.id ps.
Proof. induction 1 as [|a b ? ? Hab]; simpl; [reflexivity|]. rewrite Hab. simpl. congruence. Qed.

Lemma rebuildFrom_ids now players : forall index,
  map Player.id (rebuildFrom now index players) = map Player.id players.
Proof. induction players; intros; simpl; congruence. Qed.

(** The sessions a tick leaves in a room are the survivors of the sweep, in
    key order. *)
Lemma tickRoom_ids now room room' :
  tickRoom now room = Some room' ->
  Room.id room' = Room.id room /\
  map Player.id (Room.players room') = map Player.id (sweep now (Room.players room)).
Proof.
  unfold tickRoom. rewrite prepareRoom_spec.
  destruct (sweep now (Room.players room)) as [|p ps] eqn:Hs; simpl; [discriminate|].
  intros [= <-]. set (r := Room.mk _ _ _ _ _ _).
  destruct (physics_effect now r) as (H1 & H2 & _). split; [exact H2|].
  rewrite (same_but_hp_ids _ _ H1). subst r. simpl Room.players.
  apply (rebuildFrom_ids now (p :: ps) 0%nat).
Qed.

Lemma tick_keys now rooms :
  NoDup (dict_keys Room.id rooms) -> NoDup (dict_keys Room.id (tick now rooms)).
Proof.
  induction rooms as [|r rest IH]; simpl; [auto|].
  intros Hnd. inversion Hnd as [|? ? Hnotin Hnd']; subst.
  destruct (tickRoom now r) as [r'|] eqn:Ht; simpl; [|auto].
  constructor; [|auto]. intros Hin. apply Hnotin.
  apply in_map_iff in Hin as (x & Hx & Hin). apply tick_In in Hin as (y & Hy & Hty).
  apply tickRoom_ids in Ht as [Hid _]. apply tickRoom_ids in Hty as [Hid' _].
  unfold dict_keys. apply in_map_iff. exists y. split; [congruence | assumption].
Qed.

Lemma rooms_set_keys_ok room rooms :
  NoDup (dict_keys Player.id (Room.players room)) ->
  keys_ok rooms -> keys_ok (rooms_set room rooms).
Proof.
  intros Hr [Hk Hp]. split.
  - now apply dict_set_NoDup.
  - now apply (Forall_dict_set Room.id).
Qed.

(** ** Requests that touch a room *)

(** A state or fire request leaves the registry alone or rewrites one room
    of it, with at most one session touched and at most one projectile
    more. *)
Lemma request_effect {E : Engine} w ev :
  match ev with GetState _ _ _ | Fire _ _ _ _ _ => True | _ => False end ->
  snd (step w ev) = snd w \/
  exists room room',
    In room (snd w) /\ touched room room' /\
    snd (step w ev) = rooms_set room' (snd w) /\
    (Room.projectiles room' = Room.projectiles room \/
     exists q, Room.projectiles room' = Room.projectiles room ++ [q]).
Proof.
  rewrite step_rooms. destruct w as [inh rooms].
  destruct ev as [| now roomId playerId | now roomId playerId power angle | |];
    try contradiction; intros _; simpl fst; simpl snd.
  - destruct (handleState_effect now roomId playerId inh rooms)
      as [->|(room & player & Hr & Hp & Ht & -> & Htouch & Hproj)]; [now left|].
    right. exists room. eexists. split; [exact (dict_get_In Room.id _ _ _ Hr)|].
    split; [exact Htouch|]. split; [reflexivity|]. now left.
  - destruct (handleFire_effect now roomId playerId power angle inh rooms)
      as [->|(room & room' & key & player & p & a & Hr & Hk & Hp & Ht & -> & Htouch & Hproj)];
      [now left|].
    right. exists room, room'. split; [exact (rooms_lookup_In _ _ _ Hr)|].
    split; [exact Htouch|]. split; [reflexivity|]. right. eauto.
Qed.

(** The sessions of a touched room: the same keys in the same order, each
    with the hp, slot, place, facing and colour it had. *)
Lemma touched_sessions room room' :
  touched room room' ->
  dict_keys Player.id (Room.players room') = dict_keys Player.id (Room.players room) /\
  forall p', In p' (Room.players room') ->
    exists p, In p (Room.players room) /\
      Player.id p' = Player.id p /\ Player.hp p' = Player.hp p /\
      Player.slot p' = Player.slot p /\ Player.x p' = Player.x p /\
      Player.y p' = Player.y p /\ Player.facing p' = Player.facing p /\
      Player.color p' = Player.color p.
Proof.
  intros (_ & _ & _ & _ & [->|(p & p' & Hget & -> & Hid & Hrest)]).
  - split; [reflexivity|]. intros p' Hin. exists p'. repeat split; auto.
  - split.
    + unfold players_set. rewrite dict_set_keys, Hid.
      unfold players_get in Hget. now rewrite Hget.
    + intros q Hin. apply dict_set_In in Hin as [->|Hin].
      * exists p. split; [exact (dict_get_In Player.id _ _ _ Hget)|]. split; [exact Hid|].
        exact Hrest.
      * exists q. repeat split; auto.
Qed.

Lemma touched_occupants room room' :
  touched room room' -> occupants room' = occupants room.
Proof.
  intros H. apply touched_sessions in H as [Hk _]. unfold occupants.
  apply (f_equal (@List.length string)) in Hk. unfold dict_keys in Hk.
  now rewrite !length_map in Hk.
Qed.

(** ** Room invariants *)

Lemma losers_ext room room' :
  Room.winner room' = Room.winner room ->
  (forall p', In p' (Room.players room') ->
     exists p, In p (Room.players room) /\ Player.hp p = Player.hp p') ->
  losers_have_winner room -> losers_have_winner room'.
Proof.
  intros Hw Hp Hl p' Hin Hle. rewrite Hw.
  destruct (Hp p' Hin) as (p & Hin' & Hhp). apply (Hl p Hin'). lia.
Qed.

Lemma rooms_set_ok room rooms :
  room_ok room -> Forall room_ok rooms -> Forall room_ok (rooms_set room rooms).
Proof.
  intros Hr Hf. apply Forall_forall. intros w Hw.
  apply dict_set_In in Hw as [->|Hw]; [assumption|].
  now apply (proj1 (Forall_forall _ _) Hf).
Qed.

(** A touched room keeps what [room_ok] asks. *)
Lemma touched_ok room room' projectiles :
  room_ok room -> touched room room' ->
  room_ok (Room.set_projectiles projectiles room').
Proof.
  intros [Hs Hl] Ht. pose proof (touched_occupants _ _ Ht) as Hocc.
  pose proof (touched_sessions _ _ Ht) as [_ Hsess].
  destruct Ht as (_ & _ & Hst & Hw & _). split.
  - simpl. rewrite Hst, Hs. change (occupants (Room.set_projectiles projectiles room'))
      with (occupants room'). now rewrite Hocc.
  - apply (losers_ext room); [exact Hw | | exact Hl]. simpl. intros p' Hin.
    destruct (Hsess p' Hin) as (p & Hp & _ & Hhp & _). exists p. split; [exact Hp | now symmetry].
Qed.

Lemma set_projectiles_same room : Room.set_projectiles (Room.projectiles room) room = room.
Proof. now destruct room. Qed.

Lemma makeRoom_ok id : room_ok (makeRoom id).
Proof. split; [reflexivity|]. intros p []. Qed.

Lemma findOrCreateRoom_ok now rnd rooms :
  Forall room_ok rooms ->
  room_ok (fst (findOrCreateRoom now rnd rooms)) /\
  Forall room_ok (snd (findOrCreateRoom now rnd rooms)).
Proof.
  intros Hf. unfold findOrCreateRoom.
  destruct (find joinable rooms) as [r|] eqn:Hfind; simpl.
  - apply find_some in Hfind as [Hin Hj]. split; [|assumption].
    now apply (proj1 (Forall_forall _ _) Hf).
  - split; [apply makeRoom_ok|].
    apply rooms_set_ok; [apply makeRoom_ok | assumption].
Qed.

Lemma handleJoin_ok now rnd uuid rooms :
  Forall room_ok rooms -> Forall room_ok (fst (handleJoin now rnd uuid rooms)).
Proof.
  intros Hf. unfold handleJoin.
  destruct (findOrCreateRoom_ok now rnd rooms Hf) as ([_ Hl] & Hrs).
  destruct (findOrCreateRoom now rnd rooms) as [r rs]. simpl in *.
  apply rooms_set_ok; [|assumption]. split; [reflexivity|].
  intros p Hin Hle. simpl in Hin.
  apply dict_set_In in Hin as [->|Hin]; [simpl in Hle; unfold START_HP in Hle; lia|].
  simpl. exact (Hl p Hin Hle).
Qed.

Lemma handleRestart_ok now roomId rooms :
  Forall room_ok rooms -> Forall room_ok (fst (handleRestart now roomId rooms)).
Proof.
  intros Hf. unfold handleRestart.
  destruct (rooms_lookup roomId rooms) as [room|] eqn:Hr; [|assumption].
  simpl. apply rooms_set_ok; [|assumption]. split; [reflexivity|].
  intros p Hin Hle. simpl in Hin. apply in_map_iff in Hin as (q & <- & _).
  simpl in Hle. unfold START_HP in Hle. lia.
Qed.

Lemma rebuildFrom_In now players : forall index p',
  In p' (rebuildFrom now index players) ->
  exists p, In p players /\ Player.hp p = Player.hp p'.
Proof.
  induction players as [|q rest IH]; intros index p'; simpl; [intros []|].
  intros [<-|Hin]; [exists q; split; [now left | reflexivity]|].
  destruct (IH _ _ Hin) as (p & Hp & Hhp). exists p. split; [now right | assumption].
Qed.

Lemma tickRoom_ok now room room' :
  room_ok room -> tickRoom now room = Some room' -> room_ok room'.
Proof.
  intros [_ Hl]. unfold tickRoom. rewrite prepareRoom_spec.
  destruct (sweep now (Room.players room)) as [|p ps] eqn:Hs; simpl; [discriminate|].
  intros [= <-]. set (r := Room.mk _ _ _ _ _ _).
  assert (Hr : room_ok r).
  { split.
    - subst r. unfold occupants, rebuild. simpl. now rewrite rebuildFrom_length.
    - eapply losers_ext; [| |exact Hl]; [reflexivity|]. subst r. simpl Room.players.
      intros p' Hin. apply rebuildFrom_In in Hin as (q & Hq & Hhp).
      exists q. split; [|assumption]. rewrite <- Hs in Hq. now apply sweep_In in Hq. }
  destruct (physics_effect now r) as (H1 & _ & H3 & H4 & _).
  destruct Hr as [Hst Hlo]. split; [|auto].
  rewrite H3, Hst. unfold occupants. now rewrite (Forall2_length_eq _ _ _ H1).
Qed.

Lemma tick_ok now rooms : Forall room_ok rooms -> Forall room_ok (tick now rooms).
Proof.
  intros Hf. apply Forall_forall. intros room' Hin.
  apply tick_In in Hin as (room & Hin & Ht).
  eapply tickRoom_ok; [|exact Ht]. now apply (proj1 (Forall_forall _ _) Hf).
Qed.

Lemma step_ok {E : Engine} w ev :
  Forall room_ok (snd w) -> Forall room_ok (snd (step w ev)).
Proof.
  intros Hf.
  assert (Hreq : match ev with GetState _ _ _ | Fire _ _ _ _ _ => True | _ => False end ->
                 Forall room_ok (snd (step w ev))).
  { intros Hm.
    destruct (request_effect w ev Hm) as [->|(room & room' & Hin & Ht & -> & _)];
      [assumption|].
    apply rooms_set_ok; [|assumption]. rewrite <- (set_projectiles_same room').
    apply (touched_ok room); [now apply (proj1 (Forall_forall _ _) Hf) | exact Ht]. }
  destruct ev; try (apply Hreq; exact I); rewrite step_rooms;
    auto using handleJoin_ok, handleRestart_ok, tick_ok.
Qed.

Lemma reachable_ok {E : Engine} rooms : reachable rooms -> Forall room_ok rooms.
Proof.
  apply (reachable_induction (Forall room_ok)); [constructor|].
  intros w ev _. apply step_ok.
Qed.

(** ** Shape of a hit *)

Lemma hitScan_split now lastHitAt proj targets : forall hit players,
  hitScan now lastHitAt proj targets = Some (hit, players) ->
  exists before target after,
    targets = before ++ target :: after /\
    players = before ++ hit :: after /\
    hit = Player.set_hp (Player.hp target - 1) target /\
    ownedBy target proj = false /\
    0 < Player.hp target /\
    now - lastHitAt > 900.
Proof.
  induction targets as [|t rest IH]; simpl; [discriminate|].
  intros hit players.
  assert (Hskip :
    option_map (fun '(t0, ps) => (t0, t :: ps)) (hitScan now lastHitAt proj rest)
      = Some (hit, players) ->
    exists before target after,
      t :: rest = before ++ target :: after /\
      players = before ++ hit :: after /\
      hit = Player.set_hp (Player.hp target - 1) target /\
      ownedBy target proj = false /\
      0 < Player.hp target /\ now - lastHitAt > 900).
  { destruct (hitScan now lastHitAt proj rest) as [[h ps]|]; simpl; [|discriminate].
    intros [= <- <-]. destruct (IH _ _ eq_refl) as (b & tg & a & -> & -> & H).
    exists (t :: b), tg, a. auto. }
  destruct (ownedBy t proj) eqn:Hid; simpl; [exact Hskip|].
  destruct (Z.leb_spec (Player.hp t) 0) as [Hhp|Hhp]; simpl; [exact Hskip|].
  destruct (collides t proj); simpl; [|exact Hskip].
  destruct (Z.gtb_spec (now - lastHitAt) HIT_COOLDOWN_MS) as [Hcd|Hcd]; [|exact Hskip].
  intros [= <- <-]. exists [], t, rest. unfold HIT_COOLDOWN_MS in Hcd.
  repeat split; auto; lia.
Qed.

(** A property of the session list that every hit keeps is kept by the
    whole physics step. *)
Lemma physics_players_preserve (P : list Player.t -> Prop) :
  (forall now lastHitAt proj targets hit ps,
      P targets -> hitScan now lastHitAt proj targets = Some (hit, ps) -> P ps) ->
  forall now room, P (Room.players room) -> P (Room.players (physics now room)).
Proof.
  intros Hhit now.
  assert (Hcb : forall room proj,
             P (Room.players room) -> P (Room.players (fst (filterCallback now room proj)))).
  { intros room proj HP. unfold filterCallback.
    destruct (expired now (integrate proj)); [exact HP|].
    destruct (outOfBounds (integrate proj)); [exact HP|].
    destruct (hitScan now (Room.lastHitAt room) (integrate proj) (Room.players room))
      as [[hit ps]|] eqn:Hs; [|exact HP].
    cbv zeta. destruct (Player.hp hit <=? 0); simpl; eapply Hhit; eauto. }
  assert (Hfp : forall projs room,
             P (Room.players room) ->
             P (Room.players (fst (filterProjectiles now room projs)))).
  { induction projs as [|proj rest IH]; intros room HP; simpl; [exact HP|].
    specialize (Hcb room proj HP).
    destruct (filterCallback now room proj) as [r1 kept]. simpl in Hcb.
    specialize (IH r1 Hcb). now destruct (filterProjectiles now r1 rest). }
  intros room HP. unfold physics.
  destruct (negb (Room.started room) || negb (no_winner room)); [exact HP|].
  specialize (Hfp (Room.projectiles room) room HP).
  now destruct (filterProjectiles now room (Room.projectiles room)).
Qed.

Lemma filterCallback_Some now room proj q :
  snd (filterCallback now room proj) = Some q ->
  q = integrate proj /\ expired now q = false /\ outOfBounds q = false.
Proof.
  unfold filterCallback.
  destruct (expired now (integrate proj)) eqn:He; [discriminate|].
  destruct (outOfBounds (integrate proj)) eqn:Ho; [discriminate|].
  destruct (hitScan _ _ _ _) as [[hit ps]|]; [discriminate|].
  simpl. intros [= <-]. auto.
Qed.

Lemma filterProjectiles_kept now projs : forall room,
  (List.length (snd (filterProjectiles now room projs)) <= List.length projs)%nat /\
  forall q, In q (snd (filterProjectiles now room projs)) ->
    exists p, In p projs /\ q = integrate p /\
              expired now q = false /\ outOfBounds q = false.
Proof.
  induction projs as [|proj rest IH]; intros room; simpl.
  - split; [lia | intros q []].
  - pose proof (filterCallback_Some now room proj) as Hc.
    destruct (filterCallback now room proj) as [r1 kept]. simpl in Hc.
    specialize (IH r1). destruct (filterProjectiles now r1 rest) as [r2 keptRest].
    simpl in *. destruct IH as [Hlen Hin]. destruct kept as [q0|]; simpl.
    + split; [lia|]. intros q [<-|Hq].
      * destruct (Hc q0 eq_refl) as (-> & H). exists proj. auto.
      * destruct (Hin q Hq) as (p & Hp & H). exists p. auto.
    + split; [lia|]. intros q Hq. destruct (Hin q Hq) as (p & Hp & H). exists p. auto.
Qed.

(** ** Session ids, owners and winners *)

Lemma uuidFrom_length s : forall i, uuidFrom i s = true -> (i + String.length s = 36)%nat.
Proof.
  induction s as [|c s IH]; intros i; simpl.
  - intros H. apply Nat.eqb_eq in H. lia.
  - intros H. apply andb_prop in H as [_ H]. apply IH in H. lia.
Qed.

Lemma isUUID_length s : isUUID s = true -> String.length s = 36%nat.
Proof. intros H. exact (uuidFrom_length s 0 H). Qed.

(** A key that is not 36 characters long finds no session among sessions
    named by UUIDs. *)
Lemma players_get_short players key :
  Forall (fun p => isUUID (Player.id p) = true) players ->
  String.length key <> 36%nat ->
  players_get key players = None.
Proof.
  intros Hf Hlen. destruct (players_get key players) as [p|] eqn:Hp; [|reflexivity].
  exfalso. apply Hlen. rewrite <- (dict_get_key Player.id _ _ _ Hp).
  apply isUUID_length. apply (proj1 (Forall_forall _ _) Hf).
  exact (dict_get_In Player.id _ _ _ Hp).
Qed.

(** Among sessions named by UUIDs, a [playerId] under which
    [room.players] holds or inherits something is a truthy value. *)
Lemma found_playerId_truthy {E : Engine} inh players playerId key player :
  Forall (fun p => isUUID (Player.id p) = true) players ->
  ToPropertyKey playerId = Some key ->
  lookupPlayer inh players key = Some player ->
  truthy playerId = true.
Proof.
  intros Hf Hk Hl.
  assert (Hshort : forall k, String.length k <> 36%nat ->
                             lookupPlayer inh players k = Some player ->
                             players_get k players = None)
    by (intros k Hlen _; now apply players_get_short).
  assert (Hno : forall k, String.length k <> 36%nat ->
                          (if String.eqb k "__proto__" then true
                           else if existsb (String.eqb k) prototypeMethods then true
                           else if String.eqb k "cooldownUntil" then true
                           else String.eqb k "lastSeenAt") = false ->
                          lookupPlayer inh players k <> Some player).
  { intros k Hlen Hnone Hfound. pose proof (Hshort k Hlen Hfound) as Hn.
    unfold lookupPlayer in Hfound. rewrite Hn in Hfound.
    destruct (String.eqb k "__proto__"); [discriminate|].
    destruct (existsb (String.eqb k) prototypeMethods); [discriminate|].
    destruct (String.eqb k "cooldownUntil"); [discriminate|].
    rewrite Hnone in Hfound. discriminate. }
  destruct playerId as [| |[|]|f|s|prim]; simpl in *; try reflexivity; injection Hk as <-.
  - exfalso. apply (Hno "undefined"%string); [simpl; lia | reflexivity | exact Hl].
  - exfalso. apply (Hno "null"%string); [simpl; lia | reflexivity | exact Hl].
  - exfalso. apply (Hno "false"%string); [simpl; lia | reflexivity | exact Hl].
  - destruct (is_nan f) eqn:Hnan; simpl.
    { exfalso. apply (Hno "NaN"%string); [simpl; lia | reflexivity | exact Hl]. }
    destruct (is_zero f) eqn:Hz; simpl; [|reflexivity].
    exfalso. apply (Hno "0"%string); [simpl; lia | reflexivity | exact Hl].
  - destruct s as [|c s]; [|reflexivity].
    exfalso. apply (Hno EmptyString); [simpl; lia | reflexivity | exact Hl].
Qed.

Lemma rooms_set_owners room rooms :
  owners_ok room -> Forall owners_ok rooms -> Forall owners_ok (rooms_set room rooms).
Proof. apply (Forall_dict_set Room.id). Qed.

Lemma touched_ids room room' :
  touched room room' ->
  Forall (fun p => isUUID (Player.id p) = true) (Room.players room) ->
  Forall (fun p => isUUID (Player.id p) = true) (Room.players room').
Proof.
  intros Ht Hf. apply touched_sessions in Ht as [_ Hs].
  apply Forall_forall. intros p' Hin. destruct (Hs p' Hin) as (p & Hp & -> & _).
  now apply (proj1 (Forall_forall _ _) Hf).
Qed.

Lemma filterCallback_owners now room proj :
  truthy (Projectile.ownerId proj) = true ->
  (forall w, Room.winner room = Some w -> truthy w = true) ->
  forall w, Room.winner (fst (filterCallback now room proj)) = Some w -> truthy w = true.
Proof.
  intros Hq Hw. unfold filterCallback.
  destruct (expired now (integrate proj)); [exact Hw|].
  destruct (outOfBounds (integrate proj)); [exact Hw|].
  destruct (hitScan _ _ _ _) as [[hit ps]|]; [|exact Hw].
  cbv zeta. destruct (Player.hp hit <=? 0); simpl; [|exact Hw].
  now intros w [= <-].
Qed.

Lemma filterProjectiles_owners now projs : forall room,
  Forall (fun q => truthy (Projectile.ownerId q) = true) projs ->
  (forall w, Room.winner room = Some w -> truthy w = true) ->
  (forall w, Room.winner (fst (filterProjectiles now room projs)) = Some w -> truthy w = true) /\
  Forall (fun q => truthy (Projectile.ownerId q) = true)
    (snd (filterProjectiles now room projs)).
Proof.
  induction projs as [|proj rest IH]; intros room Hf Hw; simpl; [split; [exact Hw | constructor]|].
  inversion Hf as [|? ? Hq Hrest]; subst.
  pose proof (filterCallback_owners now room proj Hq Hw) as Hc.
  pose proof (filterCallback_Some now room proj) as Hk.
  destruct (filterCallback now room proj) as [r1 kept]. simpl in Hc, Hk.
  destruct (IH r1 Hrest Hc) as [I1 I2].
  destruct (filterProjectiles now r1 rest) as [r2 keptRest]. simpl in *.
  split; [exact I1|]. destruct kept as [q|]; [|exact I2].
  constructor; [|exact I2]. destruct (Hk q eq_refl) as (-> & _). exact Hq.
Qed.

Lemma tickRoom_owners now room room' :
  owners_ok room -> tickRoom now room = Some room' -> owners_ok room'.
Proof.
  intros (Hids & Hproj & Hw). unfold tickRoom. rewrite prepareRoom_spec.
  destruct (sweep now (Room.players room)) as [|p ps] eqn:Hs; simpl; [discriminate|].
  intros [= <-]. set (r := Room.mk _ _ _ _ _ _).
  assert (Hr : Forall (fun q => isUUID (Player.id q) = true) (Room.players r)).
  { apply Forall_forall. intros q Hq.
    assert (Hin : In (Player.id q) (map Player.id (p :: ps))).
    { subst r. simpl Room.players in Hq. unfold rebuild in Hq.
      rewrite <- (rebuildFrom_ids now (p :: ps) 0). now apply in_map. }
    apply in_map_iff in Hin as (q0 & Hid & Hq0). rewrite <- Hid.
    apply (proj1 (Forall_forall _ _) Hids). rewrite <- Hs in Hq0.
    now apply sweep_In in Hq0. }
  split; [|].
  - apply (physics_players_preserve (Forall (fun q => isUUID (Player.id q) = true)));
      [|exact Hr].
    intros now0 lastHitAt proj targets hit players Hf Hhit.
    apply hitScan_split in Hhit as (b & t & a & -> & -> & -> & _).
    apply Forall_app in Hf as [Hb Ha]. inversion Ha; subst.
    apply Forall_app. split; [assumption|]. constructor; assumption.
  - unfold physics. destruct (negb (Room.started r) || negb (no_winner r)); [split; assumption|].
    pose proof (filterProjectiles_owners now (Room.projectiles r) r Hproj Hw) as [H1 H2].
    destruct (filterProjectiles now r (Room.projectiles r)) as [r2 kept]. simpl in *.
    split; assumption.
Qed.

Lemma step_owners {E : Engine} w ev :
  genuine ev -> Forall owners_ok (snd w) -> Forall owners_ok (snd (step w ev)).
Proof.
  intros Hg Hf. rewrite step_rooms. destruct w as [inh rooms]. simpl fst. simpl snd in *.
  assert (Hroom : forall room, In room rooms -> owners_ok room)
    by (intros room; apply (proj1 (Forall_forall _ _) Hf)).
  destruct ev as [now rnd uuid|now roomId playerId|now roomId playerId power angle
                 |now roomId|now].
  - simpl in Hg. unfold handleJoin, findOrCreateRoom.
    destruct (find joinable rooms) as [r|] eqn:Hfind; simpl.
    + apply find_some in Hfind as [Hin _]. destruct (Hroom r Hin) as (H1 & H2 & H3).
      apply rooms_set_owners; [|assumption]. split; [|split; assumption].
      simpl. apply (Forall_dict_set Player.id); assumption.
    + apply rooms_set_owners; [|apply rooms_set_owners; [|assumption]].
      * split; [|split]; simpl; [repeat constructor; exact Hg | constructor | discriminate].
      * split; [|split]; simpl; [constructor | constructor | discriminate].
  - destruct (handleState_effect now roomId playerId inh rooms)
      as [->|(room & player & Hr & Hp & Ht & -> & Htouch & Hproj)]; [assumption|].
    simpl. apply rooms_set_owners; [|assumption].
    destruct (Hroom room (dict_get_In Room.id _ _ _ Hr)) as (H1 & H2 & H3).
    split; [exact (touched_ids _ _ Htouch H1)|]. split; [now rewrite Hproj|].
    destruct Htouch as (_ & _ & _ & -> & _). exact H3.
  - destruct (handleFire_effect now roomId playerId power angle inh rooms)
      as [->|(room & room' & key & player & p & a & Hr & Hk & Hp & Ht & -> & Htouch & Hproj)];
      [assumption|].
    apply rooms_set_owners; [|assumption].
    destruct (Hroom room (rooms_lookup_In _ _ _ Hr)) as (H1 & H2 & H3).
    split; [exact (touched_ids _ _ Htouch H1)|]. split.
    + rewrite Hproj. apply Forall_app. split; [exact H2|]. constructor; [|constructor].
      simpl. exact (found_playerId_truthy inh _ playerId key player H1 Hk Hp).
    + destruct Htouch as (_ & _ & _ & -> & _). exact H3.
  - unfold handleRestart.
    destruct (rooms_lookup roomId rooms) as [room|] eqn:Hr; [|assumption].
    simpl. apply rooms_set_owners; [|assumption].
    destruct (Hroom room (rooms_lookup_In _ _ _ Hr)) as (H1 & _).
    split; [|split]; simpl; [|constructor|discriminate].
    apply Forall_forall. intros q Hq. apply in_map_iff in Hq as (q0 & <- & Hq0).
    simpl. now apply (proj1 (Forall_forall _ _) H1).
  - apply Forall_forall. intros room' Hin. apply tick_In in Hin as (room & Hin & Ht).
    eapply tickRoom_owners; [|exact Ht]. now apply Hroom.
Qed.

Lemma reachable_owners {E : Engine} rooms : reachable rooms -> Forall owners_ok rooms.
Proof.
  apply (reachable_induction (Forall owners_ok)); [constructor|].
  intros w ev. apply step_owners.
Qed.

(** In a reachable room a winner that is set is a truthy value: the room
    counts as won. *)
Lemma reachable_winner {E : Engine} rooms room :
  reachable rooms -> In room rooms -> Room.winner room <> None -> no_winner room = false.
Proof.
  intros Hreach Hin Hw. apply reachable_owners in Hreach.
  destruct (proj1 (Forall_forall _ _) Hreach room Hin) as (_ & _ & H).
  unfold no_winner. destruct (Room.winner room) as [w|]; [|congruence].
  now rewrite (H w eq_refl).
Qed.

(** ** Winners *)

Lemma hitScan_keeps_dead now lastHitAt proj targets : forall hit players,
  hitScan now lastHitAt proj targets = Some (hit, players) ->
  forall p, In p targets -> Player.hp p <= 0 -> In p players.
Proof.
  induction targets as [|t rest IH]; simpl; [discriminate|].
  intros hit players.
  assert (Hskip :
    option_map (fun '(t0, ps) => (t0, t :: ps)) (hitScan now lastHitAt proj rest)
      = Some (hit, players) ->
    forall p, t = p \/ In p rest -> Player.hp p <= 0 -> In p players).
  { destruct (hitScan now lastHitAt proj rest) as [[h ps]|]; simpl; [|discriminate].
    intros [= <- <-] p [<-|Hp] Hle; [now left|]. right. eapply IH; eauto. }
  destruct (ownedBy t proj); simpl; [exact Hskip|].
  destruct (Z.leb_spec (Player.hp t) 0) as [Hhp|Hhp]; simpl; [exact Hskip|].
  destruct (collides t proj && (now - lastHitAt >? HIT_COOLDOWN_MS)); [|exact Hskip].
  intros [= <- <-] p [<-|Hp] Hle; [lia | now right].
Qed.

Lemma filterCallback_winner now room proj :
  winner_has_loser room -> winner_has_loser (fst (filterCallback now room proj)).
Proof.
  intros Hw. unfold filterCallback.
  destruct (expired now (integrate proj)); [exact Hw|].
  destruct (outOfBounds (integrate proj)); [exact Hw|].
  destruct (hitScan now (Room.lastHitAt room) (integrate proj) (Room.players room))
    as [[hit ps]|] eqn:Hs; [|exact Hw].
  pose proof (hitScan_keeps_dead _ _ _ _ _ _ Hs) as Hdead.
  apply hitScan_Some in Hs as (_ & _ & _ & Hin & _). cbv zeta.
  destruct (Z.leb_spec (Player.hp hit) 0) as [Hhp|Hhp]; simpl.
  - intros _. exists hit. auto.
  - intros Hne. destruct (Hw Hne) as (p & Hp & Hle). exists p. auto.
Qed.

Lemma filterProjectiles_winner now projs : forall room,
  winner_has_loser room -> winner_has_loser (fst (filterProjectiles now room projs)).
Proof.
  induction projs as [|proj rest IH]; intros room Hw; simpl; [exact Hw|].
  pose proof (filterCallback_winner now room proj Hw) as Hc.
  destruct (filterCallback now room proj) as [r1 kept]. simpl in Hc.
  specialize (IH r1 Hc). now destruct (filterProjectiles now r1 rest).
Qed.

Lemma tickRoom_winner now room room' :
  tickRoom now room = Some room' ->
  Room.winner room = None -> winner_has_loser room'.
Proof.
  unfold tickRoom. rewrite prepareRoom_spec.
  destruct (sweep now (Room.players room)) as [|p ps]; simpl; [discriminate|].
  intros [= <-] Hw. set (r := Room.mk _ _ _ _ _ _).
  assert (Hr : winner_has_loser r) by (intros Hne; subst r; simpl in Hne; congruence).
  unfold physics. destruct (negb (Room.started r) || negb (no_winner r)); [exact Hr|].
  pose proof (filterProjectiles_winner now (Room.projectiles r) r Hr) as H.
  now destruct (filterProjectiles now r (Room.projectiles r)).
Qed.

Lemma tickRoom_frozen now room room' :
  tickRoom now room = Some room' -> no_winner room = false ->
  Room.projectiles room' = Room.projectiles room /\ Room.winner room' = Room.winner room.
Proof.
  unfold tickRoom. rewrite prepareRoom_spec.
  destruct (sweep now (Room.players room)) as [|p ps]; simpl; [discriminate|].
  intros [= <-] Hw. unfold physics, no_winner in *. simpl Room.winner.
  destruct (Room.winner room) as [w|]; [|discriminate].
  rewrite Hw. simpl negb. rewrite orb_true_r. split; reflexivity.
Qed.

(** A fire request against a room that counts as won is refused without
    effect: with 400, or with 500 when [playerId] cannot be made a property
    key. *)
Lemma handleFire_winner {E : Engine} now roomId playerId power angle inh rooms room :
  rooms_lookup roomId rooms = Some room -> no_winner room = false ->
  handleFire now roomId playerId power angle inh rooms =
    ((inh, rooms),
     match ToPropertyKey playerId with Some _ => FireRejected | None => InternalError end).
Proof.
  intros Hr Hw. unfold handleFire. rewrite Hr, Hw.
  destruct (ToPropertyKey playerId) as [key|]; [|reflexivity].
  destruct (lookupPlayer inh (Room.players room) key) as [player|]; [|reflexivity].
  now rewrite orb_true_r.
Qed.

(** C3, as stated, fails in its second part: a room can have a winner while
    no session of it has [hp <= 0].  After the duel Bob is at hp 0 and Alice
    is the winner; Bob stops polling and is swept, which leaves a room with
    winner Alice whose only session has hp 5. *)
Lemma winner_outlives_loser :
  exists rooms room,
    @reachable refEngine rooms /\ In room rooms /\
    Room.winner room = Some (JString alice) /\
    map Player.hp (Room.players room) = [5] /\
    ~ (exists p, In p (Room.players room) /\ Player.hp p <= 0).
Proof.
  eexists _, _. split.
  { exists duelThenSweep. split; [|reflexivity]. apply genuine_check. vm_compute. reflexivity. }
  vm_compute. split; [left; reflexivity|]. split; [reflexivity|]. split; [reflexivity|].
  intros (p & [<-|[]] & Hle). apply Hle. reflexivity.
Qed.

(** C3, amended: in every reachable registry every room is [started] iff it
    holds exactly two sessions; a session with [hp <= 0] implies a winner,
    and a tick that sets the winner leaves a session with [hp <= 0] in the
    room; once the winner is set every fire request against the room is
    refused without effect (with 400, or with 500 when its [playerId] cannot
    be made a property key), and a tick leaves its projectile list and its
    winner as they are. *)
Theorem room_state_invariants :
  forall (E : Engine) rooms room,
    reachable rooms -> In room rooms ->
    (Room.started room = true <-> occupants room = 2%nat) /\
    ((exists p, In p (Room.players room) /\ Player.hp p <= 0) -> Room.winner room <> None) /\
    (forall now room',
        tickRoom now room = Some room' -> Room.winner room = None ->
        Room.winner room' <> None ->
        exists p, In p (Room.players room') /\ Player.hp p <= 0) /\
    (Room.winner room <> None ->
     (forall now roomId playerId power angle inh,
         rooms_lookup roomId rooms = Some room ->
         handleFire now roomId playerId power angle inh rooms =
           ((inh, rooms),
            match ToPropertyKey playerId with
            | Some _ => FireRejected
            | None => InternalError
            end)) /\
     (forall now room',
         tickRoom now room = Some room' ->
         Room.projectiles room' = Room.projectiles room /\
         Room.winner room' = Room.winner room)).
Proof.
  intros E rooms room Hreach Hin.
  pose proof (reachable_winner rooms room Hreach Hin) as Hwon.
  apply reachable_ok in Hreach.
  destruct (proj1 (Forall_forall _ _) Hreach room Hin) as [Hst Hl].
  split; [|split; [|split]].
  - rewrite Hst. apply Nat.eqb_eq.
  - intros (p & Hp & Hle). exact (Hl p Hp Hle).
  - intros now room' Ht Hw Hw'. exact (tickRoom_winner _ _ _ Ht Hw Hw').
  - intros Hw. split.
    + intros now roomId playerId power angle inh Hget.
      exact (handleFire_winner _ _ _ _ _ _ _ _ Hget (Hwon Hw)).
    + intros now room' Ht. exact (tickRoom_frozen now _ _ Ht (Hwon Hw)).
Qed.

Lemma duel_genuine : Forall genuine duel.
Proof. apply genuine_check. vm_compute. reflexivity. Qed.

Lemma duel_reachable : @reachable refEngine (@registry refEngine duel).
Proof. exists duel. split; [exact duel_genuine | reflexivity]. Qed.

Lemma duel_registry : @registry refEngine duel = [duelRoom].
Proof. vm_compute. reflexivity. Qed.

Lemma room_state_invariants_witness :
  let rooms := @registry refEngine duel in
  exists room,
    In room rooms /\
    Room.winner room = Some (JString alice) /\
    map Player.hp (Room.players room) = [5; 0] /\
    (Room.started room = true <-> occupants room = 2%nat) /\
    @handleFire refEngine 7000 (JString "room-1000-7") (JString bob) (JNumber 900)
      (JNumber (-1)) noInherited rooms
      = ((noInherited, rooms), FireRejected).
Proof.
  intros rooms.
  assert (Hin : In duelRoom rooms) by (unfold rooms; rewrite duel_registry; now left).
  exists duelRoom. split; [exact Hin|]. split; [reflexivity|]. split; [reflexivity|].
  destruct (room_state_invariants refEngine rooms duelRoom duel_reachable Hin)
    as (Hst & _ & _ & Hw).
  split; [exact Hst|].
  apply (proj1 (Hw ltac:(discriminate)) 7000 (JString "room-1000-7") (JString bob)).
  unfold rooms. rewrite duel_registry. reflexivity.
Defined.

(** ** Fire cooldown *)

(** The handler's own gate: a session's request is accepted only at or after
    its [cooldownUntil], and acceptance moves that to [now + 1500]. *)
Lemma fire_gate_and_cooldown {E : Engine} now roomId playerId power angle inh rooms w'
    room key player :
  handleFire now roomId playerId power angle inh rooms = (w', FireOk) ->
  rooms_lookup roomId rooms = Some room ->
  ToPropertyKey playerId = Some key ->
  players_get key (Room.players room) = Some player ->
  Player.cooldownUntil player <= now /\
  exists room',
    rooms_lookup roomId (snd w') = Some room' /\
    players_get key (Room.players room')
      = Some (Player.set_cooldownUntil (now + 1500) player).
Proof.
  intros H Hr Hk Hp.
  apply handleFire_ok_inv in H
    as (room0 & key0 & player0 & v & u & Hr0 & Hk0 & Hp0 & _ & _ & Hc & _ & _ & ->).
  rewrite Hr in Hr0. injection Hr0 as <-. rewrite Hk in Hk0. injection Hk0 as <-.
  rewrite (lookupPlayer_own inh _ _ _ Hp) in Hp0. injection Hp0 as <-.
  split; [exact (proj1 (cooling_None now _) Hc _ eq_refl)|].
  eexists. split.
  - simpl. apply (rooms_lookup_written roomId rooms room); [exact Hr | reflexivity].
  - simpl. pose proof (dict_get_key Player.id _ _ _ Hp) as Hid. rewrite <- Hid.
    exact (dict_get_set Player.id (Player.set_cooldownUntil _ player) (Room.players room)).
Qed.

(** C1 does not hold of the code: the tick rebuilds every session with
    [cooldownUntil] 0, so a fire accepted at 2000 is followed by another
    accepted at 2034, once the tick of 2017 has run; without that tick the
    second request is refused until 3500. *)
Theorem tick_clears_fire_cooldown :
  let rooms0 := @registry refEngine [Join 1000 7 alice; Join 1000 8 bob] in
  let fire t rooms :=
    @handleFire refEngine t (JString "room-1000-7") (JString alice) (JNumber 900)
      (JNumber (-1)) noInherited rooms in
  let rooms1 := snd (fst (fire 2000 rooms0)) in
  let rooms2 := tick 2017 rooms1 in
  snd (fire 2000 rooms0) = FireOk /\
  option_map (fun r => map Player.cooldownUntil (Room.players r))
    (rooms_get "room-1000-7" rooms1) = Some [3500; 0] /\
  snd (fire 2034 rooms1) = FireCooling 3500 /\
  option_map (fun r => map Player.cooldownUntil (Room.players r))
    (rooms_get "room-1000-7" rooms2) = Some [0; 0] /\
  snd (fire 2034 rooms2) = FireOk /\
  option_map (fun r => List.length (Room.projectiles r))
    (rooms_get "room-1000-7" (snd (fst (fire 2034 rooms2)))) = Some 2%nat.
Proof. vm_compute. repeat split; reflexivity. Qed.

(** ** Well-formed rooms *)

Lemma session_ok_start id slot now : (slot <= 1)%nat -> session_ok (playerStartState id slot now).
Proof.
  intros Hs. unfold session_ok, playerStartState, START_HP. simpl.
  destruct (Nat.eqb slot 0); repeat split; auto; lia.
Qed.

Lemma session_ok_touch p p' :
  session_ok p ->
  Player.hp p' = Player.hp p -> Player.slot p' = Player.slot p ->
  Player.x p' = Player.x p -> Player.y p' = Player.y p ->
  Player.facing p' = Player.facing p -> Player.color p' = Player.color p ->
  session_ok p'.
Proof. unfold session_ok. intros H -> -> -> -> -> ->. exact H. Qed.

Lemma hitScan_session_ok now lastHitAt proj targets hit ps :
  Forall session_ok targets ->
  hitScan now lastHitAt proj targets = Some (hit, ps) -> Forall session_ok ps.
Proof.
  intros Hf Hs. apply hitScan_split in Hs as (b & t & a & -> & -> & -> & _ & Hhp & _).
  apply Forall_app in Hf as [Hb Ha]. inversion Ha as [|? ? Ht Ha']; subst.
  apply Forall_app. split; [assumption|]. constructor; [|assumption].
  destruct Ht as (Hr & Hrest). split; [simpl; lia | exact Hrest].
Qed.

Lemma rebuildFrom_session_ok now players : forall index,
  (index + List.length players <= 2)%nat ->
  Forall session_ok players -> Forall session_ok (rebuildFrom now index players).
Proof.
  induction players as [|p rest IH]; intros index Hlen Hf; simpl; [constructor|].
  inversion Hf as [|? ? Hp Hrest]; subst. simpl in Hlen. constructor.
  - destruct Hp as (Hhp & _). unfold session_ok, playerStartState. simpl.
    destruct (Nat.eqb index 0); repeat split; auto; lia.
  - apply IH; [lia | assumption].
Qed.

Lemma tickRoom_wf now room room' :
  room_wf room -> tickRoom now room = Some room' -> room_wf room'.
Proof.
  intros [Hocc Hf]. unfold tickRoom. rewrite prepareRoom_spec.
  destruct (sweep now (Room.players room)) as [|p ps] eqn:Hs; simpl; [discriminate|].
  intros [= <-]. set (r := Room.mk _ _ _ _ _ _).
  assert (Hlen : (List.length (p :: ps) <= 2)%nat).
  { rewrite <- Hs. unfold sweep. etransitivity; [apply filter_length_le | exact Hocc]. }
  assert (Hsw : Forall session_ok (p :: ps)).
  { rewrite <- Hs. unfold sweep. apply Forall_forall. intros q Hq.
    apply filter_In in Hq as [Hq _]. now apply (proj1 (Forall_forall _ _) Hf). }
  assert (Hr : Forall session_ok (Room.players r)).
  { subst r. simpl Room.players. apply rebuildFrom_session_ok; [simpl in *; lia | exact Hsw]. }
  split.
  - destruct (physics_effect now r) as (H1 & _). unfold occupants.
    rewrite <- (Forall2_length_eq _ _ _ H1). subst r. simpl Room.players.
    unfold rebuild. now rewrite rebuildFrom_length.
  - apply (physics_players_preserve (Forall session_ok)); [|exact Hr].
    intros. eapply hitScan_session_ok; eauto.
Qed.

Lemma rooms_set_wf room rooms :
  room_wf room -> Forall room_wf rooms -> Forall room_wf (rooms_set room rooms).
Proof. apply (Forall_dict_set Room.id). Qed.

Lemma touched_wf room room' :
  room_wf room -> touched room room' -> room_wf room'.
Proof.
  intros [Hocc Hf] Ht. split; [now rewrite (touched_occupants _ _ Ht)|].
  apply touched_sessions in Ht as [_ Hs]. apply Forall_forall. intros p' Hin.
  destruct (Hs p' Hin) as (p & Hp & _ & H1 & H2 & H3 & H4 & H5 & H6).
  apply (session_ok_touch p); auto. now apply (proj1 (Forall_forall _ _) Hf).
Qed.

Lemma step_wf {E : Engine} w ev :
  Forall room_wf (snd w) -> Forall room_wf (snd (step w ev)).
Proof.
  intros Hf.
  assert (Hreq : match ev with GetState _ _ _ | Fire _ _ _ _ _ => True | _ => False end ->
                 Forall room_wf (snd (step w ev))).
  { intros Hm.
    destruct (request_effect w ev Hm) as [->|(room & room' & Hin & Ht & -> & _)];
      [assumption|].
    apply rooms_set_wf; [|assumption].
    apply (touched_wf room); [now apply (proj1 (Forall_forall _ _) Hf) | exact Ht]. }
  destruct ev as [now rnd uuid|now roomId playerId|now roomId playerId power angle
                 |now roomId|now]; try (apply Hreq; exact I);
    rewrite step_rooms; destruct w as [inh rooms]; simpl fst; simpl snd in *.
  - unfold handleJoin, findOrCreateRoom.
    destruct (find joinable rooms) as [r|] eqn:Hfind; simpl.
    + apply find_some in Hfind as [Hin Hj]. apply andb_prop in Hj as [Hocc _].
      apply Nat.ltb_lt in Hocc.
      destruct (proj1 (Forall_forall _ _) Hf r Hin) as [_ Hr].
      apply rooms_set_wf; [|assumption]. split.
      * unfold occupants in *. simpl.
        pose proof (dict_set_length_le Player.id (playerStartState uuid (List.length (Room.players r)) now)
                      (Room.players r)). unfold players_set. lia.
      * simpl. apply (Forall_dict_set Player.id); [|assumption].
        apply session_ok_start. unfold occupants in *. lia.
    + apply rooms_set_wf; [|apply rooms_set_wf; [|assumption]].
      * split; [simpl; unfold occupants; simpl; lia|].
        simpl. constructor; [|constructor]. apply session_ok_start. unfold occupants. simpl. lia.
      * split; [unfold occupants; simpl; lia | constructor].
  - unfold handleRestart.
    destruct (rooms_lookup roomId rooms) as [room|] eqn:Hr; [|assumption].
    simpl. apply rooms_set_wf; [|assumption].
    assert (Hok : room_wf room).
    { apply (proj1 (Forall_forall _ _) Hf). eapply rooms_lookup_In; eassumption. }
    destruct Hok as [Hocc Hs]. split.
    + unfold occupants in *. simpl. now rewrite length_map.
    + simpl. apply Forall_forall. intros q Hq. apply in_map_iff in Hq as (p & <- & Hp').
      apply session_ok_start. now apply (proj1 (Forall_forall _ _) Hs p Hp').
  - apply Forall_forall. intros room' Hin. apply tick_In in Hin as (room & Hin & Ht).
    eapply tickRoom_wf; [|exact Ht]. now apply (proj1 (Forall_forall _ _) Hf).
Qed.

Lemma reachable_wf {E : Engine} rooms : reachable rooms -> Forall room_wf rooms.
Proof.
  apply (reachable_induction (Forall room_wf)); [constructor|].
  intros w ev _. apply step_wf.
Qed.

(** ** Keys across a step *)

Lemma touched_keys room room' :
  touched room room' ->
  NoDup (dict_keys Player.id (Room.players room)) ->
  NoDup (dict_keys Player.id (Room.players room')).
Proof. intros Ht. apply touched_sessions in Ht as [-> _]. auto. Qed.

Lemma step_keys_ok {E : Engine} w ev : keys_ok (snd w) -> keys_ok (snd (step w ev)).
Proof.
  intros Hk. pose proof Hk as [Hrooms Hplayers].
  assert (Hroom : forall room, In room (snd w) ->
                               NoDup (dict_keys Player.id (Room.players room)))
    by (intros room; apply (proj1 (Forall_forall _ _) Hplayers)).
  assert (Hreq : match ev with GetState _ _ _ | Fire _ _ _ _ _ => True | _ => False end ->
                 keys_ok (snd (step w ev))).
  { intros Hm.
    destruct (request_effect w ev Hm) as [->|(room & room' & Hin & Ht & -> & _)];
      [assumption|].
    apply rooms_set_keys_ok; [|assumption]. apply (touched_keys room); auto. }
  destruct ev as [now rnd uuid|now roomId playerId|now roomId playerId power angle
                 |now roomId|now]; try (apply Hreq; exact I);
    rewrite step_rooms; destruct w as [inh rooms]; simpl fst; simpl snd in *.
  - unfold handleJoin, findOrCreateRoom.
    destruct (find joinable rooms) as [r|] eqn:Hfind; simpl.
    + apply find_some in Hfind as [Hin _].
      apply rooms_set_keys_ok; [|assumption]. simpl.
      apply (dict_set_NoDup Player.id). auto.
    + apply rooms_set_keys_ok; [|apply rooms_set_keys_ok; [|assumption]]; simpl.
      * constructor; [intros [] | constructor].
      * constructor.
  - unfold handleRestart.
    destruct (rooms_lookup roomId rooms) as [room|] eqn:Hr; [|assumption].
    simpl. apply rooms_set_keys_ok; [|assumption]. simpl.
    unfold dict_keys. rewrite map_map. simpl.
    apply Hroom. eapply rooms_lookup_In; eassumption.
  - split; [now apply tick_keys|].
    apply Forall_forall. intros room' Hin. apply tick_In in Hin as (room & Hin & Ht).
    apply tickRoom_ids in Ht as [_ Hids]. unfold dict_keys. rewrite Hids.
    apply NoDup_map_filter. now apply Hroom.
Qed.

Lemma reachable_keys_ok {E : Engine} rooms : reachable rooms -> keys_ok rooms.
Proof.
  apply (reachable_induction keys_ok); [split; constructor|].
  intros w ev _. apply step_keys_ok.
Qed.

(** ** Hit cooldown *)

Lemma prepareRoom_lastHitAt now room r :
  prepareRoom now room = Some r -> Room.lastHitAt r = Room.lastHitAt room.
Proof.
  unfold prepareRoom. simpl.
  destruct (Nat.eqb _ 0); [discriminate|]. now intros [= <-].
Qed.

(** One tick decrements at most once, and only past the cooldown. *)
Lemma tickRoom_hit now room room' :
  tickRoom now room = Some room' ->
  (tickDecrements now room = 0 /\ Room.lastHitAt room' = Room.lastHitAt room) \/
  (tickDecrements now room = 1 /\ Room.lastHitAt room' = now /\
   now - Room.lastHitAt room > HIT_COOLDOWN_MS).
Proof.
  unfold tickRoom, tickDecrements.
  destruct (prepareRoom now room) as [r|] eqn:Hp; simpl; [|discriminate].
  intros [= <-]. apply prepareRoom_lastHitAt in Hp. rewrite <- Hp.
  destruct (physics_effect now r) as (_ & _ & _ & _ & _ & [[H1 H2]|(H1 & H2 & H3)]).
  - left. split; [lia | assumption].
  - right. repeat split; auto; lia.
Qed.

Lemma dict_get_absent {V : Type} (key : V -> string) k (d : list V) :
  ~ In k (dict_keys key d) -> dict_get key k d = None.
Proof.
  intros Hn. destruct (dict_get key k d) as [v|] eqn:Hg; [|reflexivity].
  exfalso. apply Hn. rewrite <- (dict_get_key key _ _ _ Hg).
  apply in_map. exact (dict_get_In key _ _ _ Hg).
Qed.

(** A tick visits the room registered under an id, and no other room takes
    its place. *)
Lemma tick_get now k rooms :
  NoDup (dict_keys Room.id rooms) ->
  rooms_get k (tick now rooms) =
  match rooms_get k rooms with Some room => tickRoom now room | None => None end.
Proof.
  induction rooms as [|r rest IH]; simpl; [reflexivity|].
  intros Hnd. inversion Hnd as [|? ? Hnotin Hnd']; subst. specialize (IH Hnd').
  destruct (String.eqb_spec k (Room.id r)) as [->|Hne].
  - destruct (tickRoom now r) as [r'|] eqn:Ht.
    + simpl. apply tickRoom_ids in Ht as [-> _]. now rewrite String.eqb_refl.
    + rewrite IH. unfold rooms_get. now rewrite (dict_get_absent Room.id _ _ Hnotin).
  - destruct (tickRoom now r) as [r'|] eqn:Ht; [|exact IH].
    simpl. apply tickRoom_ids in Ht as [-> _].
    destruct (String.eqb_spec k (Room.id r)); [contradiction | exact IH].
Qed.

(** Writing back a room under its id, with its hit clock as it was, changes
    no room's hit clock. *)
Lemma rooms_set_keeps k room room' rooms :
  NoDup (dict_keys Room.id rooms) -> In room rooms ->
  Room.id room' = Room.id room -> Room.lastHitAt room' = Room.lastHitAt room ->
  match rooms_get k (rooms_set room' rooms) with
  | Some r' => exists r, rooms_get k rooms = Some r /\ Room.lastHitAt r' = Room.lastHitAt r
  | None => True
  end.
Proof.
  intros Hnd Hin Hid Hhit. destruct (String.eqb_spec k (Room.id room')) as [->|Hne].
  - unfold rooms_get, rooms_set. rewrite (dict_get_set Room.id room' rooms).
    exists room. split; [|exact Hhit]. rewrite Hid. now apply (dict_get_stored Room.id).
  - unfold rooms_get, rooms_set. rewrite (dict_get_set_other Room.id) by exact Hne.
    destruct (dict_get Room.id k rooms) as [r|]; [|exact I]. eauto.
Qed.

Lemma keeps_refl k rooms :
  match rooms_get k rooms with
  | Some r' => exists r, rooms_get k rooms = Some r /\ Room.lastHitAt r' = Room.lastHitAt r
  | None => True
  end.
Proof. destruct (rooms_get k rooms) as [r|]; [|exact I]. eauto. Qed.

(** No request but a restart of the room, or a join that reuses its id,
    moves a room's hit clock. *)
Lemma step_keeps {E : Engine} roomId w ev :
  keys_ok (snd w) -> undisturbed roomId ev = true ->
  match ev with Tick _ => False | _ => True end ->
  match rooms_get roomId (snd (step w ev)) with
  | Some r' => exists r, rooms_get roomId (snd w) = Some r /\
                         Room.lastHitAt r' = Room.lastHitAt r
  | None => True
  end.
Proof.
  intros [Hnd _] Hu Hnt.
  assert (Hreq : match ev with GetState _ _ _ | Fire _ _ _ _ _ => True | _ => False end ->
                 match rooms_get roomId (snd (step w ev)) with
                 | Some r' => exists r, rooms_get roomId (snd w) = Some r /\
                                        Room.lastHitAt r' = Room.lastHitAt r
                 | None => True
                 end).
  { intros Hm.
    destruct (request_effect w ev Hm) as [->|(room & room' & Hin & Ht & -> & _)];
      [apply keeps_refl|].
    destruct Ht as (Hid & Hhit & _). now apply (rooms_set_keeps roomId room). }
  destruct ev as [now rnd uuid|now rid playerId|now rid playerId power angle
                 |now rid|now]; try (apply Hreq; exact I); try contradiction;
    rewrite step_rooms; destruct w as [inh rooms]; simpl fst; simpl snd in *.
  - unfold handleJoin, findOrCreateRoom.
    destruct (find joinable rooms) as [r|] eqn:Hfind; simpl.
    + apply find_some in Hfind as [Hin _]. now apply (rooms_set_keeps roomId r).
    + apply negb_true_iff in Hu. apply String.eqb_neq in Hu.
      unfold rooms_get, rooms_set.
      rewrite !(dict_get_set_other Room.id) by (simpl; congruence).
      apply keeps_refl.
  - unfold handleRestart.
    destruct (rooms_lookup rid rooms) as [room|] eqn:Hr; [|apply keeps_refl].
    apply rooms_lookup_string in Hr as (s & -> & Hr). simpl in Hu.
    apply negb_true_iff in Hu. apply String.eqb_neq in Hu. simpl.
    pose proof (dict_get_key Room.id _ _ _ Hr) as Hid.
    unfold rooms_get, rooms_set.
    rewrite (dict_get_set_other Room.id) by (simpl; congruence).
    apply keeps_refl.
Qed.

(** Once the hit clock of the room is inside or past the window, no further
    decrement falls into the window. *)
Lemma decrementsInRun_after_hit {E : Engine} w roomId evs : forall world,
  keys_ok (snd world) -> forallb (undisturbed roomId) evs = true ->
  (forall room, rooms_get roomId (snd world) = Some room -> w <= Room.lastHitAt room) ->
  decrementsInRun w roomId evs world = 0.
Proof.
  induction evs as [|ev rest IH]; intros world Hk Hu Hw; simpl; [reflexivity|].
  simpl in Hu. apply andb_prop in Hu as [Hev Hrest].
  rewrite IH; [|now apply step_keys_ok|exact Hrest|].
  - destruct ev as [| | | |now]; try reflexivity.
    destruct (rooms_get roomId (snd world)) as [room|] eqn:Hr; [|reflexivity].
    specialize (Hw room eq_refl).
    destruct (Z.leb_spec w now), (Z.leb_spec now (w + HIT_COOLDOWN_MS)); simpl; try reflexivity.
    unfold tickDecrements. destruct (prepareRoom now room) as [r|] eqn:Hp; [|reflexivity].
    assert (Ht : tickRoom now room = Some (physics now r))
      by (unfold tickRoom; now rewrite Hp).
    destruct (tickRoom_hit _ _ _ Ht) as [[H1 _]|(_ & _ & H3)].
    + unfold tickDecrements in H1. rewrite Hp in H1. lia.
    + unfold HIT_COOLDOWN_MS in *. lia.
  - intros room' Hr'.
    destruct ev as [now rnd uuid|now rid playerId|now rid playerId power angle
                   |now rid|now] eqn:Hevent.
    5:{ rewrite step_rooms, (tick_get now roomId _ (proj1 Hk)) in Hr'.
        destruct (rooms_get roomId (snd world)) as [room|] eqn:Hr; [|discriminate].
        specialize (Hw room eq_refl).
        destruct (tickRoom_hit _ _ _ Hr') as [[_ H2]|(_ & H2 & H3)];
          unfold HIT_COOLDOWN_MS in *; lia. }
    all: rewrite <- Hevent in Hr', Hev;
      pose proof (step_keeps roomId world ev Hk Hev) as Hkeep;
      rewrite Hevent in Hkeep; specialize (Hkeep I); rewrite <- Hevent in Hkeep;
      rewrite Hr' in Hkeep; destruct Hkeep as (r & Hr & ->); now apply Hw.
Qed.

(** C2, as stated, fails: the window is reopened by a restart, which clears
    [lastHitAt].  In the rematch Alice's first shot takes a hit point from
    Bob at 2880; the room is restarted at 2881, and her second shot takes
    one at 3761: two decrements in the room within 881 ms. *)
Lemma restart_reopens_hit_window :
  Forall genuine rematch /\
  @decrementsInRun refEngine 2880 "room-1000-7" rematch start = 2 /\
  @decrementsInRun refEngine 2880 "room-1000-7" (firstn 58 rematch) start = 1 /\
  option_map Room.lastHitAt (rooms_get "room-1000-7" (@registry refEngine (firstn 58 rematch)))
    = Some 2880 /\
  option_map Room.lastHitAt (rooms_get "room-1000-7" (@registry refEngine rematch))
    = Some 3761 /\
  ~ (forall w roomId evs,
       Forall genuine evs -> @decrementsInRun refEngine w roomId evs start <= 1).
Proof.
  assert (Hg : Forall genuine rematch).
  { apply genuine_check. vm_compute. reflexivity. }
  assert (H2 : @decrementsInRun refEngine 2880 "room-1000-7" rematch start = 2)
    by (vm_compute; reflexivity).
  split; [exact Hg|]. split; [exact H2|].
  split; [vm_compute; reflexivity|]. split; [vm_compute; reflexivity|].
  split; [vm_compute; reflexivity|].
  intros H. specialize (H 2880 "room-1000-7"%string rematch Hg). rewrite H2 in H. lia.
Qed.

(** C2, amended: over any run of the server, from any state on, in which the
    room is not restarted (and no join opens a fresh room under its id), at
    most one hp decrement of the room falls into any window of 900 ms,
    whatever ticks, joins, polls and fires the run holds and whatever
    projectiles are live; a tick decrements only when
    [now - lastHitAt > 900], at most once, and then sets [lastHitAt] to
    [now]. *)
Theorem one_hit_per_cooldown_window :
  forall (E : Engine) w roomId evs world,
    keys_ok (snd world) ->
    forallb (undisturbed roomId) evs = true ->
    decrementsInRun w roomId evs world <= 1 /\
    forall now room room',
      tickRoom now room = Some room' ->
      (tickDecrements now room = 0 /\ Room.lastHitAt room' = Room.lastHitAt room) \/
      (tickDecrements now room = 1 /\ now - Room.lastHitAt room > 900 /\
       Room.lastHitAt room' = now).
Proof.
  intros E w roomId evs world Hk Hu. split.
  - revert world Hk Hu. induction evs as [|ev rest IH]; intros world Hk Hu; simpl; [lia|].
    simpl in Hu. apply andb_prop in Hu as [Hev Hrest].
    pose proof (step_keys_ok world ev Hk) as Hk'.
    specialize (IH (step world ev) Hk' Hrest).
    destruct ev as [| | | |now]; try exact IH.
    destruct (rooms_get roomId (snd world)) as [room|] eqn:Hr; [|exact IH].
    destruct ((w <=? now) && (now <=? w + HIT_COOLDOWN_MS)) eqn:Hwin; [|exact IH].
    apply andb_prop in Hwin as [H1 H2]. apply Z.leb_le in H1, H2.
    unfold tickDecrements at 1. destruct (prepareRoom now room) as [r|] eqn:Hp; [|exact IH].
    assert (Ht : tickRoom now room = Some (physics now r))
      by (unfold tickRoom; now rewrite Hp).
    destruct (tickRoom_hit _ _ _ Ht) as [[H3 _]|(H3 & H4 & _)];
      unfold tickDecrements in H3; rewrite Hp in H3; [lia|].
    rewrite (decrementsInRun_after_hit w roomId rest (step world (Tick now)) Hk' Hrest); [lia|].
    intros room' Hr'. rewrite step_rooms, (tick_get now roomId _ (proj1 Hk)), Hr in Hr'.
    rewrite Ht in Hr'. injection Hr' as <-. lia.
  - intros now room room' Ht.
    destruct (tickRoom_hit _ _ _ Ht) as [[H1 H2]|(H1 & H2 & H3)]; [now left|].
    right. unfold HIT_COOLDOWN_MS in H3. auto.
Qed.

Lemma one_hit_per_cooldown_window_witness :
  let world := @run refEngine [Join 1000 7 alice; Join 1000 8 bob] start in
  keys_ok (snd world) /\
  forallb (undisturbed "room-1000-7") (shot 2000) = true /\
  @decrementsInRun refEngine 2000 "room-1000-7" (shot 2000) world = 1 /\
  @decrementsInRun refEngine 2000 "room-1000-7" (shot 2000) world <= 1.
Proof.
  intros world.
  assert (Hk : keys_ok (snd world)).
  { split; [|constructor; [|constructor]]; simpl;
      repeat (constructor; [simpl; intuition discriminate|]); constructor. }
  split; [exact Hk|]. split; [reflexivity|]. split; [vm_compute; reflexivity|].
  exact (proj1 (one_hit_per_cooldown_window refEngine 2000 "room-1000-7" (shot 2000) world
                  Hk eq_refl)).
Defined.

(** ** The winner is alive *)

Lemma filterCallback_alive now room proj :
  losers_have_winner room -> winner_alive room ->
  (Room.winner room <> None -> Room.lastHitAt room = now) ->
  let room' := fst (filterCallback now room proj) in
  losers_have_winner room' /\ winner_alive room' /\
  (Room.winner room' <> None -> Room.lastHitAt room' = now).
Proof.
  intros Hl Ha Hlast. unfold filterCallback.
  destruct (expired now (integrate proj)); [simpl; auto|].
  destruct (outOfBounds (integrate proj)); [simpl; auto|].
  destruct (hitScan now (Room.lastHitAt room) (integrate proj) (Room.players room))
    as [[hit ps]|] eqn:Hs; [|simpl; auto].
  apply hitScan_split in Hs as (b & t & a & Ht & -> & -> & Hid & Hhp & Hcd).
  assert (Hw : Room.winner room = None).
  { destruct (Room.winner room) eqn:Hw; [|reflexivity].
    rewrite Hlast in Hcd by discriminate. lia. }
  assert (Hlive : forall p, In p (Room.players room) -> 0 < Player.hp p).
  { intros p Hp. destruct (Z.ltb_spec 0 (Player.hp p)); [assumption|].
    exfalso. apply (Hl p Hp); [lia | exact Hw]. }
  assert (Hothers : forall p, In p (b ++ Player.set_hp (Player.hp t - 1) t :: a) ->
                              p = Player.set_hp (Player.hp t - 1) t \/ 0 < Player.hp p).
  { intros p Hp. apply in_app_or in Hp as [Hp|[<-|Hp]]; [right|now left|right];
      apply Hlive; rewrite Ht; apply in_or_app; [now left | right; now right]. }
  cbv zeta. simpl Player.hp.
  destruct (Z.leb_spec (Player.hp t - 1) 0) as [Hdead|Hdead]; simpl.
  - split; [|split; [|reflexivity]].
    + intros p _ _. discriminate.
    + intros w p [= Hown] Hp Hle. simpl in Hp.
      destruct (Hothers p Hp) as [->|Hpos]; [|lia]. simpl. intros Heq.
      assert (Ho : ownedBy t (integrate proj) = true)
        by (apply ownedBy_spec; rewrite Heq; exact Hown).
      congruence.
  - split; [|split].
    + intros p Hp Hle. simpl in Hp.
      destruct (Hothers p Hp) as [->|Hpos]; simpl in *; lia.
    + intros w p Hw'. simpl in Hw'. congruence.
    + simpl. intros Hne. congruence.
Qed.

Lemma filterProjectiles_alive now projs : forall room,
  losers_have_winner room -> winner_alive room ->
  (Room.winner room <> None -> Room.lastHitAt room = now) ->
  winner_alive (fst (filterProjectiles now room projs)).
Proof.
  induction projs as [|proj rest IH]; intros room Hl Ha Hlast; simpl; [exact Ha|].
  destruct (filterCallback_alive now room proj Hl Ha Hlast) as (H1 & H2 & H3).
  destruct (filterCallback now room proj) as [r1 kept]. simpl in *.
  specialize (IH r1 H1 H2 H3). now destruct (filterProjectiles now r1 rest).
Qed.

Lemma winner_alive_ext room room' :
  Room.winner room' = Room.winner room ->
  (forall p', In p' (Room.players room') ->
     exists p, In p (Room.players room) /\ Player.hp p = Player.hp p' /\
               Player.id p = Player.id p') ->
  winner_alive room -> winner_alive room'.
Proof.
  intros Hw Hp Ha w p' Hw' Hin Hle. rewrite Hw in Hw'.
  destruct (Hp p' Hin) as (p & Hin' & Hhp & Hid). rewrite <- Hid.
  apply (Ha w p Hw' Hin'). lia.
Qed.

Lemma rebuildFrom_In_id now players : forall index p',
  In p' (rebuildFrom now index players) ->
  exists p, In p players /\ Player.hp p = Player.hp p' /\ Player.id p = Player.id p'.
Proof.
  induction players as [|q rest IH]; intros index p'; simpl; [intros []|].
  intros [<-|Hin]; [exists q; repeat split; now left|].
  destruct (IH _ _ Hin) as (p & Hp & H). exists p. split; [now right | assumption].
Qed.

Lemma tickRoom_alive now room room' :
  room_ok room -> owners_ok room -> winner_alive room ->
  tickRoom now room = Some room' -> winner_alive room'.
Proof.
  intros [_ Hl] (_ & _ & Htruthy) Ha. unfold tickRoom. rewrite prepareRoom_spec.
  destruct (sweep now (Room.players room)) as [|p ps] eqn:Hs; simpl; [discriminate|].
  intros [= <-]. set (r := Room.mk _ _ _ _ _ _).
  assert (Hsub : forall p', In p' (Room.players r) ->
            exists q, In q (Room.players room) /\ Player.hp q = Player.hp p' /\
                      Player.id q = Player.id p').
  { subst r. simpl Room.players. intros p' Hin.
    apply rebuildFrom_In_id in Hin as (q & Hq & H). exists q. split; [|assumption].
    rewrite <- Hs in Hq. now apply sweep_In in Hq. }
  assert (Har : winner_alive r) by (apply (winner_alive_ext room r eq_refl Hsub Ha)).
  assert (Hlr : losers_have_winner r).
  { apply (losers_ext room r eq_refl); [|exact Hl]. intros p' Hin.
    destruct (Hsub p' Hin) as (q & Hq & Hhp & _). eauto. }
  unfold physics.
  destruct (negb (Room.started r) || negb (no_winner r)) eqn:Hgate; [exact Har|].
  apply orb_false_elim in Hgate as [_ Hw]. apply negb_false_iff in Hw.
  assert (Hnone : Room.winner r <> None -> Room.lastHitAt r = now).
  { unfold no_winner in Hw. subst r. simpl in *.
    destruct (Room.winner room) as [w|]; [|congruence].
    rewrite (Htruthy w eq_refl) in Hw. discriminate. }
  pose proof (filterProjectiles_alive now (Room.projectiles r) r Hlr Har Hnone) as H.
  destruct (filterProjectiles now r (Room.projectiles r)) as [r2 kept]. exact H.
Qed.

Lemma touched_alive room room' :
  winner_alive room -> touched room room' -> winner_alive room'.
Proof.
  intros Ha Ht. pose proof (touched_sessions _ _ Ht) as [_ Hs].
  destruct Ht as (_ & _ & _ & Hw & _).
  apply (winner_alive_ext room room' Hw); [|exact Ha].
  intros p' Hin. destruct (Hs p' Hin) as (p & Hp & Hid & Hhp & _). exists p. auto.
Qed.

Lemma step_alive {E : Engine} w ev :
  Forall room_ok (snd w) -> Forall owners_ok (snd w) ->
  Forall winner_alive (snd w) -> Forall winner_alive (snd (step w ev)).
Proof.
  intros Hok Hown Hf.
  assert (Hin_alive : forall room, In room (snd w) -> winner_alive room)
    by (intros room; apply (proj1 (Forall_forall _ _) Hf)).
  assert (Hnone : forall room, Room.winner room = None -> winner_alive room)
    by (intros room Hw x p Hw'; congruence).
  assert (Hreq : match ev with GetState _ _ _ | Fire _ _ _ _ _ => True | _ => False end ->
                 Forall winner_alive (snd (step w ev))).
  { intros Hm.
    destruct (request_effect w ev Hm) as [->|(room & room' & Hin & Ht & -> & _)];
      [assumption|].
    apply (Forall_dict_set Room.id); [|assumption]. apply (touched_alive room); auto. }
  destruct ev as [now rnd uuid|now roomId playerId|now roomId playerId power angle
                 |now roomId|now]; try (apply Hreq; exact I);
    rewrite step_rooms; destruct w as [inh rooms]; simpl fst; simpl snd in *.
  - unfold handleJoin, findOrCreateRoom.
    destruct (find joinable rooms) as [r|] eqn:Hfind; simpl.
    + apply find_some in Hfind as [Hin Hj]. apply andb_prop in Hj as [_ Hw].
      apply (Forall_dict_set Room.id); [|assumption].
      destruct (proj1 (Forall_forall _ _) Hown r Hin) as (_ & _ & Htruthy).
      apply Hnone. simpl. unfold no_winner in Hw.
      destruct (Room.winner r) as [x|]; [|reflexivity].
      rewrite (Htruthy x eq_refl) in Hw. discriminate.
    + apply (Forall_dict_set Room.id); [now apply Hnone|].
      apply (Forall_dict_set Room.id); [now apply Hnone | assumption].
  - unfold handleRestart.
    destruct (rooms_lookup roomId rooms) as [room|] eqn:Hr; [|assumption].
    simpl. apply (Forall_dict_set Room.id); [now apply Hnone | assumption].
  - apply Forall_forall. intros room' Hin. apply tick_In in Hin as (room & Hin & Ht).
    eapply tickRoom_alive; [| | |exact Ht]; [| |auto].
    + now apply (proj1 (Forall_forall _ _) Hok).
    + now apply (proj1 (Forall_forall _ _) Hown).
Qed.

Lemma reachable_alive {E : Engine} rooms : reachable rooms -> Forall winner_alive rooms.
Proof.
  intros Hreach.
  enough (H : Forall room_ok rooms /\ Forall owners_ok rooms /\ Forall winner_alive rooms)
    by apply H.
  revert rooms Hreach.
  apply (reachable_induction
           (fun rooms => Forall room_ok rooms /\ Forall owners_ok rooms /\
                         Forall winner_alive rooms)).
  - repeat split; constructor.
  - intros w ev Hg (H1 & H2 & H3).
    split; [now apply step_ok|]. split; [now apply step_owners | now apply step_alive].
Qed.

(** ** Invariants of every reachable registry *)

Lemma three_joins_reachable :
  @reachable refEngine (@registry refEngine [Join 1 2 alice; Join 3 4 bob; Join 5 6 carol]).
Proof.
  exists [Join 1 2 alice; Join 3 4 bob; Join 5 6 carol].
  split; [apply genuine_check; vm_compute; reflexivity | reflexivity].
Qed.

(** X1: no reachable room holds more than two sessions. *)
Theorem rooms_hold_at_most_two_sessions :
  forall (E : Engine) rooms room,
    reachable rooms -> In room rooms -> (occupants room <= 2)%nat.
Proof.
  intros E rooms room Hreach Hin. apply reachable_wf in Hreach.
  exact (proj1 (proj1 (Forall_forall _ _) Hreach room Hin)).
Qed.

Lemma rooms_hold_at_most_two_sessions_witness :
  let rooms := @registry refEngine [Join 1 2 alice; Join 3 4 bob; Join 5 6 carol] in
  map occupants rooms = [2%nat; 1%nat] /\
  exists room, In room rooms /\ Room.id room = "room-1-2"%string /\
               (occupants room <= 2)%nat.
Proof.
  intros rooms. split; [reflexivity|].
  assert (Hin : In (Room.mk "room-1-2" [playerStartState alice 0 1; playerStartState bob 1 3]
                      [] 0 true None) rooms)
    by (vm_compute; left; reflexivity).
  eexists. split; [exact Hin|]. split; [reflexivity|].
  exact (rooms_hold_at_most_two_sessions refEngine rooms _ three_joins_reachable Hin).
Defined.

(** X2: the hp of every session of a reachable room is between 0 and 5. *)
Theorem hp_stays_between_0_and_5 :
  forall (E : Engine) rooms room p,
    reachable rooms -> In room rooms -> In p (Room.players room) ->
    0 <= Player.hp p <= 5.
Proof.
  intros E rooms room p Hreach Hin Hp. apply reachable_wf in Hreach.
  destruct (proj1 (Forall_forall _ _) Hreach room Hin) as [_ Hs].
  exact (proj1 (proj1 (Forall_forall _ _) Hs p Hp)).
Qed.

Lemma duelRoom_reached : In duelRoom (@registry refEngine duel).
Proof. rewrite duel_registry. now left. Qed.

Lemma hp_stays_between_0_and_5_witness :
  let rooms := @registry refEngine duel in
  exists room p,
    In room rooms /\ In p (Room.players room) /\
    Player.id p = bob /\ Player.hp p = 0 /\ 0 <= Player.hp p <= 5.
Proof.
  intros rooms.
  exists duelRoom, (Player.set_hp 0 (respawned 1 (playerStartState bob 1 1000))).
  split; [exact duelRoom_reached|]. split; [right; left; reflexivity|].
  split; [reflexivity|]. split; [reflexivity|].
  apply (hp_stays_between_0_and_5 refEngine rooms duelRoom _ duel_reachable duelRoom_reached).
  right; left; reflexivity.
Defined.

(** X3: a session never moves: in every reachable room it has slot 0 or 1
    and sits at that slot's spawn point, with the slot's facing and colour. *)
Theorem sessions_stay_at_spawn_point :
  forall (E : Engine) rooms room p,
    reachable rooms -> In room rooms -> In p (Room.players room) ->
    (Player.slot p = 0 \/ Player.slot p = 1)%nat /\
    Player.x p = (if Nat.eqb (Player.slot p) 0 then 120 else 880)%float /\
    Player.y p = 480%float /\
    Player.facing p = (if Nat.eqb (Player.slot p) 0 then 1 else -1) /\
    Player.color p = (if Nat.eqb (Player.slot p) 0 then "#4c9dff" else "#ff5b8a")%string.
Proof.
  intros E rooms room p Hreach Hin Hp. apply reachable_wf in Hreach.
  destruct (proj1 (Forall_forall _ _) Hreach room Hin) as [_ Hs].
  destruct (proj1 (Forall_forall _ _) Hs p Hp) as (_ & Hslot & Hrest).
  split; [lia | exact Hrest].
Qed.

Lemma sessions_stay_at_spawn_point_witness :
  let rooms := @registry refEngine duel in
  exists room p,
    In room rooms /\ In p (Room.players room) /\
    Player.id p = bob /\ Player.slot p = 1%nat /\
    Player.x p = 880%float /\ Player.y p = 480%float /\ Player.facing p = -1.
Proof.
  intros rooms.
  exists duelRoom, (Player.set_hp 0 (respawned 1 (playerStartState bob 1 1000))).
  split; [exact duelRoom_reached|]. split; [right; left; reflexivity|].
  split; [reflexivity|]. split; [reflexivity|].
  destruct (sessions_stay_at_spawn_point refEngine rooms duelRoom _ duel_reachable
              duelRoom_reached (or_intror (or_introl eq_refl))) as (_ & Hx & Hy & Hf & _).
  split; [exact Hx|]. split; [exact Hy | exact Hf].
Defined.

(** X4: the session the winner names is not down: in a reachable room, a
    session whose id is, as a string, the recorded winner has positive hp.
    (A winner that is not a string names no session this way.) *)
Theorem winner_is_not_a_loser :
  forall (E : Engine) rooms room w p,
    reachable rooms -> In room rooms ->
    Room.winner room = Some (JString w) -> In p (Room.players room) -> Player.id p = w ->
    0 < Player.hp p.
Proof.
  intros E rooms room w p Hreach Hin Hw Hp Hid. apply reachable_alive in Hreach.
  pose proof (proj1 (Forall_forall _ _) Hreach room Hin w p Hw Hp) as H.
  destruct (Z.ltb_spec 0 (Player.hp p)); [assumption|]. exfalso. apply H; [lia | exact Hid].
Qed.

Lemma winner_is_not_a_loser_witness :
  let rooms := @registry refEngine duel in
  exists room p,
    In room rooms /\ Room.winner room = Some (JString alice) /\
    In p (Room.players room) /\ Player.id p = alice /\ 0 < Player.hp p.
Proof.
  intros rooms.
  exists duelRoom, (respawned 0 (playerStartState alice 0 1000)).
  split; [exact duelRoom_reached|]. split; [reflexivity|]. split; [left; reflexivity|].
  split; [reflexivity|].
  exact (winner_is_not_a_loser refEngine rooms duelRoom alice _ duel_reachable
           duelRoom_reached eq_refl (or_introl eq_refl) eq_refl).
Defined.

(** X5: ids are keys: in a reachable registry no two rooms share an id and
    no two sessions of a room share one, so every stored room is what
    [rooms.get] returns for its id and every stored session what
    [room.players[id]] returns. *)
Theorem stored_rooms_and_sessions_are_found_by_id :
  forall (E : Engine) rooms room,
    reachable rooms -> In room rooms ->
    NoDup (dict_keys Room.id rooms) /\
    NoDup (dict_keys Player.id (Room.players room)) /\
    rooms_get (Room.id room) rooms = Some room /\
    forall p, In p (Room.players room) ->
              players_get (Player.id p) (Room.players room) = Some p.
Proof.
  intros E rooms room Hreach Hin. apply reachable_keys_ok in Hreach as [Hk Hp].
  pose proof (proj1 (Forall_forall _ _) Hp room Hin) as Hr.
  split; [exact Hk|]. split; [exact Hr|]. split.
  - now apply (dict_get_stored Room.id).
  - intros p Hin'. now apply (dict_get_stored Player.id).
Qed.

Lemma stored_rooms_and_sessions_are_found_by_id_witness :
  let rooms := @registry refEngine [Join 1 2 alice; Join 3 4 bob; Join 5 6 carol] in
  exists room,
    In room rooms /\ Room.id room = "room-5-6"%string /\
    rooms_get "room-5-6" rooms = Some room.
Proof.
  intros rooms.
  assert (Hin : In (Room.mk "room-5-6" [playerStartState carol 0 5] [] 0 false None) rooms)
    by (vm_compute; right; left; reflexivity).
  eexists. split; [exact Hin|]. split; [reflexivity|].
  exact (proj1 (proj2 (proj2
           (stored_rooms_and_sessions_are_found_by_id refEngine rooms _
              three_joins_reachable Hin)))).
Defined.

(** ** Requests and the rooms they name *)

Lemma rooms_get_written roomId rooms room room' :
  rooms_get roomId rooms = Some room -> Room.id room' = Room.id room ->
  rooms_get roomId (rooms_set room' rooms) = Some room'.
Proof.
  intros Hr Hid. pose proof (dict_get_key _ _ _ _ Hr) as Hk. simpl in Hk.
  rewrite <- Hk, <- Hid. exact (dict_get_set Room.id room' rooms).
Qed.

Lemma rooms_get_elsewhere other roomId rooms room room' :
  rooms_get roomId rooms = Some room -> Room.id room' = Room.id room ->
  other <> roomId ->
  rooms_get other (rooms_set room' rooms) = rooms_get other rooms.
Proof.
  intros Hr Hid Hne. apply (dict_get_set_other Room.id).
  rewrite Hid. pose proof (dict_get_key _ _ _ _ Hr) as Hk. simpl in Hk. congruence.
Qed.

(** X6: a state, fire or restart request changes no room but the one it
    names, and it changes nothing at all, neither the registry nor what
    [Object.prototype] holds, when it is answered with an error or a
    cooldown notice. *)
Theorem requests_touch_only_their_room :
  forall (E : Engine) now roomId playerId bodyRoomId bodyPlayerId power angle inh rooms,
    (forall other,
        (other <> roomId ->
         rooms_get other (snd (fst (handleState now roomId playerId inh rooms)))
           = rooms_get other rooms) /\
        (JString other <> bodyRoomId ->
         rooms_get other
           (snd (fst (handleFire now bodyRoomId bodyPlayerId power angle inh rooms)))
           = rooms_get other rooms /\
         rooms_get other (fst (handleRestart now bodyRoomId rooms)) = rooms_get other rooms)) /\
    (snd (handleState now roomId playerId inh rooms) = StateNotFound ->
     fst (handleState now roomId playerId inh rooms) = (inh, rooms)) /\
    (snd (handleFire now bodyRoomId bodyPlayerId power angle inh rooms) <> FireOk ->
     fst (handleFire now bodyRoomId bodyPlayerId power angle inh rooms) = (inh, rooms)) /\
    (snd (handleRestart now bodyRoomId rooms) = RestartNotFound ->
     fst (handleRestart now bodyRoomId rooms) = rooms).
Proof.
  intros E now roomId playerId bodyRoomId bodyPlayerId power angle inh rooms.
  split; [|split; [|split]].
  - intros other. split; [intros Hne | intros Hne; split].
    + destruct (handleState_effect now roomId playerId inh rooms)
        as [->|(room & player & Hr & _ & _ & -> & Htouch & _)]; [reflexivity|].
      simpl. apply (rooms_get_elsewhere other roomId rooms room); auto.
      exact (proj1 Htouch).
    + destruct (handleFire_effect now bodyRoomId bodyPlayerId power angle inh rooms)
        as [->|(room & room' & key & player & p & a & Hr & _ & _ & _ & -> & Htouch & _)];
        [reflexivity|].
      apply rooms_lookup_string in Hr as (s & -> & Hr).
      apply (rooms_get_elsewhere other s rooms room); auto; [exact (proj1 Htouch)|congruence].
    + unfold handleRestart.
      destruct (rooms_lookup bodyRoomId rooms) as [room|] eqn:Hr; [|reflexivity].
      apply rooms_lookup_string in Hr as (s & -> & Hr). simpl.
      apply (rooms_get_elsewhere other s rooms room); auto. congruence.
  - destruct (handleState_effect now roomId playerId inh rooms)
      as [->|(room & player & _ & _ & _ & -> & _)]; [reflexivity | discriminate].
  - apply handleFire_refused.
  - unfold handleRestart.
    destruct (rooms_lookup bodyRoomId rooms); [discriminate | reflexivity].
Qed.

Lemma requests_touch_only_their_room_witness :
  let rooms := @registry refEngine [Join 1 2 alice; Join 3 4 bob; Join 5 6 carol] in
  rooms_get "room-5-6" (fst (handleRestart 9 (JString "room-1-2") rooms))
    = rooms_get "room-5-6" rooms /\
  rooms_get "room-1-2" (fst (handleRestart 9 (JString "room-1-2") rooms))
    <> rooms_get "room-1-2" rooms.
Proof.
  intros rooms. split.
  - apply (proj1 (requests_touch_only_their_room refEngine 9 "room-1-2" alice
                    (JString "room-1-2") (JString alice) JNull JNull noInherited rooms)
             "room-5-6"%string).
    discriminate.
  - vm_compute. discriminate.
Defined.

(** X7: the ids a join answers with are good: the registry then holds that
    room under [roomId], the room holds the new session under [playerId] in
    its start state for the answered slot, and a state poll with these ids is
    answered with the room's view, the session's last-seen set to the time
    of the poll. *)
Theorem joined_session_can_poll :
  forall now rnd uuid rooms now' inh,
    exists roomId slot room view,
      snd (handleJoin now rnd uuid rooms) = Joined roomId uuid slot /\
      rooms_get roomId (fst (handleJoin now rnd uuid rooms)) = Some room /\
      Room.id room = roomId /\
      players_get uuid (Room.players room) = Some (playerStartState uuid slot now) /\
      snd (handleState now' roomId uuid inh (fst (handleJoin now rnd uuid rooms))) = View view /\
      players_get uuid (Room.players view)
        = Some (Player.set_lastSeenAt now' (playerStartState uuid slot now)).
Proof.
  intros now rnd uuid rooms now' inh. unfold handleJoin.
  destruct (findOrCreateRoom now rnd rooms) as [r rs]. cbv zeta. simpl fst. simpl snd.
  set (joined := Room.set_started _ _).
  assert (Hget : rooms_get (Room.id r) (rooms_set joined rs) = Some joined)
    by exact (dict_get_set Room.id joined rs).
  assert (Hp : players_get uuid (Room.players joined)
               = Some (playerStartState uuid (occupants r) now))
    by exact (dict_get_set Player.id (playerStartState uuid (occupants r) now) (Room.players r)).
  exists (Room.id r), (occupants r), joined. eexists.
  split; [reflexivity|]. split; [exact Hget|]. split; [reflexivity|]. split; [exact Hp|].
  unfold handleState. rewrite Hget, (lookupPlayer_own inh _ _ _ Hp). simpl snd.
  split; [reflexivity|].
  exact (dict_get_set Player.id
           (Player.set_lastSeenAt now' (playerStartState uuid (occupants r) now))
           (Room.players joined)).
Qed.

(** X8: polling keeps a session alive: a state poll by a session of the
    room at time [now] is answered with the view and stamps the session with
    [now], and every tick at a time up to [now + 30000] then keeps the room
    in the registry with that session in it. *)
Theorem polled_session_survives_ticks :
  forall now roomId playerId inh rooms room0 p now',
    rooms_get roomId rooms = Some room0 ->
    players_get playerId (Room.players room0) = Some p ->
    now' - now <= 30000 ->
    exists room room',
      handleState now roomId playerId inh rooms = ((inh, rooms_set room rooms), View room) /\
      rooms_get roomId (rooms_set room rooms) = Some room /\
      players_get playerId (Room.players room) = Some (Player.set_lastSeenAt now p) /\
      tickRoom now' room = Some room' /\
      In room' (tick now' (rooms_set room rooms)) /\
      In playerId (map Player.id (Room.players room')).
Proof.
  intros now roomId playerId inh rooms room0 p now' Hr Hp Hlive.
  unfold handleState. rewrite Hr, (lookupPlayer_own inh _ _ _ Hp). simpl.
  set (room1 := Room.set_players _ room0).
  assert (Hget : rooms_get roomId (rooms_set room1 rooms) = Some room1)
    by now apply (rooms_get_written roomId rooms room0).
  assert (Hself : players_get playerId (Room.players room1)
                  = Some (Player.set_lastSeenAt now p)).
  { pose proof (dict_get_key Player.id _ _ _ Hp) as Hid. rewrite <- Hid.
    exact (dict_get_set Player.id (Player.set_lastSeenAt now p) (Room.players room0)). }
  assert (Hsw : In (Player.set_lastSeenAt now p) (sweep now' (Room.players room1))).
  { apply sweep_In. split; [apply (dict_set_In_self Player.id) | simpl; lia]. }
  destruct (tickRoom now' room1) as [room2|] eqn:Ht.
  - exists room1, room2. split; [reflexivity|]. split; [exact Hget|]. split; [exact Hself|].
    split; [exact Ht|]. split.
    + apply tick_In. exists room1. split; [|exact Ht].
      apply (dict_get_In Room.id) in Hget. exact Hget.
    + apply tickRoom_ids in Ht as [_ Hids]. rewrite Hids.
      apply in_map_iff. exists (Player.set_lastSeenAt now p). split; [|exact Hsw].
      simpl. exact (dict_get_key _ _ _ _ Hp).
  - exfalso. unfold tickRoom in Ht. rewrite prepareRoom_spec in Ht.
    destruct (sweep now' (Room.players room1)); [destruct Hsw | discriminate].
Qed.

Lemma polled_session_survives_ticks_witness :
  let rooms := @registry refEngine [Join 1000 7 alice; Join 1000 8 bob] in
  exists room room',
    snd (handleState 20000 "room-1000-7" alice noInherited rooms) = View room /\
    tickRoom 50000 room = Some room' /\
    map Player.id (Room.players room') = [alice].
Proof.
  intros rooms.
  destruct (polled_session_survives_ticks 20000 "room-1000-7" alice noInherited rooms
              (Room.mk "room-1000-7"
                 [playerStartState alice 0 1000; playerStartState bob 1 1000] [] 0 true None)
              (playerStartState alice 0 1000) 50000 eq_refl eq_refl)
    as (room & room' & Hs & Hget & _ & Ht & _ & _); [lia|].
  exists room, room'. rewrite Hs. split; [reflexivity|]. split; [exact Ht|].
  apply (f_equal snd) in Hs. vm_compute in Hs. injection Hs as Hroom. subst room.
  vm_compute in Ht. injection Ht as <-. reflexivity.
Defined.

(** The answer to a fire request by a session of the room whose power and
    angle convert to numbers. *)
Lemma handleFire_session {E : Engine} now roomId playerId power angle inh rooms
    room key player v u :
  rooms_lookup roomId rooms = Some room ->
  ToPropertyKey playerId = Some key ->
  players_get key (Room.players room) = Some player ->
  Number power = Some v -> Number angle = Some u ->
  snd (handleFire now roomId playerId power angle inh rooms) =
    if negb (no_winner room) then FireRejected
    else if Player.cooldownUntil player >? now then FireCooling (Player.cooldownUntil player)
    else FireOk.
Proof.
  intros Hr Hk Hp Hv Hu. unfold handleFire.
  rewrite Hr, Hk, (lookupPlayer_own inh _ _ _ Hp). simpl.
  destruct (negb (no_winner room)); [reflexivity|].
  destruct (Player.cooldownUntil player >? now); [reflexivity|].
  now rewrite Hv, Hu.
Qed.

(** X9: a fire request by a session of the room, with a power and an angle
    that convert to numbers, is accepted exactly when the room has no winner
    and the session's [cooldownUntil] is not in the future; it is answered
    with the cooldown notice exactly when there is no winner and the
    deadline is still ahead, and with 400 exactly when there is a winner.
    Whether the room has started plays no part. *)
Theorem fire_accepted_iff :
  forall (E : Engine) now roomId playerId power angle inh rooms room key player v u,
    rooms_lookup roomId rooms = Some room ->
    ToPropertyKey playerId = Some key ->
    players_get key (Room.players room) = Some player ->
    Number power = Some v -> Number angle = Some u ->
    (snd (handleFire now roomId playerId power angle inh rooms) = FireOk <->
     no_winner room = true /\ Player.cooldownUntil player <= now) /\
    (forall deadline,
       snd (handleFire now roomId playerId power angle inh rooms) = FireCooling deadline <->
       no_winner room = true /\ Player.cooldownUntil player = deadline /\ now < deadline) /\
    (snd (handleFire now roomId playerId power angle inh rooms) = FireRejected <->
     no_winner room = false).
Proof.
  intros E now roomId playerId power angle inh rooms room key player v u Hr Hk Hp Hv Hu.
  rewrite (handleFire_session now roomId playerId power angle inh rooms room key player v u)
    by assumption.
  destruct (no_winner room); simpl.
  - destruct (Z.gtb_spec (Player.cooldownUntil player) now) as [Hc|Hc].
    + split; [|split; [intros deadline|]]; split; try discriminate.
      * intros [_ H]. lia.
      * intros [= <-]. auto.
      * intros (_ & -> & _). reflexivity.
    + split; [|split; [intros deadline|]]; split; try discriminate; auto.
      intros (_ & H1 & H2). lia.
  - split; [|split; [intros deadline|]]; split; try discriminate; auto.
    intros [H _]. discriminate.
    intros (H & _). discriminate.
Qed.

Lemma fire_accepted_iff_witness :
  let rooms := @registry refEngine [Join 1000 7 alice] in
  option_map Room.started (rooms_get "room-1000-7" rooms) = Some false /\
  snd (@handleFire refEngine 1001 (JString "room-1000-7") (JString alice) (JNumber 500)
         (JNumber (-1)) noInherited rooms) = FireOk.
Proof.
  intros rooms. split; [reflexivity|].
  apply (proj1 (fire_accepted_iff refEngine 1001 (JString "room-1000-7") (JString alice)
                  (JNumber 500) (JNumber (-1)) noInherited rooms
                  (Room.mk "room-1000-7" [playerStartState alice 0 1000] [] 0 false None)
                  alice (playerStartState alice 0 1000) 500 (-1)
                  eq_refl eq_refl eq_refl eq_refl eq_refl)).
  split; [reflexivity | simpl; lia].
Defined.

(** ** Projectiles across a tick *)

(** X10: after a tick of a room that holds two sessions and had no winner,
    every projectile left in it is at most 6000 ms old and inside the
    extended arena ([-100 <= x <= 1100], [y <= 660], as the code tests it). *)
Theorem live_projectiles_are_young_and_inside :
  forall now room room',
    tickRoom now room = Some room' ->
    Room.started room' = true -> no_winner room = true ->
    Forall (fun q =>
              now - Projectile.bornAt q <= 6000 /\
              (Projectile.xnum q <? -100)%float = false /\
              (1100 <? Projectile.xnum q)%float = false /\
              (660 <? Projectile.y q)%float = false)
           (Room.projectiles room').
Proof.
  intros now room room'. unfold tickRoom. rewrite prepareRoom_spec.
  destruct (sweep now (Room.players room)) as [|p ps]; simpl; [discriminate|].
  intros [= <-]. set (r := Room.mk _ _ _ _ _ _). intros Hst Hw.
  destruct (physics_effect now r) as (_ & _ & Hst' & _). rewrite Hst' in Hst.
  assert (Hwr : no_winner r = true) by exact Hw.
  unfold physics. rewrite Hst, Hwr. cbn [negb orb].
  destruct (filterProjectiles_kept now (Room.projectiles r) r) as [_ Hin].
  destruct (filterProjectiles now r (Room.projectiles r)) as [r2 kept]. simpl in *.
  apply Forall_forall. intros q Hq. destruct (Hin q Hq) as (p0 & _ & _ & He & Ho).
  unfold expired, PROJECTILE_LIFETIME_MS in He. unfold outOfBounds in Ho.
  apply orb_false_elim in Ho as [Ho Hy]. apply orb_false_elim in Ho as [Hx1 Hx2].
  destruct (Z.gtb_spec (now - Projectile.bornAt q) 6000); [discriminate|]. auto.
Qed.

Lemma live_projectiles_are_young_and_inside_witness :
  let room := Room.mk "r" [playerStartState "A" 0 0; playerStartState "B" 1 0]
                [Projectile.mk "A-0" (JString "A") (Some 500%float) 300 100 0 0;
                 Projectile.mk "A-1" (JString "A") (Some 1095%float) 300 900 0 1;
                 Projectile.mk "B-2" (JString "B") (Some 500%float) 300 (-100) 0 9000] 0 true None in
  exists room',
    tickRoom 9001 room = Some room' /\
    map Projectile.id (Room.projectiles room') = ["B-2"%string] /\
    Forall (fun q => 9001 - Projectile.bornAt q <= 6000) (Room.projectiles room').
Proof.
  intros room. eexists. split; [reflexivity|]. split; [reflexivity|].
  pose proof (live_projectiles_are_young_and_inside 9001 room _ eq_refl eq_refl eq_refl) as H.
  apply Forall_forall. intros q Hq.
  exact (proj1 (proj1 (Forall_forall _ _) H q Hq)).
Defined.

(** X11: a tick creates no projectile: a room has at most as many after it
    as before, and each one left is one from before, untouched or advanced
    by one integration step. *)
Theorem tick_creates_no_projectile :
  forall now room room',
    tickRoom now room = Some room' ->
    (List.length (Room.projectiles room') <= List.length (Room.projectiles room))%nat /\
    forall q, In q (Room.projectiles room') ->
      In q (Room.projectiles room) \/
      exists p, In p (Room.projectiles room) /\ q = integrate p.
Proof.
  intros now room room'. unfold tickRoom. rewrite prepareRoom_spec.
  destruct (sweep now (Room.players room)) as [|p ps]; simpl; [discriminate|].
  intros [= <-]. set (r := Room.mk _ _ _ _ _ _). unfold physics.
  destruct (negb (Room.started r) || negb (no_winner r)).
  - subst r. simpl. split; [lia | auto].
  - destruct (filterProjectiles_kept now (Room.projectiles r) r) as [Hlen Hin].
    destruct (filterProjectiles now r (Room.projectiles r)) as [r2 kept]. simpl in *.
    split; [exact Hlen|]. intros q Hq. right.
    destruct (Hin q Hq) as (p0 & Hp0 & -> & _). eauto.
Qed.

Lemma tick_creates_no_projectile_witness :
  let room := Room.mk "r" [playerStartState "A" 0 0; playerStartState "B" 1 0]
                [Projectile.mk "A-0" (JString "A") (Some 500%float) 300 100 0 0;
                 Projectile.mk "A-1" (JString "A") (Some 1095%float) 300 900 0 1] 0 true None in
  exists room',
    tickRoom 10 room = Some room' /\
    (List.length (Room.projectiles room') <= 2)%nat /\
    Room.projectiles room' = [integrate (Projectile.mk "A-0" (JString "A") (Some 500%float) 300 100 0 0)].
Proof.
  intros room. eexists. split; [reflexivity|].
  split; [|vm_compute; reflexivity].
  exact (proj1 (tick_creates_no_projectile 10 room _ eq_refl)).
Defined.

(** ** Hit points across a tick *)

Lemma hpTotal_app ps qs : hpTotal (ps ++ qs) = hpTotal ps + hpTotal qs.
Proof. induction ps; simpl; lia. Qed.

Lemma not_healed_refl ps : Forall2 not_healed ps ps.
Proof. induction ps; constructor; auto. split; [reflexivity | lia]. Qed.

Lemma not_healed_trans ps qs rs :
  Forall2 not_healed ps qs -> Forall2 not_healed qs rs -> Forall2 not_healed ps rs.
Proof.
  intros H. revert rs. induction H as [|p q ps qs [H1 H2] _ IH]; intros rs Hq;
    inversion Hq as [|? r ? rs' [H3 H4] Hrest]; subst; constructor; auto.
  split; [congruence | lia].
Qed.

Lemma hitScan_not_healed now lastHitAt proj targets hit ps :
  hitScan now lastHitAt proj targets = Some (hit, ps) -> Forall2 not_healed targets ps.
Proof.
  intros Hs. apply hitScan_split in Hs as (b & t & a & -> & -> & -> & _).
  apply Forall2_app; [apply not_healed_refl|].
  constructor; [|apply not_healed_refl]. split; [reflexivity | simpl; lia].
Qed.

Lemma not_healed_total ps ps' :
  Forall2 not_healed ps ps' -> hpTotal ps' <= hpTotal ps.
Proof. induction 1 as [|p q ? ? [_ H]]; simpl; lia. Qed.

Lemma not_healed_by_one ps ps' :
  Forall2 not_healed ps ps' -> hpTotal ps - 1 <= hpTotal ps' ->
  Forall2 (fun p p' => Player.id p' = Player.id p /\
                       (Player.hp p' = Player.hp p \/ Player.hp p' = Player.hp p - 1))
          ps ps'.
Proof.
  induction 1 as [|p q ps qs [Hid Hhp] Hrest IH]; intros Ht; [constructor|].
  simpl in Ht. pose proof (not_healed_total _ _ Hrest) as Hle.
  constructor; [split; [exact Hid | lia] | apply IH; lia].
Qed.

Lemma rebuildFrom_not_healed now players : forall index,
  Forall2 not_healed players (rebuildFrom now index players) /\
  hpTotal (rebuildFrom now index players) = hpTotal players.
Proof.
  induction players as [|p rest IH]; intros index; simpl; [split; [constructor | reflexivity]|].
  destruct (IH (S index)) as [H1 H2]. split; [|lia].
  constructor; [split; [reflexivity | simpl; lia] | exact H1].
Qed.

(** X12: a tick never heals: the sessions it leaves in a room are the
    survivors of the sweep, in key order, each with the hp it had or one
    less. *)
Theorem tick_never_heals :
  forall now room room',
    tickRoom now room = Some room' ->
    Forall2 (fun p p' => Player.id p' = Player.id p /\
                         (Player.hp p' = Player.hp p \/ Player.hp p' = Player.hp p - 1))
            (sweep now (Room.players room)) (Room.players room').
Proof.
  intros now room room'. unfold tickRoom. rewrite prepareRoom_spec.
  destruct (sweep now (Room.players room)) as [|p ps]; simpl; [discriminate|].
  intros [= <-]. set (r := Room.mk _ _ _ _ _ _).
  destruct (rebuildFrom_not_healed now (p :: ps) 0) as [Hr Ht].
  assert (Hphys : Forall2 not_healed (p :: ps) (Room.players (physics now r))).
  { apply (physics_players_preserve (Forall2 not_healed (p :: ps))); [|exact Hr].
    intros. eapply not_healed_trans; [eassumption|]. eapply hitScan_not_healed; eauto. }
  apply not_healed_by_one; [exact Hphys|].
  destruct (physics_effect now r) as (_ & _ & _ & _ & _ & [[H _]|[H _]]);
    rewrite H; subst r; simpl Room.players; unfold rebuild; rewrite Ht; lia.
Qed.

Lemma tick_never_heals_witness :
  let room := Room.mk "r" [playerStartState "A" 0 0; playerStartState "B" 1 0]
                [Projectile.mk "A-0" (JString "A") (Some 870%float) 470 600 0 0] 0 true None in
  exists room',
    tickRoom 1000 room = Some room' /\
    map Player.hp (sweep 1000 (Room.players room)) = [5; 5] /\
    map Player.hp (Room.players room') = [5; 4].
Proof.
  intros room. eexists. split; [reflexivity|].
  pose proof (tick_never_heals 1000 room _ eq_refl) as H.
  split; [reflexivity|].
  inversion H as [|p p' ps ps' [_ Ha] Hrest Hsw Hpl]; subst.
  inversion Hrest as [|q q' qs qs' [_ Hb] Hnil Hsw' Hpl']; subst.
  vm_compute. reflexivity.
Defined.

(** ** Restart and the client *)

Lemma players_get_reset now k players :
  players_get k (map (fun p => playerStartState (Player.id p) (Player.slot p) now) players)
  = option_map (fun p => playerStartState (Player.id p) (Player.slot p) now)
      (players_get k players).
Proof.
  induction players as [|p rest IH]; simpl; [reflexivity|].
  destruct (String.eqb k (Player.id p)); [reflexivity | exact IH].
Qed.

(** X13: a restart reopens the room for fire: whatever the room was (a
    winner set, sessions cooling down), after a restart every session of it
    that fires at a time [now' >= 0], with a power and an angle that convert
    to numbers, is accepted. *)
Theorem restart_reopens_fire :
  forall (E : Engine) now roomId rooms room playerId key player now' power angle inh v u,
    rooms_lookup roomId rooms = Some room ->
    ToPropertyKey playerId = Some key ->
    players_get key (Room.players room) = Some player ->
    Number power = Some v -> Number angle = Some u ->
    0 <= now' ->
    snd (handleFire now' roomId playerId power angle inh (fst (handleRestart now roomId rooms)))
      = FireOk.
Proof.
  intros E now roomId rooms room playerId key player now' power angle inh v u
    Hr Hk Hp Hv Hu Hnow.
  unfold handleRestart. rewrite Hr. simpl fst.
  set (room' := Room.set_started _ _).
  assert (Hget : rooms_lookup roomId (rooms_set room' rooms) = Some room')
    by (apply (rooms_lookup_written roomId rooms room); [exact Hr | reflexivity]).
  assert (Hp' : players_get key (Room.players room')
                = Some (playerStartState (Player.id player) (Player.slot player) now)).
  { subst room'.
    change (Room.players (Room.set_started (occupants (resetRoom now room) =? 2)%nat
                            (resetRoom now room)))
      with (map (fun p => playerStartState (Player.id p) (Player.slot p) now)
              (Room.players room)).
    now rewrite players_get_reset, Hp. }
  rewrite (handleFire_session now' roomId playerId power angle inh _ room' key _ v u
             Hget Hk Hp' Hv Hu).
  simpl. destruct (Z.gtb_spec 0 now'); [lia | reflexivity].
Qed.

Lemma restart_reopens_fire_witness :
  let rooms := @registry refEngine duel in
  snd (@handleFire refEngine 7000 (JString "room-1000-7") (JString bob) JNull JNull
         noInherited rooms) = FireRejected /\
  snd (@handleFire refEngine 7000 (JString "room-1000-7") (JString bob) JNull JNull
         noInherited (fst (handleRestart 6990 (JString "room-1000-7") rooms))) = FireOk.
Proof.
  intros rooms. split; [vm_compute; reflexivity|].
  apply (restart_reopens_fire refEngine 6990 (JString "room-1000-7") rooms duelRoom
           (JString bob) bob (Player.set_hp 0 (respawned 1 (playerStartState bob 1 1000)))
           7000 JNull JNull noInherited 0 0);
    [unfold rooms; rewrite duel_registry; reflexivity
    | reflexivity | reflexivity | reflexivity | reflexivity | lia].
Defined.

(** X14: the client's [canFire] is sound for the server: if it allows a
    shot on a snapshot that is the room's current state, the fire request
    with the client's ids is accepted at every server time not before the
    client's clock reading, for every power and angle that convert to
    numbers (the client posts numbers or [null]). *)
Theorem client_canFire_is_accepted :
  forall (E : Engine) view roomId playerId clientNow now power angle inh rooms v u,
    canFire (Some view) (Some (roomId, playerId)) clientNow = true ->
    rooms_get roomId rooms = Some view ->
    clientNow <= now ->
    Number power = Some v -> Number angle = Some u ->
    snd (handleFire now (JString roomId) (JString playerId) power angle inh rooms) = FireOk.
Proof.
  intros E view roomId playerId clientNow now power angle inh rooms v u Hcan Hr Hnow Hv Hu.
  unfold canFire in Hcan.
  destruct (negb (Room.started view)); [discriminate|]. simpl in Hcan.
  destruct (negb (no_winner view)) eqn:Hw; [discriminate|].
  destruct (players_get playerId (Room.players view)) as [self|] eqn:Hp; [|discriminate].
  apply Z.leb_le in Hcan.
  rewrite (handleFire_session now (JString roomId) (JString playerId) power angle inh rooms
             view playerId self v u Hr eq_refl Hp Hv Hu).
  rewrite Hw. destruct (Z.gtb_spec (Player.cooldownUntil self) now); [lia | reflexivity].
Qed.

Lemma client_canFire_is_accepted_witness :
  let rooms := @registry refEngine [Join 1000 7 alice; Join 1000 8 bob] in
  exists view,
    rooms_get "room-1000-7" rooms = Some view /\
    canFire (Some view) (Some ("room-1000-7"%string, bob)) 1500 = true /\
    snd (@handleFire refEngine 1502 (JString "room-1000-7") (JString bob) (JNumber 400)
           (JNumber (-1)) noInherited rooms)
      = FireOk.
Proof.
  intros rooms.
  exists (Room.mk "room-1000-7" [playerStartState alice 0 1000; playerStartState bob 1 1000]
            [] 0 true None).
  split; [reflexivity|]. split; [reflexivity|].
  apply (client_canFire_is_accepted refEngine
           (Room.mk "room-1000-7" [playerStartState alice 0 1000; playerStartState bob 1 1000]
              [] 0 true None)
           "room-1000-7" bob 1500 1502 (JNumber 400) (JNumber (-1)) noInherited rooms
           400 (-1));
    [reflexivity | reflexivity | lia | reflexivity | reflexivity].
Defined.

(** ** Clamping on both sides *)

(** X15: [clamp] yields NaN exactly when one of its arguments is NaN; on a
    number it lands in [[min, max]] when [min <= max]; and it returns a
    non-zero number that already lies in the interval as it is. *)
Theorem clamp_contract :
  forall v lo hi,
    is_nan (clamp v lo hi) = is_nan lo || (is_nan hi || is_nan v) /\
    (is_nan v = false -> (lo <=? hi)%float = true ->
     (lo <=? clamp v lo hi)%float = true /\ (clamp v lo hi <=? hi)%float = true) /\
    (is_zero v = false -> (lo <=? v)%float = true -> (v <=? hi)%float = true ->
     clamp v lo hi = v).
Proof.
  intros v lo hi. split; [|split].
  - unfold clamp. now rewrite Math_max_nan, Math_min_nan.
  - intros Hv Hle. destruct (float_le_not_nan _ _ Hle) as [Hlo Hhi].
    now apply clamp_bounds.
  - apply clamp_fix.
Qed.

Lemma clamp_contract_witness :
  (150 <=? clamp 1e9 150 900)%float = true /\ (clamp 1e9 150 900 <=? 900)%float = true /\
  clamp 412.5 150 900 = 412.5%float.
Proof.
  destruct (clamp_contract 1e9 150 900) as (_ & Hb & _).
  destruct (Hb eq_refl eq_refl) as [H1 H2].
  split; [exact H1|]. split; [exact H2|].
  exact (proj2 (proj2 (clamp_contract 412.5 150 900)) eq_refl eq_refl eq_refl).
Defined.

(** X16: what the client has clamped the server takes as it is: for a
    drag that gives numbers, the power and the angle the client posts come
    out of the server's own coercion and clamp unchanged. *)
Theorem client_aim_passes_server_unchanged :
  forall (E : Engine) rawPower angle,
    is_nan rawPower = false -> is_nan angle = false ->
    option_map clampedPower (Number (JSON_number (clientPower rawPower)))
      = Some (clientPower rawPower) /\
    option_map clampedAngle (Number (JSON_number (clientAngle angle)))
      = Some (clientAngle angle).
Proof.
  intros E rawPower angle Hp Ha. split.
  - destruct (clamp_bounds rawPower 150 900 Hp eq_refl eq_refl eq_refl) as [H1 H2].
    change (clamp rawPower 150 900) with (clientPower rawPower) in H1, H2.
    destruct (float_le_not_nan _ _ H2) as [Hn _].
    pose proof (float_above_zero 150 _ eq_refl H1) as Hz.
    pose proof (float_between_finite 150 900 _ eq_refl eq_refl H1 H2) as Hi.
    rewrite (JSON_number_plain _ Hn Hi Hz). simpl. f_equal. unfold clampedPower.
    rewrite (orZero_plain _ Hn Hz). now apply clamp_fix.
  - destruct (clientAngle_bounds angle Ha) as [H1 H2].
    destruct (float_le_not_nan _ _ H2) as [Hn _].
    pose proof (float_below_zero (- 0.15) _ eq_refl H2) as Hz.
    pose proof (float_between_finite (- Math_PI + 0.15) (- 0.15) _ eq_refl eq_refl H1 H2) as Hi.
    rewrite (JSON_number_plain _ Hn Hi Hz). simpl. f_equal. unfold clampedAngle.
    rewrite (orZero_plain _ Hn Hz). now apply clamp_fix.
Qed.

Lemma client_aim_passes_server_unchanged_witness :
  clientPower 2500 = 900%float /\ clientAngle 1 = (- 0.15)%float /\
  option_map clampedPower (@Number refEngine (JSON_number (clientPower 2500)))
    = Some (clientPower 2500) /\
  option_map clampedAngle (@Number refEngine (JSON_number (clientAngle 1)))
    = Some (clientAngle 1).
Proof.
  split; [reflexivity|]. split; [reflexivity|].
  exact (client_aim_passes_server_unchanged refEngine 2500 1 eq_refl eq_refl).
Defined.

(** ** Matchmaking in sequence *)

Lemma find_app_None {A} (f : A -> bool) l l' :
  find f l = None -> find f (l ++ l') = find f l'.
Proof. induction l as [|a l IH]; simpl; [auto|]. destruct (f a); [discriminate | exact IH]. Qed.

Lemma dict_get_app_None {V : Type} (key : V -> string) k (d d' : list V) :
  dict_get key k d = None -> dict_get key k (d ++ d') = dict_get key k d'.
Proof.
  induction d as [|v d IH]; simpl; [auto|].
  destruct (String.eqb k (key v)); [discriminate | exact IH].
Qed.

Lemma dict_set_app_last {V : Type} (key : V -> string) v w (d : list V) :
  dict_get key (key v) d = None -> key v = key w ->
  dict_set key v (d ++ [w]) = d ++ [v].
Proof.
  intros Hn Hk. induction d as [|v' d IH]; simpl in *.
  - now rewrite Hk, String.eqb_refl.
  - destruct (String.eqb (key v) (key v')); [discriminate|]. now rewrite IH.
Qed.

(** X17: matchmaking pairs players up: when no room is joinable and the
    fresh id is free, a join opens a room for its session at slot 0, and the
    next join, by another session, lands in that same room at slot 1 and
    starts it. *)
Theorem two_joins_pair_up :
  forall now rnd u1 now2 rnd2 u2 rooms,
    find joinable rooms = None ->
    rooms_get (freshRoomId now rnd) rooms = None ->
    u1 <> u2 ->
    let id := freshRoomId now rnd in
    let rooms1 := fst (handleJoin now rnd u1 rooms) in
    snd (handleJoin now rnd u1 rooms) = Joined id u1 0 /\
    rooms1 = rooms ++ [Room.mk id [playerStartState u1 0 now] [] 0 false None] /\
    snd (handleJoin now2 rnd2 u2 rooms1) = Joined id u2 1 /\
    fst (handleJoin now2 rnd2 u2 rooms1)
      = rooms ++ [Room.mk id [playerStartState u1 0 now; playerStartState u2 1 now2]
                    [] 0 true None].
Proof.
  intros now rnd u1 now2 rnd2 u2 rooms Hfind Hfree Hne id rooms1.
  assert (H1 : handleJoin now rnd u1 rooms
               = (rooms ++ [Room.mk id [playerStartState u1 0 now] [] 0 false None],
                  Joined id u1 0)).
  { assert (Hd : dict_set Room.id (makeRoom id) rooms = rooms ++ [makeRoom id])
      by (apply (dict_set_absent Room.id); exact Hfree).
    unfold handleJoin, findOrCreateRoom. rewrite Hfind. cbv zeta. fold id.
    unfold rooms_set. rewrite Hd. simpl. f_equal.
    now apply (dict_set_app_last Room.id). }
  subst rooms1. rewrite H1. simpl fst. simpl snd.
  split; [reflexivity|]. split; [reflexivity|].
  unfold handleJoin, findOrCreateRoom. rewrite (find_app_None _ _ _ Hfind). simpl.
  destruct (String.eqb_spec u2 u1) as [Heq|_]; [congruence|]. simpl.
  split; [reflexivity|].
  now apply (dict_set_app_last Room.id).
Qed.

Lemma two_joins_pair_up_witness :
  let rooms := @registry refEngine [Join 1 2 alice; Join 3 4 bob] in
  snd (handleJoin 5 6 carol rooms) = Joined "room-5-6" carol 0 /\
  snd (handleJoin 7 8 dave (fst (handleJoin 5 6 carol rooms))) = Joined "room-5-6" dave 1 /\
  map Room.started (fst (handleJoin 7 8 dave (fst (handleJoin 5 6 carol rooms))))
    = [true; true].
Proof.
  intros rooms.
  destruct (two_joins_pair_up 5 6 carol 7 8 dave rooms eq_refl eq_refl)
    as (H1 & _ & H2 & H3); [discriminate|].
  split; [exact H1|]. split; [exact H2|]. rewrite H3. reflexivity.
Defined.

(** ** Room ids *)

Lemma string_of_uint_no_dash d : has_dash (NilEmpty.string_of_uint d) = false.
Proof. induction d; simpl; auto. Qed.

Lemma Z_to_string_no_dash z : 0 <= z -> has_dash (Z_to_string z) = false.
Proof.
  intros Hz. unfold Z_to_string. destruct z as [|p|p]; [reflexivity| |lia].
  simpl. unfold NilZero.string_of_uint.
  destruct (Pos.to_uint p) eqn:Hp; try (rewrite <- Hp; apply string_of_uint_no_dash).
  reflexivity.
Qed.

Lemma Z_to_string_inj z z' : Z_to_string z = Z_to_string z' -> z = z'.
Proof.
  unfold Z_to_string. intros H.
  assert (Hnn : forall n, Z.to_int n <> Decimal.Pos Decimal.Nil /\
                          Z.to_int n <> Decimal.Neg Decimal.Nil).
  { intros [|p|p]; simpl; split; try discriminate; intros [= Hp];
      exact (DecimalPos.Unsigned.to_uint_nonnil p Hp). }
  apply DecimalZ.to_int_inj.
  pose proof (NilZero.isi (Z.to_int z) (proj1 (Hnn z)) (proj2 (Hnn z))) as H1.
  pose proof (NilZero.isi (Z.to_int z') (proj1 (Hnn z')) (proj2 (Hnn z'))) as H2.
  rewrite H in H1. congruence.
Qed.

Lemma split_at_dash s : forall s' t t',
  has_dash s = false -> has_dash s' = false ->
  (s ++ String "-" t = s' ++ String "-" t')%string -> s = s' /\ t = t'.
Proof.
  induction s as [|c s IH]; intros [|c' s'] t t'; simpl.
  - intros _ _ [= ->]. auto.
  - intros _ Hd [= <- _]. discriminate.
  - intros Hd _ [= -> _]. discriminate.
  - intros Hd Hd' [= <- Heq].
    apply orb_false_elim in Hd as [_ Hd]. apply orb_false_elim in Hd' as [_ Hd'].
    destruct (IH _ _ _ Hd Hd' Heq) as [-> ->]. auto.
Qed.

(** X18: room ids are told apart by time and draw: for times that are not
    negative, two generated ids are equal only if both the millisecond and
    the random draw are. *)
Theorem freshRoomId_injective :
  forall now rnd now' rnd',
    0 <= now -> 0 <= now' ->
    freshRoomId now rnd = freshRoomId now' rnd' -> now = now' /\ rnd = rnd'.
Proof.
  intros now rnd now' rnd' Hn Hn' H. unfold freshRoomId in H. simpl in H.
  injection H as H.
  apply split_at_dash in H as [H1 H2]; auto using Z_to_string_no_dash.
  split; now apply Z_to_string_inj.
Qed.

Lemma freshRoomId_injective_witness :
  freshRoomId 5 71 = "room-5-71"%string /\ freshRoomId 57 1 = "room-57-1"%string /\
  freshRoomId 5 71 <> freshRoomId 57 1.
Proof.
  split; [reflexivity|]. split; [reflexivity|]. intros H.
  destruct (freshRoomId_injective 5 71 57 1 ltac:(lia) ltac:(lia) H) as [H1 _].
  discriminate H1.
Defined.
